(** * The client registry API of netlify/functions/api.ts

    A shallow embedding of the request handler of
    [netlify/functions/api.ts]: the [ClientStore] singleton (a JavaScript
    [Map], kept in insertion order), the routing on method and path
    segments, the parsing and validation of the request body, and the
    responses.

    JavaScript strings are sequences of UTF-16 code units; they are
    modelled as lists of code units ([N]).  [JSON.parse],
    [String.prototype.trim], [String.prototype.replace] (string pattern),
    and [String.prototype.split] are modelled after ECMA-262.  The [URL]
    constructor of the platform is a parameter of the development: only
    whether it throws matters to the handler. *)

From Stdlib Require Import List NArith ZArith Bool Ascii String Lia.
Import ListNotations.

#[local] Set Warnings "-register-all".
Local Open Scope N_scope.

(** ** Strings *)

(** A JavaScript string: its UTF-16 code units. *)
Definition jsstring := list N.

(** The string written with ASCII characters [s]. *)
Definition js (s : string) : jsstring :=
  map N_of_ascii (list_ascii_of_string s).

Arguments js s%_string.

(** The string [s] with a quotation mark (code unit 34) for each
    apostrophe: JSON texts are written with it. *)
Definition jsq (s : string) : jsstring :=
  map (fun c => if c =? 39 then 34 else c) (js s).

Arguments jsq s%_string.

(** [a === b] on strings. *)
Fixpoint str_eqb (a b : jsstring) : bool :=
  match a, b with
  | [], [] => true
  | x :: a', y :: b' => (x =? y) && str_eqb a' b'
  | _, _ => false
  end.

(** The code units [String.prototype.trim] strips: ECMA-262 WhiteSpace
    (TAB, VT, FF, SP, NBSP, ZWNBSP and category Zs) and LineTerminator
    (LF, CR, LS, PS). *)
Definition isWhiteSpace (c : N) : bool :=
  ((9 <=? c) && (c <=? 13))
  || (c =? 32) || (c =? 160) || (c =? 5760)
  || ((8192 <=? c) && (c <=? 8202))
  || (c =? 8232) || (c =? 8233) || (c =? 8239) || (c =? 8287)
  || (c =? 12288) || (c =? 65279).

Fixpoint trimStart (s : jsstring) : jsstring :=
  match s with
  | [] => []
  | c :: r => if isWhiteSpace c then trimStart r else s
  end.

Definition trimEnd (s : jsstring) : jsstring :=
  rev (trimStart (rev s)).

(** [s.trim()]. *)
Definition trim (s : jsstring) : jsstring :=
  trimEnd (trimStart s).

(** [s.startsWith(p)]. *)
Fixpoint startsWith (p s : jsstring) : bool :=
  match p, s with
  | [], _ => true
  | x :: p', y :: s' => (x =? y) && startsWith p' s'
  | _ :: _, [] => false
  end.

(** [s.replace(p, '')] for a string pattern [p]: the first occurrence of
    [p] in [s] is removed, and [s] is returned as it is when [p] does not
    occur. *)
Fixpoint replace_empty (p s : jsstring) : jsstring :=
  if startsWith p s then skipn (List.length p) s
  else match s with
       | [] => []
       | c :: r => c :: replace_empty p r
       end.

(** [s.split(sep)] for a separator of one code unit. *)
Fixpoint split (sep : N) (s : jsstring) : list jsstring :=
  match s with
  | [] => [[]]
  | c :: r =>
      if c =? sep then [] :: split sep r
      else match split sep r with
           | seg :: segs => (c :: seg) :: segs
           | [] => [[c]]
           end
  end.

(** ** JSON values *)

(** The values [JSON.parse] produces.  A number is kept as the literal it
    was read from: the handler never looks at the value of a number. *)
Inductive json : Type :=
| JNull
| JBool (b : bool)
| JNumber (literal : jsstring)
| JString (s : jsstring)
| JArray (elements : list json)
| JObject (members : list (jsstring * json)).

(** ** [JSON.parse] *)

(** The outcome of a parsing function: a value and the text after it, a
    [SyntaxError], or recursion budget exhausted (which [JSON_parse]
    never meets: see [parse_value_fuel]). *)
Inductive parsed (A : Type) : Type :=
| Parsed (a : A) (rest : jsstring)
| SyntaxError
| OutOfFuel.

Arguments Parsed {A} a rest.
Arguments SyntaxError {A}.
Arguments OutOfFuel {A}.

(** JSON white space: TAB, LF, CR, SP. *)
Definition isJSONWhiteSpace (c : N) : bool :=
  (c =? 9) || (c =? 10) || (c =? 13) || (c =? 32).

Fixpoint skip_ws (s : jsstring) : jsstring :=
  match s with
  | [] => []
  | c :: r => if isJSONWhiteSpace c then skip_ws r else s
  end.

Definition isDigit (c : N) : bool := (48 <=? c) && (c <=? 57).

(** The value of a hexadecimal digit. *)
Definition hexDigit (c : N) : option N :=
  if isDigit c then Some (c - 48)
  else if (97 <=? c) && (c <=? 102) then Some (c - 87)
  else if (65 <=? c) && (c <=? 70) then Some (c - 55)
  else None.

(** The code unit of a one-character escape. *)
Definition escapeChar (c : N) : option N :=
  if c =? 34 then Some 34          (* quotation mark *)
  else if c =? 92 then Some 92     (* reverse solidus *)
  else if c =? 47 then Some 47     (* solidus *)
  else if c =? 98 then Some 8      (* b: backspace *)
  else if c =? 102 then Some 12    (* f: form feed *)
  else if c =? 110 then Some 10    (* n: line feed *)
  else if c =? 114 then Some 13    (* r: carriage return *)
  else if c =? 116 then Some 9     (* t: tab *)
  else None.

(** The text after the code unit [c], for a text that starts with it. *)
Definition eat (c : N) (s : jsstring) : option jsstring :=
  match s with
  | x :: r => if x =? c then Some r else None
  | [] => None
  end.

(** The characters of a JSON string, read after its opening quote up to
    and including the closing quote: a quotation mark ends the string, a
    reverse solidus starts an escape ([u] and four hexadecimal digits, or
    one character), and a control character is refused. *)
Fixpoint parse_chars (s : jsstring) : option (jsstring * jsstring) :=
  match s with
  | [] => None
  | c :: r =>
      if c =? 34 then Some ([], r)
      else if c =? 92 then
        match r with
        | [] => None
        | e :: r' =>
            if e =? 117 then
              match r' with
              | h1 :: h2 :: h3 :: h4 :: r'' =>
                  match hexDigit h1, hexDigit h2, hexDigit h3, hexDigit h4 with
                  | Some d1, Some d2, Some d3, Some d4 =>
                      match parse_chars r'' with
                      | Some (cs, rest) =>
                          Some (((d1 * 16 + d2) * 16 + d3) * 16 + d4 :: cs,
                                rest)
                      | None => None
                      end
                  | _, _, _, _ => None
                  end
              | _ => None
              end
            else
              match escapeChar e with
              | Some u =>
                  match parse_chars r' with
                  | Some (cs, rest) => Some (u :: cs, rest)
                  | None => None
                  end
              | None => None
              end
        end
      else if c <? 32 then None
      else
        match parse_chars r with
        | Some (cs, rest) => Some (c :: cs, rest)
        | None => None
        end
  end.

(** The longest run of decimal digits at the head of [s], and the rest. *)
Fixpoint digits (s : jsstring) : jsstring * jsstring :=
  match s with
  | c :: r =>
      if isDigit c then let (ds, rest) := digits r in (c :: ds, rest)
      else ([], s)
  | [] => ([], [])
  end.

(** At least one decimal digit. *)
Definition digits1 (s : jsstring) : option (jsstring * jsstring) :=
  match digits s with
  | ([], _) => None
  | (ds, rest) => Some (ds, rest)
  end.

(** A JSON number: an optional minus sign; an integer part, either 0 or
    a digit from 1 to 9 followed by any digits; an optional fraction, a
    point and at least one digit; an optional exponent, e or E, an
    optional sign and at least one digit. *)
Definition parse_sign (s : jsstring) : jsstring * jsstring :=
  match eat 45 s with
  | Some r => ([45], r)
  | None => ([], s)
  end.

Definition parse_int (s : jsstring) : option (jsstring * jsstring) :=
  match s with
  | c :: r =>
      if c =? 48 then Some ([48], r)
      else if isDigit c then let (ds, rest) := digits r in Some (c :: ds, rest)
      else None
  | [] => None
  end.

Definition parse_frac (s : jsstring) : option (jsstring * jsstring) :=
  match eat 46 s with
  | Some r =>
      match digits1 r with
      | Some (ds, rest) => Some (46 :: ds, rest)
      | None => None
      end
  | None => Some ([], s)
  end.

Definition parse_exp (s : jsstring) : option (jsstring * jsstring) :=
  match s with
  | e :: r =>
      if (e =? 101) || (e =? 69) then
        let (sg, r1) :=
          match r with
          | g :: r' => if (g =? 43) || (g =? 45) then ([g], r') else ([], r)
          | [] => ([], r)
          end in
        match digits1 r1 with
        | Some (ds, rest) => Some (e :: sg ++ ds, rest)
        | None => None
        end
      else Some ([], s)
  | [] => Some ([], s)
  end.

Definition parse_number (s : jsstring) : option (jsstring * jsstring) :=
  let (sign, s1) := parse_sign s in
  match parse_int s1 with
  | None => None
  | Some (i, s2) =>
      match parse_frac s2 with
      | None => None
      | Some (f, s3) =>
          match parse_exp s3 with
          | None => None
          | Some (x, s4) => Some (sign ++ i ++ f ++ x, s4)
          end
      end
  end.

(** A JSON value, with the white space before it.  [parse_elements] reads
    the elements of an array after its opening bracket, [parse_members]
    the members of an object after its opening brace, both up to and
    including the closing one. *)
Fixpoint parse_value (fuel : nat) (s : jsstring) : parsed json :=
  match fuel with
  | O => OutOfFuel
  | S f =>
      match skip_ws s with
      | [] => SyntaxError
      | c :: r =>
          if c =? 123 then
            match eat 125 (skip_ws r) with
            | Some r' => Parsed (JObject []) r'
            | None =>
                match parse_members f r with
                | Parsed ms r' => Parsed (JObject ms) r'
                | SyntaxError => SyntaxError
                | OutOfFuel => OutOfFuel
                end
            end
          else if c =? 91 then
            match eat 93 (skip_ws r) with
            | Some r' => Parsed (JArray []) r'
            | None =>
                match parse_elements f r with
                | Parsed vs r' => Parsed (JArray vs) r'
                | SyntaxError => SyntaxError
                | OutOfFuel => OutOfFuel
                end
            end
          else if c =? 34 then
            match parse_chars r with
            | Some (str, r') => Parsed (JString str) r'
            | None => SyntaxError
            end
          else if startsWith (js "null") (c :: r) then
            Parsed JNull (skipn 4 (c :: r))
          else if startsWith (js "true") (c :: r) then
            Parsed (JBool true) (skipn 4 (c :: r))
          else if startsWith (js "false") (c :: r) then
            Parsed (JBool false) (skipn 5 (c :: r))
          else
            match parse_number (c :: r) with
            | Some (n, r') => Parsed (JNumber n) r'
            | None => SyntaxError
            end
      end
  end
with parse_elements (fuel : nat) (s : jsstring) : parsed (list json) :=
  match fuel with
  | O => OutOfFuel
  | S f =>
      match parse_value f s with
      | Parsed v r =>
          match skip_ws r with
          | c :: r' =>
              if c =? 44 then
                match parse_elements f r' with
                | Parsed vs r'' => Parsed (v :: vs) r''
                | SyntaxError => SyntaxError
                | OutOfFuel => OutOfFuel
                end
              else if c =? 93 then Parsed [v] r'
              else SyntaxError
          | [] => SyntaxError
          end
      | SyntaxError => SyntaxError
      | OutOfFuel => OutOfFuel
      end
  end
with parse_members (fuel : nat) (s : jsstring)
  : parsed (list (jsstring * json)) :=
  match fuel with
  | O => OutOfFuel
  | S f =>
      match eat 34 (skip_ws s) with
      | Some r =>
          match parse_chars r with
          | Some (k, r1) =>
              match eat 58 (skip_ws r1) with
              | Some r2 =>
                  match parse_value f r2 with
                  | Parsed v r3 =>
                      match skip_ws r3 with
                      | c :: r4 =>
                          if c =? 44 then
                            match parse_members f r4 with
                            | Parsed ms r5 => Parsed ((k, v) :: ms) r5
                            | SyntaxError => SyntaxError
                            | OutOfFuel => OutOfFuel
                            end
                          else if c =? 125 then Parsed [(k, v)] r4
                          else SyntaxError
                      | [] => SyntaxError
                      end
                  | SyntaxError => SyntaxError
                  | OutOfFuel => OutOfFuel
                  end
              | None => SyntaxError
              end
          | None => SyntaxError
          end
      | None => SyntaxError
      end
  end.

(** [JSON.parse(text)]: [None] when it throws a [SyntaxError].  The
    recursion budget is more than any text needs. *)
Definition JSON_parse (text : jsstring) : option json :=
  match parse_value (2 * List.length text + 2) text with
  | Parsed v rest =>
      match skip_ws rest with
      | [] => Some v
      | _ :: _ => None
      end
  | SyntaxError => None
  | OutOfFuel => None
  end.

(** ** The store *)

(** [interface ClientData]. *)
Record ClientData : Type := {
  name : jsstring;
  downloadLink : jsstring
}.

(** [class ClientStore]: its [store] field is a JavaScript [Map], which
    keeps its entries in the order their keys were first inserted.  The
    singleton [clientStore] is the state the handler runs in. *)
Module ClientStore.

Definition t := list (jsstring * ClientData).

(** [new Map()]. *)
Definition empty : t := [].

(** [this.store.get(id)]. *)
Fixpoint get (id : jsstring) (st : t) : option ClientData :=
  match st with
  | [] => None
  | (k, d) :: r => if str_eqb k id then Some d else get id r
  end.

(** [this.store.has(id)]. *)
Fixpoint has (id : jsstring) (st : t) : bool :=
  match st with
  | [] => false
  | (k, _) :: r => str_eqb k id || has id r
  end.

(** [this.store.set(id, data)]: the value of an existing key is
    replaced where it is, a new key is added at the end. *)
Fixpoint set (id : jsstring) (data : ClientData) (st : t) : t :=
  match st with
  | [] => [(id, data)]
  | (k, d) :: r =>
      if str_eqb k id then (k, data) :: r else (k, d) :: set id data r
  end.

(** [this.store.delete(id)]: the store without the entry of [id] (a
    [Map] holds at most one for a key). *)
Fixpoint delete (id : jsstring) (st : t) : t :=
  match st with
  | [] => []
  | (k, d) :: r =>
      if str_eqb k id then delete id r else (k, d) :: delete id r
  end.

(** [getAll()]: each entry as [{ id, ...data }], in the order of the
    map. *)
Definition getAll (st : t) : list json :=
  map (fun e : jsstring * ClientData =>
         let (id, data) := e in
         JObject [(js "id", JString id);
                  (js "name", JString (name data));
                  (js "downloadLink", JString (downloadLink data))])
      st.

(** The keys, in the order of the map. *)
Definition keys (st : t) : list jsstring := map fst st.

End ClientStore.

(** ** Requests and responses *)

(** The fields of the event the handler reads.  [body] is [None] for
    [null]. *)
Module Event.
Record t : Type := {
  httpMethod : jsstring;
  path : jsstring;
  body : option jsstring
}.
End Event.

(** What is thrown inside the handler's [try]: a [TypeError]. *)
Inductive error : Type :=
| TypeError.

(** The [body] of a response: [JSON.stringify(j)], or for the response of
    the outer [catch] the text of
    [{ error: 'Internal server error', message: error.message }]. *)
Inductive payload : Type :=
| Stringify (j : json)
| InternalServerError (e : error).

Module Response.
Record t : Type := {
  statusCode : N;
  headers : list (jsstring * jsstring);
  body : option payload
}.
End Response.

Definition corsHeaders : list (jsstring * jsstring) :=
  [(js "Access-Control-Allow-Origin", js "*");
   (js "Access-Control-Allow-Headers", js "Content-Type");
   (js "Access-Control-Allow-Methods", js "GET, POST, PUT, DELETE, OPTIONS")].

(** [{ statusCode, headers: corsHeaders, body: JSON.stringify(j) }]. *)
Definition respond (code : N) (j : json) : Response.t :=
  {| Response.statusCode := code;
     Response.headers := corsHeaders;
     Response.body := Some (Stringify j) |}.

(** [{ statusCode, headers: corsHeaders }]. *)
Definition respondEmpty (code : N) : Response.t :=
  {| Response.statusCode := code;
     Response.headers := corsHeaders;
     Response.body := None |}.

(** [{ error: message }]. *)
Definition errorBody (message : string) : json :=
  JObject [(js "error", JString (js message))].

Arguments errorBody message%_string.

(** [{ name: n, downloadLink: l }]. *)
Definition clientBody (n l : jsstring) : json :=
  JObject [(js "name", JString n); (js "downloadLink", JString l)].

(** ** Statements that may throw, in the state of the store *)

Inductive completion (A : Type) : Type :=
| Normal (a : A)
| Throw (e : error).

Arguments Normal {A} a.
Arguments Throw {A} e.

Definition M (A : Type) : Type :=
  ClientStore.t -> completion A * ClientStore.t.

Definition ret {A} (a : A) : M A := fun st => (Normal a, st).

Definition throw {A} (e : error) : M A := fun st => (Throw e, st).

Definition bind {A B} (m : M A) (k : A -> M B) : M B :=
  fun st =>
    match m st with
    | (Normal a, st') => k a st'
    | (Throw e, st') => (Throw e, st')
    end.

Notation "x <- m ;; k" := (bind m (fun x => k))
  (at level 61, m at next level, right associativity).
Notation "m ;;; k" := (bind m (fun _ => k))
  (at level 61, right associativity).

(** The methods of [clientStore] as statements. *)
Definition getAll : M (list json) :=
  fun st => (Normal (ClientStore.getAll st), st).
Definition get (id : jsstring) : M (option ClientData) :=
  fun st => (Normal (ClientStore.get id st), st).
Definition has (id : jsstring) : M bool :=
  fun st => (Normal (ClientStore.has id st), st).
Definition set (id : jsstring) (data : ClientData) : M unit :=
  fun st => (Normal tt, ClientStore.set id data st).
Definition delete (id : jsstring) : M bool :=
  fun st => (Normal (ClientStore.has id st), ClientStore.delete id st).

(** ** Reading the request *)

Definition apiPrefix : jsstring := js "/.netlify/functions/api/".

(** [segments], from [event.path]:
    [path = event.path.replace('/.netlify/functions/api/', '')] and
    [segments = path.split('/')]. *)
Definition segmentsOf (eventPath : jsstring) : list jsstring :=
  let path := replace_empty apiPrefix eventPath in
  split 47 path.

(** [segments[i]]: [None] is [undefined]. *)
Definition segment (segments : list jsstring) (i : nat) : option jsstring :=
  nth_error segments i.

(** [segments[i] === s]. *)
Definition segmentIs (v : option jsstring) (s : jsstring) : bool :=
  match v with
  | Some x => str_eqb x s
  | None => false
  end.

(** A string or [undefined] as a condition: [undefined] and the empty
    string are falsy. *)
Definition truthy (v : option jsstring) : bool :=
  match v with
  | Some (_ :: _) => true
  | Some [] => false
  | None => false
  end.

(** [event.body || '{}']. *)
Definition bodyText (b : option jsstring) : jsstring :=
  if truthy b then match b with Some s => s | None => js "{}" end
  else js "{}".

(** [body.name] and [body.downloadLink] for a parsed body that is not
    [null]: the member of an object (the last one of that name), and
    [undefined] ([None]) when the object has none, or when the body is an
    array, a string, a number or a boolean, none of which has a property
    of either name. *)
Fixpoint lookupMember (key : jsstring) (ms : list (jsstring * json))
  : option json :=
  match ms with
  | [] => None
  | (k, v) :: r =>
      match lookupMember key r with
      | Some w => Some w
      | None => if str_eqb k key then Some v else None
      end
  end.

Definition member (b : json) (key : jsstring) : option json :=
  match b with
  | JObject ms => lookupMember key ms
  | _ => None
  end.

(** [const { name, downloadLink } = body]: destructuring [null] throws. *)
Definition destructure (b : json) : M (option json * option json) :=
  match b with
  | JNull => throw TypeError
  | _ => ret (member b (js "name"), member b (js "downloadLink"))
  end.

(** [v?.trim()]: [undefined] when [v] is [undefined] or [null]; a value
    that is not a string has no [trim] method, and calling it throws. *)
Definition optionalTrim (v : option json) : M (option jsstring) :=
  match v with
  | None => ret None
  | Some JNull => ret None
  | Some (JString s) => ret (Some (trim s))
  | Some _ => throw TypeError
  end.

(** [v.trim()]. *)
Definition callTrim (v : option json) : M jsstring :=
  match v with
  | Some (JString s) => ret (trim s)
  | _ => throw TypeError
  end.

(** [!name?.trim() || !downloadLink?.trim()], the right operand evaluated
    only when the left one is false. *)
Definition fieldsMissing (nm dl : option json) : M bool :=
  n <- optionalTrim nm ;;
  if negb (truthy n) then ret true
  else l <- optionalTrim dl ;; ret (negb (truthy l)).

(** [segments[1]] where it is known to be a string. *)
Definition theString (v : option jsstring) : jsstring :=
  match v with
  | Some s => s
  | None => []
  end.

(** ** The handler *)

Section Handler.

(** [URL_parses s] is [true] when [new URL(s)] returns and [false] when
    it throws. *)
Variable URL_parses : jsstring -> bool.

(** GET /api/clients *)
Definition listClients : M Response.t :=
  all <- getAll ;;
  ret (respond 200 (JArray all)).

(** GET /api/clients/:clientId *)
Definition getClient (id : jsstring) : M Response.t :=
  client <- get id ;;
  match client with
  | None => ret (respond 404 (errorBody "Client not found"))
  | Some c => ret (respond 200 (clientBody (name c) (downloadLink c)))
  end.

(** POST /api/clients *)
Definition createClient (ev : Event.t) : M Response.t :=
  match JSON_parse (bodyText (Event.body ev)) with
  | None => ret (respond 400 (errorBody "Invalid request body"))
  | Some body =>
      fields <- destructure body ;;
      let (nm, dl) := fields in
      missing <- fieldsMissing nm dl ;;
      if missing then
        ret (respond 400 (errorBody "Name and download link are required"))
      else
        trimmedName <- callTrim nm ;;
        trimmedLink <- callTrim dl ;;
        exists_ <- has trimmedName ;;
        if exists_ then
          ret (respond 409 (errorBody "Client with this name already exists"))
        else if negb (URL_parses trimmedLink) then
          ret (respond 400 (errorBody "Invalid download link URL"))
        else
          set trimmedName
              {| name := trimmedName; downloadLink := trimmedLink |} ;;;
          ret (respond 201 (clientBody trimmedName trimmedLink))
  end.

(** PUT /api/clients/:clientId *)
Definition updateClient (id : jsstring) (ev : Event.t) : M Response.t :=
  match JSON_parse (bodyText (Event.body ev)) with
  | None => ret (respond 400 (errorBody "Invalid request body"))
  | Some body =>
      fields <- destructure body ;;
      let (nm, dl) := fields in
      missing <- fieldsMissing nm dl ;;
      if missing then
        ret (respond 400 (errorBody "Name and download link are required"))
      else
        exists_ <- has id ;;
        if negb exists_ then
          ret (respond 404 (errorBody "Client not found"))
        else
          trimmedName <- callTrim nm ;;
          trimmedLink <- callTrim dl ;;
          if negb (URL_parses trimmedLink) then
            ret (respond 400 (errorBody "Invalid download link URL"))
          else
            set id {| name := trimmedName; downloadLink := trimmedLink |} ;;;
            ret (respond 200 (clientBody trimmedName trimmedLink))
  end.

(** DELETE /api/clients/:clientId *)
Definition deleteClient (id : jsstring) : M Response.t :=
  exists_ <- has id ;;
  if negb exists_ then
    ret (respond 404 (errorBody "Client not found"))
  else
    delete id ;;;
    ret (respondEmpty 204).

(** The body of the handler's [try]. *)
Definition route (ev : Event.t) : M Response.t :=
  let segments := segmentsOf (Event.path ev) in
  let method := Event.httpMethod ev in
  if str_eqb method (js "GET")
     && segmentIs (segment segments 0) (js "clients")
     && negb (truthy (segment segments 1)) then
    listClients
  else if str_eqb method (js "GET")
          && segmentIs (segment segments 0) (js "clients")
          && truthy (segment segments 1) then
    getClient (theString (segment segments 1))
  else if str_eqb method (js "POST")
          && segmentIs (segment segments 0) (js "clients") then
    createClient ev
  else if str_eqb method (js "PUT")
          && segmentIs (segment segments 0) (js "clients")
          && truthy (segment segments 1) then
    updateClient (theString (segment segments 1)) ev
  else if str_eqb method (js "DELETE")
          && segmentIs (segment segments 0) (js "clients")
          && truthy (segment segments 1) then
    deleteClient (theString (segment segments 1))
  else
    ret (respond 404 (errorBody "Endpoint not found")).

(** The handler's outer [catch]: what is thrown in the [try] becomes a
    500 response. *)
Definition catchAll (o : completion Response.t * ClientStore.t)
  : Response.t * ClientStore.t :=
  match o with
  | (Normal r, st') => (r, st')
  | (Throw e, st') =>
      ({| Response.statusCode := 500;
          Response.headers := corsHeaders;
          Response.body := Some (InternalServerError e) |}, st')
  end.

(** [handler]: the response and the store after the request. *)
Definition handler (ev : Event.t) (st : ClientStore.t)
  : Response.t * ClientStore.t :=
  if str_eqb (Event.httpMethod ev) (js "OPTIONS") then
    (respondEmpty 204, st)
  else
    catchAll (route ev st).

(** The store after a sequence of requests. *)
Fixpoint run (evs : list Event.t) (st : ClientStore.t) : ClientStore.t :=
  match evs with
  | [] => st
  | ev :: rest => run rest (snd (handler ev st))
  end.

End Handler.

(** ** Requests of the examples *)

(** A stand-in for the [URL] constructor in closed examples: it accepts
    the strings that begin with a scheme (a letter, then letters, digits,
    [+], [-] or [.]) and a colon. *)
Definition isAlpha (c : N) : bool :=
  ((65 <=? c) && (c <=? 90)) || ((97 <=? c) && (c <=? 122)).

Fixpoint schemeRest (s : jsstring) : bool :=
  match s with
  | [] => false
  | c :: r =>
      if c =? 58 then true
      else if isAlpha c || isDigit c || (c =? 43) || (c =? 45) || (c =? 46)
           then schemeRest r
           else false
  end.

Definition hasScheme (s : jsstring) : bool :=
  match s with
  | c :: r => isAlpha c && schemeRest r
  | [] => false
  end.

Definition request (method : string) (rest : jsstring)
  (body : option jsstring) : Event.t :=
  {| Event.httpMethod := js method;
     Event.path := apiPrefix ++ rest;
     Event.body := body |}.

Arguments request method%_string rest body.

(** The path of [/clients/{id}] after the prefix. *)
Definition clientPath (id : jsstring) : jsstring := js "clients/" ++ id.

(** The requests of the example of the specification, with white space
    around the members of the first one. *)
Definition acmeLink : jsstring := js "https://x.test/a.zip".

Definition acme : ClientData :=
  {| name := js "Acme"; downloadLink := acmeLink |}.

Definition acmeStore : ClientStore.t := [(js "Acme", acme)].

Definition acmeBody : json :=
  JObject [(js "name", JString (js " Acme "));
           (js "downloadLink", JString (js " https://x.test/a.zip "))].

Definition postAcme : Event.t :=
  request "POST" (js "clients")
    (Some (jsq "{'name':' Acme ','downloadLink':' https://x.test/a.zip '}")).

Definition acmeCorp : ClientData :=
  {| name := js "Acme Corp"; downloadLink := js "https://x.test/b.zip" |}.

Definition acmeCorpBody : json :=
  JObject [(js "name", JString (js "Acme Corp"));
           (js "downloadLink", JString (js "https://x.test/b.zip"))].

Definition putAcme : Event.t :=
  request "PUT" (clientPath (js "Acme"))
    (Some (jsq "{'name':'Acme Corp','downloadLink':'https://x.test/b.zip'}")).

Definition getAcme : Event.t :=
  request "GET" (clientPath (js "Acme")) None.

Definition deleteAcme : Event.t :=
  request "DELETE" (clientPath (js "Acme")) None.

Definition getClients : Event.t :=
  request "GET" (js "clients") None.

(** A second client. *)
Definition bolt : ClientData :=
  {| name := js "Bolt"; downloadLink := js "https://x.test/bolt.zip" |}.

Definition postBolt : Event.t :=
  request "POST" (js "clients")
    (Some (jsq "{'name':'Bolt','downloadLink':'https://x.test/bolt.zip'}")).

(** A POST with a link that does not parse, for a new name and for the
    name of a client of the store. *)
Definition postBadLink (n : string) : Event.t :=
  request "POST" (js "clients")
    (Some (jsq "{'name':'" ++ js n ++ jsq "','downloadLink':'not-a-url'}")).

Arguments postBadLink n%_string.

(** The response of the outer [catch] to a [TypeError]. *)
Definition internalError : Response.t :=
  {| Response.statusCode := 500;
     Response.headers := corsHeaders;
     Response.body := Some (InternalServerError TypeError) |}.

(** [s.includes(c)] for a code unit [c]. *)
Definition includes (c : N) (s : jsstring) : bool := existsb (N.eqb c) s.

(** ** Notions of the specification *)

(** No white space at the start, at the end, at either end. *)
Definition noLeadingWhiteSpace (s : jsstring) : Prop :=
  match s with
  | c :: _ => isWhiteSpace c = false
  | [] => True
  end.

Definition noTrailingWhiteSpace (s : jsstring) : Prop :=
  noLeadingWhiteSpace (rev s).

Definition isTrimmed (s : jsstring) : Prop :=
  noLeadingWhiteSpace s /\ noTrailingWhiteSpace s.

(** A member as the declared type of the body has it,
    [{ name?: string; downloadLink?: string }]: a string, or absent
    ([undefined], or [null], which [?.] treats alike). *)
Definition stringOrAbsent (v : option json) : bool :=
  match v with
  | None => true
  | Some JNull => true
  | Some (JString _) => true
  | Some _ => false
  end.

(** A parsed body of the declared shape: not [null], and with [name] and
    [downloadLink] strings or absent. *)
Definition declaredShape (b : json) : bool :=
  match b with
  | JNull => false
  | _ => stringOrAbsent (member b (js "name"))
         && stringOrAbsent (member b (js "downloadLink"))
  end.

(** The trimmed value of a member; empty when the member is absent. *)
Definition trimmedField (v : option json) : jsstring :=
  match v with
  | Some (JString s) => trim s
  | _ => []
  end.

(** [s === ''] *)
Definition isEmpty (s : jsstring) : bool :=
  match s with
  | [] => true
  | _ :: _ => false
  end.

(** The request is for the method [m] and has [clients] as its first
    path segment. *)
Definition onClients (m : string) (ev : Event.t) : Prop :=
  Event.httpMethod ev = js m
  /\ segment (segmentsOf (Event.path ev)) 0 = Some (js "clients").

Arguments onClients m%_string ev.

(** The request is for the method [m] on [/clients/{id}]: [clients] is its
    first path segment, and [id], not empty, its second. *)
Definition onClient (m : string) (id : jsstring) (ev : Event.t) : Prop :=
  onClients m ev
  /\ segment (segmentsOf (Event.path ev)) 1 = Some id
  /\ id <> [].

Arguments onClient m%_string id ev.

(** What is required of a stored entry. *)
Definition entryValid (URL_parses : jsstring -> bool)
  (e : jsstring * ClientData) : Prop :=
  fst e <> []
  /\ isTrimmed (fst e)
  /\ isTrimmed (name (snd e))
  /\ isTrimmed (downloadLink (snd e))
  /\ URL_parses (downloadLink (snd e)) = true.

(** The element of the list of clients for the entry of [id]. *)
Definition listed (id : jsstring) (d : ClientData) : json :=
  JObject [(js "id", JString id);
           (js "name", JString (name d));
           (js "downloadLink", JString (downloadLink d))].

(** What a request does to the store, with the response it gives: it
    leaves the store as it is, or it is a creation (201), an update of a
    present key (200) or the deletion of a present key (204). *)
Inductive effect (URL_parses : jsstring -> bool) (st : ClientStore.t)
  : Response.t -> ClientStore.t -> Prop :=
| Unchanged (r : Response.t) :
    Response.statusCode r <> 200 ->
    Response.statusCode r <> 201 ->
    (Response.statusCode r = 204 -> Response.body r = None) ->
    effect URL_parses st r st
| Listed :
    effect URL_parses st (respond 200 (JArray (ClientStore.getAll st))) st
| Fetched (id : jsstring) (d : ClientData) :
    ClientStore.get id st = Some d ->
    effect URL_parses st (respond 200 (clientBody (name d) (downloadLink d))) st
| Created (n l : jsstring) :
    n <> [] -> isTrimmed n -> l <> [] -> isTrimmed l ->
    URL_parses l = true ->
    ClientStore.has n st = false ->
    effect URL_parses st (respond 201 (clientBody n l))
      (ClientStore.set n {| name := n; downloadLink := l |} st)
| Updated (id n l : jsstring) :
    ClientStore.has id st = true ->
    n <> [] -> isTrimmed n -> l <> [] -> isTrimmed l ->
    URL_parses l = true ->
    effect URL_parses st (respond 200 (clientBody n l))
      (ClientStore.set id {| name := n; downloadLink := l |} st)
| Deleted (id : jsstring) :
    ClientStore.has id st = true ->
    effect URL_parses st (respondEmpty 204) (ClientStore.delete id st).

(** ** Serialization *)

(** A string of white space only: what [trim] empties. *)
Definition allWhiteSpace (s : jsstring) : bool := forallb isWhiteSpace s.

(** The segments put together again, a slash between two of them. *)
Fixpoint joinSegments (segments : list jsstring) : jsstring :=
  match segments with
  | [] => []
  | seg :: rest =>
      match rest with
      | [] => seg
      | _ :: _ => seg ++ 47 :: joinSegments rest
      end
  end.

(** The surrogate code units. *)
Definition isHighSurrogate (c : N) : bool := (55296 <=? c) && (c <=? 56319).

Definition isLowSurrogate (c : N) : bool := (56320 <=? c) && (c <=? 57343).

(** The lower case hexadecimal digit of [d]. *)
Definition hexLower (d : N) : N := if d <? 10 then 48 + d else 87 + d.

(** ECMA-262 UnicodeEscape: a reverse solidus, [u] and the four lower
    case hexadecimal digits of the code unit. *)
Definition unicodeEscape (c : N) : jsstring :=
  [92; 117; hexLower (c / 4096); hexLower ((c / 256) mod 16);
   hexLower ((c / 16) mod 16); hexLower (c mod 16)].

(** ECMA-262 QuoteJSONString on one code unit that is no surrogate: the
    short escapes for backspace, tab, line feed, form feed, carriage
    return, quotation mark and reverse solidus; [UnicodeEscape] for the
    other control characters; the code unit itself otherwise. *)
Definition quoteCodeUnit (c : N) : jsstring :=
  if c =? 8 then [92; 98]
  else if c =? 9 then [92; 116]
  else if c =? 10 then [92; 110]
  else if c =? 12 then [92; 102]
  else if c =? 13 then [92; 114]
  else if c =? 34 then [92; 34]
  else if c =? 92 then [92; 92]
  else if c <? 32 then unicodeEscape c
  else [c].

(** The characters of a quoted string: a surrogate pair is kept, a
    surrogate without its pair is escaped. *)
Fixpoint quoteChars (s : jsstring) : jsstring :=
  match s with
  | [] => []
  | c :: r =>
      if isHighSurrogate c then
        match r with
        | d :: r' =>
            if isLowSurrogate d then c :: d :: quoteChars r'
            else unicodeEscape c ++ quoteChars r
        | [] => unicodeEscape c
        end
      else if isLowSurrogate c then unicodeEscape c ++ quoteChars r
      else quoteCodeUnit c ++ quoteChars r
  end.

Definition QuoteJSONString (s : jsstring) : jsstring :=
  34 :: quoteChars s ++ [34].

(** The texts [ts] with [sep] between two of them; [None] when one of
    them is. *)
Fixpoint joinTexts (sep : N) (ts : list (option jsstring))
  : option jsstring :=
  match ts with
  | [] => Some []
  | t :: rest =>
      match rest with
      | [] => t
      | _ :: _ =>
          match t, joinTexts sep rest with
          | Some a, Some b => Some (a ++ sep :: b)
          | _, _ => None
          end
      end
  end.

(** [JSON.stringify(j)], without indentation, for a value whose members
    are in the order of its properties.  The text of a number is that of
    a double, which is not modelled: [None] for a value that holds a
    number (the handler and the panel serialize strings, and objects and
    arrays of them). *)
Fixpoint JSON_stringify (j : json) : option jsstring :=
  match j with
  | JNull => Some (js "null")
  | JBool true => Some (js "true")
  | JBool false => Some (js "false")
  | JNumber _ => None
  | JString s => Some (QuoteJSONString s)
  | JArray vs =>
      match joinTexts 44 (map JSON_stringify vs) with
      | Some t => Some (91 :: t ++ [93])
      | None => None
      end
  | JObject ms =>
      match joinTexts 44
              (map (fun kv : jsstring * json =>
                      match JSON_stringify (snd kv) with
                      | Some t => Some (QuoteJSONString (fst kv) ++ 58 :: t)
                      | None => None
                      end) ms) with
      | Some t => Some (123 :: t ++ [125])
      | None => None
      end
  end.

(** The text of the [body] of a response, where it has one; [None] for
    the response of the outer [catch], whose message is the engine's. *)
Definition bodyOf (r : Response.t) : option jsstring :=
  match Response.body r with
  | Some (Stringify j) => JSON_stringify j
  | Some (InternalServerError _) => None
  | None => None
  end.

(** A value without a number. *)
Fixpoint numberFree (j : json) : bool :=
  match j with
  | JNumber _ => false
  | JArray vs => forallb numberFree vs
  | JObject ms => forallb (fun kv : jsstring * json => numberFree (snd kv)) ms
  | _ => true
  end.

(** *** Reading back *)

(** The characters after [c], once those of [c] are read. *)
Definition consChar (c : N) (o : option (jsstring * jsstring))
  : option (jsstring * jsstring) :=
  match o with
  | Some (cs, rest) => Some (c :: cs, rest)
  | None => None
  end.

(** A result that is not the lack of fuel. *)
Definition settled {A} (r : parsed A) : Prop :=
  match r with OutOfFuel => False | _ => True end.

(** The text of a value is read back as the value, whatever follows it;
    it starts with a character that is no white space and no closing
    bracket. *)
Definition readsBack (j : json) : Prop :=
  forall text, JSON_stringify j = Some text ->
    (exists c t, text = c :: t /\ isJSONWhiteSpace c = false /\ c <> 93)
    /\ forall rest, exists f0, forall f, (f0 <= f)%nat ->
         parse_value f (text ++ rest) = Parsed j rest.

(** The text of a member: its quoted name, a colon, the text of its
    value. *)
Definition memberText (kv : jsstring * json) : option jsstring :=
  match JSON_stringify (snd kv) with
  | Some t => Some (QuoteJSONString (fst kv) ++ 58 :: t)
  | None => None
  end.

(** ** The handler, case by case *)

(** The parsed body makes the handler throw: it is [null], or its [name]
    is neither a string nor absent, or its [name] is a string that is
    not blank and its [downloadLink] is neither a string nor absent. *)
Definition throwsOn (b : json) : bool :=
  match b with
  | JNull => true
  | _ =>
      negb (stringOrAbsent (member b (js "name")))
      || (negb (isEmpty (trimmedField (member b (js "name"))))
          && negb (stringOrAbsent (member b (js "downloadLink"))))
  end.

(** A member that is absent, [null], or a string of white space only. *)
Definition memberBlank (v : option json) : bool :=
  match v with
  | Some (JString s) => allWhiteSpace s
  | _ => true
  end.

(** The errors of the handler: status and message. *)
Definition errorTable : list (N * jsstring) :=
  [(400, js "Invalid request body");
   (400, js "Name and download link are required");
   (400, js "Invalid download link URL");
   (404, js "Client not found");
   (404, js "Endpoint not found");
   (409, js "Client with this name already exists")].

(** What the handler answers in the store [st]: nothing (204), the
    response of the outer [catch], an error of the table, the list of the
    clients, or one client (200 or 201). *)
Inductive answer (st : ClientStore.t) : Response.t -> Prop :=
| AnswerEmpty : answer st (respondEmpty 204)
| AnswerThrown : answer st internalError
| AnswerError (code : N) (message : jsstring) :
    In (code, message) errorTable ->
    answer st (respond code (JObject [(js "error", JString message)]))
| AnswerList : answer st (respond 200 (JArray (ClientStore.getAll st)))
| AnswerClient (code : N) (n l : jsstring) :
    code = 200 \/ code = 201 ->
    answer st (respond code (clientBody n l)).

(** ** The admin panel *)

(** The characters [encodeURIComponent] leaves as they are: letters,
    digits and [- _ . ! ~ * ' ( )]. *)
Definition isUnreserved (c : N) : bool :=
  isAlpha c || isDigit c
  || (c =? 45) || (c =? 95) || (c =? 46) || (c =? 33) || (c =? 126)
  || (c =? 42) || (c =? 39) || (c =? 40) || (c =? 41).

(** The upper case hexadecimal digit of [d]. *)
Definition hexUpper (d : N) : N := if d <? 10 then 48 + d else 55 + d.

(** A percent sign and the two hexadecimal digits of an octet. *)
Definition percent (octet : N) : jsstring :=
  [37; hexUpper (octet / 16); hexUpper (octet mod 16)].

(** The octets of the UTF-8 encoding of a code point. *)
Definition utf8 (cp : N) : list N :=
  if cp <? 128 then [cp]
  else if cp <? 2048 then [192 + cp / 64; 128 + cp mod 64]
  else if cp <? 65536 then
    [224 + cp / 4096; 128 + (cp / 64) mod 64; 128 + cp mod 64]
  else
    [240 + cp / 262144; 128 + (cp / 4096) mod 64;
     128 + (cp / 64) mod 64; 128 + cp mod 64].

(** The code point of a surrogate pair. *)
Definition codePoint (hi lo : N) : N :=
  (hi - 55296) * 1024 + (lo - 56320) + 65536.

Definition percentEncode (cp : N) : jsstring :=
  flat_map percent (utf8 cp).

(** [encodeURIComponent(s)] (ECMA-262 Encode with the unreserved set
    above); [None] when it throws a [URIError], on a surrogate without
    its pair. *)
Fixpoint encodeURIComponent (s : jsstring) : option jsstring :=
  match s with
  | [] => Some []
  | c :: r =>
      if isUnreserved c then
        match encodeURIComponent r with
        | Some e => Some (c :: e)
        | None => None
        end
      else if isHighSurrogate c then
        match r with
        | d :: r' =>
            if isLowSurrogate d then
              match encodeURIComponent r' with
              | Some e => Some (percentEncode (codePoint c d) ++ e)
              | None => None
              end
            else None
        | [] => None
        end
      else if isLowSurrogate c then None
      else
        match encodeURIComponent r with
        | Some e => Some (percentEncode c ++ e)
        | None => None
        end
  end.

(** [getClientLink(clientName)], for the [origin] of the window:
    [`${baseUrl}/?client=${encodeURIComponent(clientName)}`]. *)
Definition getClientLink (origin clientName : jsstring) : option jsstring :=
  match encodeURIComponent clientName with
  | Some e => Some (origin ++ js "/?client=" ++ e)
  | None => None
  end.

(** [s.isWellFormed()]: no surrogate without its pair. *)
Fixpoint isWellFormed (s : jsstring) : bool :=
  match s with
  | [] => true
  | c :: r =>
      if isHighSurrogate c then
        match r with
        | d :: r' => isLowSurrogate d && isWellFormed r'
        | [] => false
        end
      else if isLowSurrogate c then false
      else isWellFormed r
  end.

(** A character of an encoded component: unreserved, or a percent sign. *)
Definition isEncoded (c : N) : bool := isUnreserved c || (c =? 37).

(** [!s.trim()]. *)
Definition blank (s : jsstring) : bool := negb (truthy (Some (trim s))).

(** What a handler of the panel does before it waits for a response: it
    shows an error and stops, or it calls [fetch] with a method, a URL
    and a body. *)
Inductive submission : Type :=
| ShowError (message : jsstring)
| Fetch (method url : jsstring) (body : option jsstring).

(** [handleAdd], up to its [fetch]. *)
Definition handleAdd (newName newLink : jsstring) : submission :=
  if blank newName || blank newLink then
    ShowError (js "Both name and download link are required")
  else
    Fetch (js "POST") (js "/api/clients")
      (JSON_stringify (clientBody (trim newName) (trim newLink))).

(** [handleEdit(id)], up to its [fetch]. *)
Definition handleEdit (id editName editLink : jsstring) : submission :=
  if blank editName || blank editLink then
    ShowError (js "Both name and download link are required")
  else
    Fetch (js "PUT") (js "/api/clients/" ++ id)
      (JSON_stringify (clientBody (trim editName) (trim editLink))).

(** * Properties *)

(** ** Strings *)

Lemma str_eqb_eq (a b : jsstring) : str_eqb a b = true <-> a = b.
Proof.
  revert b; induction a as [|x a IH]; intros [|y b]; simpl;
    try (split; [discriminate | congruence]); [tauto|].
  rewrite andb_true_iff, N.eqb_eq, IH.
  split; [intros [-> ->]; reflexivity | intros H; inversion H; auto].
Qed.

Lemma str_eqb_refl (a : jsstring) : str_eqb a a = true.
Proof. apply str_eqb_eq; reflexivity. Qed.

Lemma str_eqb_neq (a b : jsstring) : str_eqb a b = false <-> a <> b.
Proof.
  rewrite <- str_eqb_eq. destruct (str_eqb a b); split; congruence.
Qed.

Lemma str_eqb_sym (a b : jsstring) : str_eqb a b = str_eqb b a.
Proof.
  destruct (str_eqb a b) eqn:E.
  - apply str_eqb_eq in E; subst; symmetry; apply str_eqb_refl.
  - symmetry; apply str_eqb_neq; apply str_eqb_neq in E; congruence.
Qed.

(** *** [trim] *)

Lemma trimStart_suffix (s : jsstring) :
  exists w, s = w ++ trimStart s.
Proof.
  induction s as [|c r [w IH]]; simpl.
  - exists []; reflexivity.
  - destruct (isWhiteSpace c).
    + exists (c :: w); simpl; congruence.
    + exists []; reflexivity.
Qed.

Lemma trimStart_noLeading (s : jsstring) :
  noLeadingWhiteSpace (trimStart s).
Proof.
  induction s as [|c r IH]; simpl; [exact I|].
  destruct (isWhiteSpace c) eqn:E; [exact IH | exact E].
Qed.

Lemma trimStart_id (s : jsstring) :
  noLeadingWhiteSpace s -> trimStart s = s.
Proof.
  destruct s as [|c r]; simpl; [reflexivity|].
  intros ->; reflexivity.
Qed.

Lemma noLeading_prefix (u v : jsstring) :
  u <> [] -> noLeadingWhiteSpace (u ++ v) -> noLeadingWhiteSpace u.
Proof.
  destruct u as [|c u]; simpl; [congruence | auto].
Qed.

Lemma trimEnd_noTrailing (s : jsstring) :
  noTrailingWhiteSpace (trimEnd s).
Proof.
  unfold noTrailingWhiteSpace, trimEnd.
  rewrite rev_involutive. apply trimStart_noLeading.
Qed.

Lemma trimEnd_noLeading (s : jsstring) :
  noLeadingWhiteSpace s -> noLeadingWhiteSpace (trimEnd s).
Proof.
  intros H. unfold trimEnd.
  destruct (trimStart_suffix (rev s)) as [w Hw].
  destruct (trimStart (rev s)) as [|c u] eqn:E; [exact I|].
  apply (noLeading_prefix _ (rev w)).
  - intros Hnil. apply (f_equal (@rev N)) in Hnil.
    rewrite rev_involutive in Hnil. discriminate.
  - rewrite <- rev_app_distr, <- Hw, rev_involutive. exact H.
Qed.

Lemma trimEnd_id (s : jsstring) :
  noTrailingWhiteSpace s -> trimEnd s = s.
Proof.
  intros H. unfold trimEnd.
  rewrite (trimStart_id _ H). apply rev_involutive.
Qed.

(** The result of [trim] has no white space at either end. *)
Lemma trim_isTrimmed (s : jsstring) : isTrimmed (trim s).
Proof.
  split.
  - apply trimEnd_noLeading, trimStart_noLeading.
  - apply trimEnd_noTrailing.
Qed.

(** [trim] leaves such a string as it is. *)
Lemma trim_id (s : jsstring) : isTrimmed s -> trim s = s.
Proof.
  intros [Hl Ht]. unfold trim.
  rewrite (trimStart_id _ Hl). apply trimEnd_id, Ht.
Qed.

Lemma trim_idempotent (s : jsstring) : trim (trim s) = trim s.
Proof. apply trim_id, trim_isTrimmed. Qed.

(** *** [replace] and [split] *)

Lemma replace_empty_eq (p s : jsstring) :
  replace_empty p s =
  if startsWith p s then skipn (List.length p) s
  else match s with
       | [] => []
       | c :: r => c :: replace_empty p r
       end.
Proof. destruct s; reflexivity. Qed.

Lemma startsWith_app (p s : jsstring) : startsWith p (p ++ s) = true.
Proof.
  induction p as [|x p IH]; simpl; [reflexivity|].
  rewrite N.eqb_refl; exact IH.
Qed.

Lemma skipn_length_app (p s : jsstring) : skipn (List.length p) (p ++ s) = s.
Proof. induction p; simpl; auto. Qed.

(** The prefix at the start of a path is the occurrence removed. *)
Lemma replace_empty_prefix (p s : jsstring) : replace_empty p (p ++ s) = s.
Proof.
  rewrite replace_empty_eq, startsWith_app. apply skipn_length_app.
Qed.

Lemma split_nonempty (sep : N) (s : jsstring) : split sep s <> [].
Proof.
  destruct s as [|c r]; simpl; [discriminate|].
  destruct (c =? sep); [discriminate|].
  destruct (split sep r); discriminate.
Qed.

Lemma split_none (sep : N) (s : jsstring) :
  includes sep s = false -> split sep s = [s].
Proof.
  induction s as [|c r IH]; simpl; [reflexivity|].
  rewrite orb_false_iff, N.eqb_sym. intros [-> Hr].
  rewrite (IH Hr); reflexivity.
Qed.

Lemma split_app (sep : N) (a b : jsstring) :
  includes sep a = false -> split sep (a ++ sep :: b) = a :: split sep b.
Proof.
  induction a as [|c r IH]; simpl.
  - rewrite N.eqb_refl; reflexivity.
  - rewrite orb_false_iff, N.eqb_sym. intros [-> Hr].
    rewrite (IH Hr); reflexivity.
Qed.

(** No segment of a path holds a slash, so a key that holds one is the
    second segment of no path. *)
Lemma split_segments (sep : N) (s seg : jsstring) :
  In seg (split sep s) -> includes sep seg = false.
Proof.
  revert seg; induction s as [|c r IH]; simpl; intros seg.
  - intros [<- | []]; reflexivity.
  - destruct (c =? sep) eqn:E.
    + intros [<- | H]; [reflexivity | apply IH, H].
    + destruct (split sep r) as [|s0 segs] eqn:Er.
      * exfalso; apply (split_nonempty sep r Er).
      * intros [<- | H].
        -- simpl. rewrite N.eqb_sym, E. apply IH; left; reflexivity.
        -- apply IH; right; exact H.
Qed.

(** The segments of [/clients/{id}] for an [id] without a slash. *)
Lemma segmentsOf_clientPath (id : jsstring) :
  includes 47 id = false ->
  segmentsOf (apiPrefix ++ clientPath id) = [js "clients"; id].
Proof.
  intros H. unfold segmentsOf. rewrite replace_empty_prefix.
  change (clientPath id) with (js "clients" ++ 47 :: id).
  rewrite split_app by reflexivity.
  rewrite (split_none _ _ H); reflexivity.
Qed.

(** ** [JSON.parse] *)

Lemma skip_ws_length (s : jsstring) :
  (List.length (skip_ws s) <= List.length s)%nat.
Proof.
  induction s as [|c r IH]; simpl; [lia|].
  destruct (isJSONWhiteSpace c); simpl; lia.
Qed.

Lemma eat_length (c : N) (s r : jsstring) :
  eat c s = Some r -> (List.length r < List.length s)%nat.
Proof.
  destruct s as [|x s]; simpl; [discriminate|].
  destruct (x =? c); [intros [= <-]; lia | discriminate].
Qed.

Lemma parse_chars_length (s cs rest : jsstring) :
  parse_chars s = Some (cs, rest) ->
  (List.length rest < List.length s)%nat.
Proof.
  remember (List.length s) as n eqn:Hn.
  assert (Hle : (List.length s <= n)%nat) by lia. clear Hn.
  revert s cs rest Hle. induction n as [|n IH]; intros s cs rest Hle.
  - destruct s; [discriminate | simpl in Hle; lia].
  - destruct s as [|c r]; simpl; [discriminate|]. simpl in Hle.
    destruct (c =? 34); [intros [= <- <-]; lia|].
    destruct (c =? 92).
    + destruct r as [|e r']; [discriminate|]. simpl in Hle.
      destruct (e =? 117).
      * destruct r' as [|h1 [|h2 [|h3 [|h4 r'']]]]; try discriminate.
        simpl in Hle.
        destruct (hexDigit h1), (hexDigit h2), (hexDigit h3), (hexDigit h4);
          try discriminate.
        destruct (parse_chars r'') as [[cs0 rest0]|] eqn:E; [|discriminate].
        intros [= <- <-]. apply IH in E; [|lia]. lia.
      * destruct (escapeChar e); [|discriminate].
        destruct (parse_chars r') as [[cs0 rest0]|] eqn:E; [|discriminate].
        intros [= <- <-]. apply IH in E; [|lia]. lia.
    + destruct (c <? 32); [discriminate|].
      destruct (parse_chars r) as [[cs0 rest0]|] eqn:E; [|discriminate].
      intros [= <- <-]. apply IH in E; [|lia]. lia.
Qed.

Lemma digits_length (s ds rest : jsstring) :
  digits s = (ds, rest) -> (List.length rest <= List.length s)%nat.
Proof.
  revert ds rest. induction s as [|c r IH]; simpl; intros ds rest.
  - intros [= <- <-]; simpl; lia.
  - destruct (isDigit c).
    + destruct (digits r) as [ds0 rest0]. intros [= <- <-].
      specialize (IH _ _ eq_refl). lia.
    + intros [= <- <-]. simpl; lia.
Qed.

Lemma digits1_length (s ds rest : jsstring) :
  digits1 s = Some (ds, rest) -> (List.length rest <= List.length s)%nat.
Proof.
  unfold digits1. destruct (digits s) as [[|d ds0] rest0] eqn:E;
    [discriminate|].
  intros [= <- <-]. apply (digits_length _ _ _ E).
Qed.

Lemma parse_number_length (s n rest : jsstring) :
  parse_number s = Some (n, rest) ->
  (List.length rest <= List.length s)%nat.
Proof.
  unfold parse_number.
  destruct (parse_sign s) as [sign s1] eqn:Es.
  assert (H1 : (List.length s1 <= List.length s)%nat).
  { unfold parse_sign in Es. destruct (eat 45 s) as [r|] eqn:E.
    - injection Es as <- <-. apply eat_length in E. lia.
    - injection Es as <- <-. lia. }
  destruct (parse_int s1) as [[i s2]|] eqn:Ei; [|discriminate].
  assert (H2 : (List.length s2 <= List.length s1)%nat).
  { unfold parse_int in Ei. destruct s1 as [|c r]; [discriminate|].
    destruct (c =? 48); [injection Ei as <- <-; simpl; lia|].
    destruct (isDigit c); [|discriminate].
    destruct (digits r) as [ds rest0] eqn:E. injection Ei as <- <-.
    apply digits_length in E. simpl; lia. }
  destruct (parse_frac s2) as [[f s3]|] eqn:Ef; [|discriminate].
  assert (H3 : (List.length s3 <= List.length s2)%nat).
  { unfold parse_frac in Ef. destruct (eat 46 s2) as [r|] eqn:E.
    - destruct (digits1 r) as [[ds rest0]|] eqn:D; [|discriminate].
      injection Ef as <- <-. apply eat_length in E.
      apply digits1_length in D. lia.
    - injection Ef as <- <-. lia. }
  destruct (parse_exp s3) as [[x s4]|] eqn:Ex; [|discriminate].
  assert (H4 : (List.length s4 <= List.length s3)%nat).
  { unfold parse_exp in Ex. destruct s3 as [|e r]; [injection Ex as <- <-; lia|].
    destruct ((e =? 101) || (e =? 69)); [|injection Ex as <- <-; lia].
    destruct (match r with
              | [] => ([], r)
              | g :: r' => if (g =? 43) || (g =? 45) then ([g], r') else ([], r)
              end) as [sg r1] eqn:G.
    assert (Hr : (List.length r1 <= List.length r)%nat).
    { destruct r as [|g r']; [injection G as <- <-; lia|].
      destruct ((g =? 43) || (g =? 45)); injection G as <- <-; simpl; lia. }
    destruct (digits1 r1) as [[ds rest0]|] eqn:D; [|discriminate].
    injection Ex as <- <-. apply digits1_length in D. simpl; lia. }
  intros [= <- <-]. lia.
Qed.

(** What a parsing function leaves is not longer than its text. *)
Lemma parse_length (f : nat) :
  (forall s v r, parse_value f s = Parsed v r ->
                 (List.length r <= List.length s)%nat)
  /\ (forall s vs r, parse_elements f s = Parsed vs r ->
                     (List.length r <= List.length s)%nat)
  /\ (forall s ms r, parse_members f s = Parsed ms r ->
                     (List.length r <= List.length s)%nat).
Proof.
  induction f as [|f (IHv & IHe & IHm)];
    [repeat split; intros; discriminate|].
  repeat split.
  - intros s v r. cbn [parse_value parse_elements parse_members].
    pose proof (skip_ws_length s) as Hs.
    destruct (skip_ws s) as [|c t]; [discriminate|]. simpl in Hs.
    destruct (c =? 123).
    { destruct (eat 125 (skip_ws t)) as [r'|] eqn:E.
      - intros [= <- <-]. apply eat_length in E.
        pose proof (skip_ws_length t). lia.
      - destruct (parse_members f t) as [ms r'| |] eqn:P; try discriminate.
        intros [= <- <-]. apply IHm in P. lia. }
    destruct (c =? 91).
    { destruct (eat 93 (skip_ws t)) as [r'|] eqn:E.
      - intros [= <- <-]. apply eat_length in E.
        pose proof (skip_ws_length t). lia.
      - destruct (parse_elements f t) as [vs r'| |] eqn:P; try discriminate.
        intros [= <- <-]. apply IHe in P. lia. }
    destruct (c =? 34).
    { destruct (parse_chars t) as [[str r']|] eqn:P; [|discriminate].
      intros [= <- <-]. apply parse_chars_length in P. lia. }
    destruct (startsWith (js "null") (c :: t)).
    { intros [= <- <-]. pose proof (length_skipn 4 (c :: t)) as L.
      simpl List.length in L. rewrite L. lia. }
    destruct (startsWith (js "true") (c :: t)).
    { intros [= <- <-]. pose proof (length_skipn 4 (c :: t)) as L.
      simpl List.length in L. rewrite L. lia. }
    destruct (startsWith (js "false") (c :: t)).
    { intros [= <- <-]. pose proof (length_skipn 5 (c :: t)) as L.
      simpl List.length in L. rewrite L. lia. }
    destruct (parse_number (c :: t)) as [[n r']|] eqn:P; [|discriminate].
    intros [= <- <-]. apply parse_number_length in P. simpl in P. lia.
  - intros s vs r. cbn [parse_value parse_elements parse_members].
    destruct (parse_value f s) as [v t| |] eqn:P; try discriminate.
    apply IHv in P. pose proof (skip_ws_length t) as Ht.
    destruct (skip_ws t) as [|c t']; [discriminate|]. simpl in Ht.
    destruct (c =? 44).
    { destruct (parse_elements f t') as [vs' r'| |] eqn:Q; try discriminate.
      intros [= <- <-]. apply IHe in Q. lia. }
    destruct (c =? 93); [|discriminate].
    intros [= <- <-]. lia.
  - intros s ms r. cbn [parse_value parse_elements parse_members].
    pose proof (skip_ws_length s) as Hs.
    destruct (eat 34 (skip_ws s)) as [t|] eqn:E; [|discriminate].
    apply eat_length in E.
    destruct (parse_chars t) as [[k t1]|] eqn:C; [|discriminate].
    apply parse_chars_length in C.
    pose proof (skip_ws_length t1) as Ht1.
    destruct (eat 58 (skip_ws t1)) as [t2|] eqn:E2; [|discriminate].
    apply eat_length in E2.
    destruct (parse_value f t2) as [v t3| |] eqn:P; try discriminate.
    apply IHv in P. pose proof (skip_ws_length t3) as Ht3.
    destruct (skip_ws t3) as [|c t4]; [discriminate|]. simpl in Ht3.
    destruct (c =? 44).
    { destruct (parse_members f t4) as [ms' r'| |] eqn:Q; try discriminate.
      intros [= <- <-]. apply IHm in Q. lia. }
    destruct (c =? 125); [|discriminate].
    intros [= <- <-]. lia.
Qed.

(** The recursion budget a text needs. *)
Lemma parse_fuel (f : nat) :
  (forall s, (2 * List.length s + 1 <= f)%nat ->
             parse_value f s <> OutOfFuel)
  /\ (forall s, (2 * List.length s + 2 <= f)%nat ->
                parse_elements f s <> OutOfFuel)
  /\ (forall s, (2 * List.length s + 2 <= f)%nat ->
                parse_members f s <> OutOfFuel).
Proof.
  induction f as [|f (IHv & IHe & IHm)];
    [repeat split; intros; lia|].
  repeat split.
  - intros s Hf. cbn [parse_value parse_elements parse_members].
    pose proof (skip_ws_length s) as Hs.
    destruct (skip_ws s) as [|c t]; [discriminate|]. simpl in Hs.
    destruct (c =? 123).
    { destruct (eat 125 (skip_ws t)); [discriminate|].
      pose proof (IHm t ltac:(lia)).
      destruct (parse_members f t); congruence. }
    destruct (c =? 91).
    { destruct (eat 93 (skip_ws t)); [discriminate|].
      pose proof (IHe t ltac:(lia)).
      destruct (parse_elements f t); congruence. }
    destruct (c =? 34).
    { destruct (parse_chars t) as [[str r']|]; discriminate. }
    destruct (startsWith (js "null") (c :: t)); [discriminate|].
    destruct (startsWith (js "true") (c :: t)); [discriminate|].
    destruct (startsWith (js "false") (c :: t)); [discriminate|].
    destruct (parse_number (c :: t)) as [[n r']|]; discriminate.
  - intros s Hf. cbn [parse_value parse_elements parse_members].
    pose proof (IHv s ltac:(lia)) as Hv.
    destruct (parse_value f s) as [v t| |] eqn:P; try congruence.
    apply (proj1 (parse_length f)) in P.
    pose proof (skip_ws_length t) as Ht.
    destruct (skip_ws t) as [|c t']; [discriminate|]. simpl in Ht.
    destruct (c =? 44).
    { pose proof (IHe t' ltac:(lia)).
      destruct (parse_elements f t'); congruence. }
    destruct (c =? 93); discriminate.
  - intros s Hf. cbn [parse_value parse_elements parse_members].
    pose proof (skip_ws_length s) as Hs.
    destruct (eat 34 (skip_ws s)) as [t|] eqn:E; [|discriminate].
    apply eat_length in E.
    destruct (parse_chars t) as [[k t1]|] eqn:C; [|discriminate].
    apply parse_chars_length in C.
    pose proof (skip_ws_length t1) as Ht1.
    destruct (eat 58 (skip_ws t1)) as [t2|] eqn:E2; [|discriminate].
    apply eat_length in E2.
    pose proof (IHv t2 ltac:(lia)) as Hv.
    destruct (parse_value f t2) as [v t3| |] eqn:P; try congruence.
    apply (proj1 (parse_length f)) in P.
    pose proof (skip_ws_length t3) as Ht3.
    destruct (skip_ws t3) as [|c t4]; [discriminate|]. simpl in Ht3.
    destruct (c =? 44).
    { pose proof (IHm t4 ltac:(lia)).
      destruct (parse_members f t4); congruence. }
    destruct (c =? 125); discriminate.
Qed.

(** [JSON_parse] never runs out of its recursion budget: it returns
    [None] for a [SyntaxError] only. *)
Lemma parse_value_fuel (text : jsstring) :
  parse_value (2 * List.length text + 2) text <> OutOfFuel.
Proof. apply (proj1 (parse_fuel _)). lia. Qed.

Lemma JSON_parse_None (text : jsstring) :
  JSON_parse text = None ->
  parse_value (2 * List.length text + 2) text = SyntaxError
  \/ exists v r,
      parse_value (2 * List.length text + 2) text = Parsed v r
      /\ skip_ws r <> [].
Proof.
  unfold JSON_parse. pose proof (parse_value_fuel text) as Hf.
  destruct (parse_value _ text) as [v r| |] eqn:P; [|auto|congruence].
  destruct (skip_ws r) as [|c0 r0] eqn:E; [discriminate|].
  intros _. right. exists v, r. split; [reflexivity|].
  rewrite E; discriminate.
Qed.

(** ** The store *)

Module StoreFacts.
Import ClientStore.

Lemma has_get (id : jsstring) (st : t) :
  has id st = match get id st with Some _ => true | None => false end.
Proof.
  induction st as [|[k d] r IH]; simpl; [reflexivity|].
  destruct (str_eqb k id); simpl; auto.
Qed.

Lemma has_keys (id : jsstring) (st : t) :
  has id st = true <-> In id (keys st).
Proof.
  induction st as [|[k d] r IH]; simpl; [split; [discriminate | tauto]|].
  rewrite orb_true_iff, str_eqb_eq, IH; tauto.
Qed.

Lemma get_in (id : jsstring) (d : ClientData) (st : t) :
  get id st = Some d -> In (id, d) st.
Proof.
  induction st as [|[k e] r IH]; simpl; [discriminate|].
  destruct (str_eqb k id) eqn:E.
  - apply str_eqb_eq in E; subst. intros [= ->]; left; reflexivity.
  - intros H; right; apply IH, H.
Qed.

Lemma in_get (id : jsstring) (d : ClientData) (st : t) :
  NoDup (keys st) -> In (id, d) st -> get id st = Some d.
Proof.
  induction st as [|[k e] r IH]; simpl; [tauto|].
  intros Hnd [[= -> ->] | Hin].
  - rewrite str_eqb_refl; reflexivity.
  - inversion Hnd as [|? ? Hk Hr]; subst.
    destruct (str_eqb k id) eqn:E.
    + apply str_eqb_eq in E; subst.
      exfalso; apply Hk. apply (in_map fst) in Hin; exact Hin.
    + apply IH; assumption.
Qed.

Lemma get_set_same (id : jsstring) (d : ClientData) (st : t) :
  get id (set id d st) = Some d.
Proof.
  induction st as [|[k e] r IH]; simpl.
  - rewrite str_eqb_refl; reflexivity.
  - destruct (str_eqb k id) eqn:E; simpl; rewrite E; auto.
Qed.

Lemma get_set_other (id k : jsstring) (d : ClientData) (st : t) :
  k <> id -> get k (set id d st) = get k st.
Proof.
  intros Hk. induction st as [|[k' e] r IH]; simpl.
  - assert (str_eqb id k = false) as -> by (apply str_eqb_neq; congruence).
    reflexivity.
  - destruct (str_eqb k' id) eqn:E; simpl.
    + apply str_eqb_eq in E; subst.
      assert (str_eqb id k = false) as -> by (apply str_eqb_neq; congruence).
      reflexivity.
    + destruct (str_eqb k' k); auto.
Qed.

Lemma has_set (id k : jsstring) (d : ClientData) (st : t) :
  has k (set id d st) = str_eqb id k || has k st.
Proof.
  induction st as [|[k' e] r IH]; simpl.
  - reflexivity.
  - destruct (str_eqb k' id) eqn:E; simpl.
    + apply str_eqb_eq in E; subst.
      destruct (str_eqb id k); reflexivity.
    + rewrite IH. destruct (str_eqb k' k), (str_eqb id k); reflexivity.
Qed.

(** Writing to a key of the store leaves every key where it is. *)
Lemma keys_set_present (id : jsstring) (d : ClientData) (st : t) :
  has id st = true -> keys (set id d st) = keys st.
Proof.
  induction st as [|[k e] r IH]; simpl; [discriminate|].
  destruct (str_eqb k id) eqn:E; simpl; [reflexivity|].
  intros H; unfold keys in *; rewrite (IH H); reflexivity.
Qed.

(** Writing to a new key adds the entry at the end. *)
Lemma set_fresh (id : jsstring) (d : ClientData) (st : t) :
  has id st = false -> set id d st = st ++ [(id, d)].
Proof.
  induction st as [|[k e] r IH]; simpl; [reflexivity|].
  rewrite orb_false_iff. intros [-> H]. rewrite (IH H); reflexivity.
Qed.

Lemma has_delete_same (id : jsstring) (st : t) :
  has id (delete id st) = false.
Proof.
  induction st as [|[k e] r IH]; simpl; [reflexivity|].
  destruct (str_eqb k id) eqn:E; simpl; [exact IH|].
  rewrite E; exact IH.
Qed.

Lemma get_delete_other (id k : jsstring) (st : t) :
  k <> id -> get k (delete id st) = get k st.
Proof.
  intros Hk. induction st as [|[k' e] r IH]; simpl; [reflexivity|].
  destruct (str_eqb k' id) eqn:E; simpl.
  - apply str_eqb_eq in E; subst.
    assert (str_eqb id k = false) as -> by (apply str_eqb_neq; congruence).
    exact IH.
  - destruct (str_eqb k' k); auto.
Qed.

Lemma delete_absent (id : jsstring) (st : t) :
  has id st = false -> delete id st = st.
Proof.
  induction st as [|[k e] r IH]; simpl; [reflexivity|].
  rewrite orb_false_iff. intros [-> H]. rewrite (IH H); reflexivity.
Qed.

Lemma in_set (id : jsstring) (d : ClientData) (st : t)
  (e : jsstring * ClientData) :
  In e (set id d st) -> e = (id, d) \/ In e st.
Proof.
  induction st as [|[k c] r IH]; simpl.
  - intros [<- | []]; auto.
  - destruct (str_eqb k id) eqn:E; simpl.
    + apply str_eqb_eq in E; subst. intros [<- | H]; auto.
    + intros [<- | H]; auto. destruct (IH H); auto.
Qed.

Lemma in_delete (id : jsstring) (st : t) (e : jsstring * ClientData) :
  In e (delete id st) -> In e st.
Proof.
  induction st as [|[k c] r IH]; simpl; [tauto|].
  destruct (str_eqb k id); simpl; intuition.
Qed.

(** A [Map] holds one entry for a key: the operations keep it so. *)
Lemma NoDup_set (id : jsstring) (d : ClientData) (st : t) :
  NoDup (keys st) -> NoDup (keys (set id d st)).
Proof.
  intros H. destruct (has id st) eqn:E.
  - rewrite keys_set_present; assumption.
  - rewrite set_fresh by assumption. unfold keys in *.
    rewrite map_app; simpl.
    apply NoDup_rev in H. rewrite <- (rev_involutive (map fst st ++ [id])).
    apply NoDup_rev. rewrite rev_app_distr; simpl.
    constructor; [|exact H].
    rewrite <- in_rev. intros Hin. apply has_keys in Hin. congruence.
Qed.

Lemma NoDup_delete (id : jsstring) (st : t) :
  NoDup (keys st) -> NoDup (keys (delete id st)).
Proof.
  induction st as [|[k c] r IH]; simpl; [auto|].
  intros H; inversion H as [|? ? Hk Hr]; subst.
  destruct (str_eqb k id); simpl; [auto|].
  constructor; [|auto].
  intros Hin. apply Hk.
  apply in_map_iff in Hin as [e [<- He]].
  apply in_map, (in_delete _ _ _ He).
Qed.

End StoreFacts.

(** ** The handler *)

Section HandlerFacts.

Variable URL_parses : jsstring -> bool.

(** *** Routing *)

Lemma truthy_nonempty (id : jsstring) : id <> [] -> truthy (Some id) = true.
Proof. destruct id; [congruence | reflexivity]. Qed.

Lemma truthy_theString (v : option jsstring) :
  truthy v = true -> v = Some (theString v) /\ theString v <> [].
Proof.
  destruct v as [[|c r]|]; simpl; try discriminate. split; congruence.
Qed.

Lemma route_list (ev : Event.t) :
  onClients "GET" ev ->
  truthy (segment (segmentsOf (Event.path ev)) 1) = false ->
  route URL_parses ev = listClients.
Proof.
  intros [Hm Hs] Ht. unfold route; cbv zeta.
  rewrite Hm, Hs, Ht; reflexivity.
Qed.

Lemma route_get (ev : Event.t) (id : jsstring) :
  onClient "GET" id ev -> route URL_parses ev = getClient id.
Proof.
  intros [[Hm Hs] [Hi Hne]]. unfold route; cbv zeta.
  rewrite Hm, Hs, Hi, (truthy_nonempty _ Hne); reflexivity.
Qed.

Lemma route_create (ev : Event.t) :
  onClients "POST" ev -> route URL_parses ev = createClient URL_parses ev.
Proof.
  intros [Hm Hs]. unfold route; cbv zeta.
  rewrite Hm, Hs; reflexivity.
Qed.

Lemma route_update (ev : Event.t) (id : jsstring) :
  onClient "PUT" id ev ->
  route URL_parses ev = updateClient URL_parses id ev.
Proof.
  intros [[Hm Hs] [Hi Hne]]. unfold route; cbv zeta.
  rewrite Hm, Hs, Hi, (truthy_nonempty _ Hne); reflexivity.
Qed.

Lemma route_delete (ev : Event.t) (id : jsstring) :
  onClient "DELETE" id ev -> route URL_parses ev = deleteClient id.
Proof.
  intros [[Hm Hs] [Hi Hne]]. unfold route; cbv zeta.
  rewrite Hm, Hs, Hi, (truthy_nonempty _ Hne); reflexivity.
Qed.

Lemma handler_route (m : string) (ev : Event.t) (st : ClientStore.t) :
  Event.httpMethod ev = js m ->
  str_eqb (js m) (js "OPTIONS") = false ->
  handler URL_parses ev st = catchAll (route URL_parses ev st).
Proof.
  intros Hm H. unfold handler. rewrite Hm, H. reflexivity.
Qed.

(** *** What a request does to the store *)

Lemma fieldsMissing_declared (nm dl : option json) (st : ClientStore.t) :
  stringOrAbsent nm = true -> stringOrAbsent dl = true ->
  fieldsMissing nm dl st =
  (Normal (isEmpty (trimmedField nm) || isEmpty (trimmedField dl)), st).
Proof.
  unfold fieldsMissing, bind.
  destruct nm as [[| | |s| |]|]; try discriminate; simpl; intros _; try reflexivity.
  destruct (trim s) eqn:E; simpl; [reflexivity|].
  destruct dl as [[| | |t| |]|]; try discriminate; simpl; intros _; try reflexivity.
  destruct (trim t); reflexivity.
Qed.

Lemma fieldsMissing_cases (nm dl : option json) (st : ClientStore.t) :
  fieldsMissing nm dl st = (Throw TypeError, st)
  \/ fieldsMissing nm dl st = (Normal true, st)
  \/ (exists s t, nm = Some (JString s) /\ dl = Some (JString t)
       /\ trim s <> [] /\ trim t <> []
       /\ fieldsMissing nm dl st = (Normal false, st)).
Proof.
  unfold fieldsMissing, bind.
  destruct nm as [[| | |s| |]|]; simpl; auto.
  destruct (trim s) eqn:E; simpl; auto.
  destruct dl as [[| | |t| |]|]; simpl; auto.
  destruct (trim t) eqn:F; simpl; auto.
  right; right. exists s, t. rewrite E, F. repeat split; congruence.
Qed.

Lemma destructure_cases (b : json) (st : ClientStore.t) :
  destructure b st = (Throw TypeError, st)
  \/ destructure b st
     = (Normal (member b (js "name"), member b (js "downloadLink")), st).
Proof. destruct b; auto. Qed.

(** The steps that creation and update share, from the parsed body [b] to
    the trimmed members: what is left is the case of two strings [s] and
    [t] whose trimmed forms are not empty. *)
Ltac validated b st Hu Ht Hc :=
  unfold bind at 1;
  destruct (destructure_cases b st) as [-> | ->]; [exact Ht|];
  specialize (Hc b); revert Hc;
  generalize (member b (js "name")) (member b (js "downloadLink"));
  intros nm dl Hc;
  unfold bind at 1;
  destruct (fieldsMissing_cases nm dl st)
    as [-> | [-> | (s & t & -> & -> & Hs & Ht' & ->)]];
    [exact Ht | apply Hu; discriminate |].

(** The outcomes of [createClient]: to prove [P] of its outcome, prove
    it of a response other than 200, 201 and 204 with the store as it
    was, of a [TypeError] thrown with the store as it was, and of the
    creation. *)
Lemma createClient_cases (P : completion Response.t * ClientStore.t -> Prop)
  (ev : Event.t) (st : ClientStore.t) :
  (forall r, Response.statusCode r <> 200 -> Response.statusCode r <> 201 ->
             Response.statusCode r <> 204 -> P (Normal r, st)) ->
  P (Throw TypeError, st) ->
  (forall b s t,
      JSON_parse (bodyText (Event.body ev)) = Some b ->
      member b (js "name") = Some (JString s) ->
      member b (js "downloadLink") = Some (JString t) ->
      trim s <> [] -> trim t <> [] ->
      ClientStore.has (trim s) st = false ->
      URL_parses (trim t) = true ->
      P (Normal (respond 201 (clientBody (trim s) (trim t))),
         ClientStore.set (trim s)
           {| name := trim s; downloadLink := trim t |} st)) ->
  P (createClient URL_parses ev st).
Proof.
  intros Hu Ht Hc. unfold createClient.
  destruct (JSON_parse _) as [b|] eqn:Hp; [|apply Hu; discriminate].
  validated b st Hu Ht Hc.
  unfold bind, callTrim, has, set, ret.
  destruct (ClientStore.has (trim s) st) eqn:Hh; [apply Hu; discriminate|].
  destruct (URL_parses (trim t)) eqn:Hv; simpl; [|apply Hu; discriminate].
  apply Hc; auto.
Qed.

Lemma updateClient_cases (P : completion Response.t * ClientStore.t -> Prop)
  (id : jsstring) (ev : Event.t) (st : ClientStore.t) :
  (forall r, Response.statusCode r <> 200 -> Response.statusCode r <> 201 ->
             Response.statusCode r <> 204 -> P (Normal r, st)) ->
  P (Throw TypeError, st) ->
  (forall b s t,
      JSON_parse (bodyText (Event.body ev)) = Some b ->
      member b (js "name") = Some (JString s) ->
      member b (js "downloadLink") = Some (JString t) ->
      trim s <> [] -> trim t <> [] ->
      ClientStore.has id st = true ->
      URL_parses (trim t) = true ->
      P (Normal (respond 200 (clientBody (trim s) (trim t))),
         ClientStore.set id
           {| name := trim s; downloadLink := trim t |} st)) ->
  P (updateClient URL_parses id ev st).
Proof.
  intros Hu Ht Hc. unfold updateClient.
  destruct (JSON_parse _) as [b|] eqn:Hp; [|apply Hu; discriminate].
  validated b st Hu Ht Hc.
  unfold bind, callTrim, has, set, ret.
  destruct (ClientStore.has id st) eqn:Hh; simpl; [|apply Hu; discriminate].
  destruct (URL_parses (trim t)) eqn:Hv; simpl; [|apply Hu; discriminate].
  apply Hc; auto.
Qed.

Lemma createClient_effect (ev : Event.t) (st : ClientStore.t) :
  effect URL_parses st (fst (catchAll (createClient URL_parses ev st)))
    (snd (catchAll (createClient URL_parses ev st))).
Proof.
  apply createClient_cases; simpl.
  - intros r H1 H2 H3. apply Unchanged; congruence.
  - apply Unchanged; simpl; discriminate.
  - intros b s t _ _ _ Hs Ht Hh Hv.
    apply Created; auto using trim_isTrimmed.
Qed.

Lemma updateClient_effect (id : jsstring) (ev : Event.t)
  (st : ClientStore.t) :
  effect URL_parses st (fst (catchAll (updateClient URL_parses id ev st)))
    (snd (catchAll (updateClient URL_parses id ev st))).
Proof.
  apply updateClient_cases; simpl.
  - intros r H1 H2 H3. apply Unchanged; congruence.
  - apply Unchanged; simpl; discriminate.
  - intros b s t _ _ _ Hs Ht Hh Hv.
    apply Updated; auto using trim_isTrimmed.
Qed.

Lemma handler_effect (ev : Event.t) (st : ClientStore.t) :
  effect URL_parses st (fst (handler URL_parses ev st))
    (snd (handler URL_parses ev st)).
Proof.
  unfold handler.
  destruct (str_eqb (Event.httpMethod ev) (js "OPTIONS")).
  { apply Unchanged; simpl; try discriminate; reflexivity. }
  unfold route; cbv zeta.
  repeat match goal with
  | |- context [if ?c then _ else _] => destruct c eqn:?
  end.
  - apply Listed.
  - unfold getClient, bind, get.
    destruct (ClientStore.get _ st) as [d|] eqn:E; simpl.
    + eapply Fetched; eauto.
    + apply Unchanged; simpl; discriminate.
  - apply createClient_effect.
  - apply updateClient_effect.
  - unfold deleteClient, bind, has, delete, ret.
    destruct (ClientStore.has _ st) eqn:E; simpl.
    + apply Deleted; assumption.
    + apply Unchanged; simpl; discriminate.
  - apply Unchanged; simpl; discriminate.
Qed.

End HandlerFacts.

Arguments handler_route URL_parses m%_string ev st _ _.

Section Create.

Variable URL_parses : jsstring -> bool.

(** *** Bodies of the declared shape *)

Lemma declaredShape_inv (b : json) :
  declaredShape b = true ->
  destructure b = ret (member b (js "name"), member b (js "downloadLink"))
  /\ stringOrAbsent (member b (js "name")) = true
  /\ stringOrAbsent (member b (js "downloadLink")) = true.
Proof.
  destruct b; simpl; try discriminate;
    rewrite ?andb_true_iff; intros H; repeat split; tauto.
Qed.

Lemma callTrim_trimmedField (v : option json) (st : ClientStore.t) :
  isEmpty (trimmedField v) = false ->
  callTrim v st = (Normal (trimmedField v), st).
Proof.
  destruct v as [[| | |s| |]|]; simpl; try discriminate; reflexivity.
Qed.

Lemma bind_normal {A B} (m : M A) (k : A -> M B) (st st' : ClientStore.t)
  (a : A) :
  m st = (Normal a, st') -> bind m k st = k a st'.
Proof. unfold bind; intros ->; reflexivity. Qed.

Lemma isEmpty_true (s : jsstring) : isEmpty s = true <-> s = [].
Proof. destruct s; simpl; split; congruence. Qed.

Lemma isEmpty_false (s : jsstring) : isEmpty s = false <-> s <> [].
Proof. destruct s; simpl; split; congruence. Qed.

Lemma createClient_declared (ev : Event.t) (st : ClientStore.t) (b : json) :
  JSON_parse (bodyText (Event.body ev)) = Some b ->
  declaredShape b = true ->
  createClient URL_parses ev st =
  let n := trimmedField (member b (js "name")) in
  let l := trimmedField (member b (js "downloadLink")) in
  if isEmpty n || isEmpty l then
    (Normal (respond 400 (errorBody "Name and download link are required")), st)
  else if ClientStore.has n st then
    (Normal (respond 409 (errorBody "Client with this name already exists")), st)
  else if negb (URL_parses l) then
    (Normal (respond 400 (errorBody "Invalid download link URL")), st)
  else
    (Normal (respond 201 (clientBody n l)),
     ClientStore.set n {| name := n; downloadLink := l |} st).
Proof.
  intros Hp Hs. unfold createClient. rewrite Hp.
  destruct (declaredShape_inv b Hs) as (-> & Hn & Hl).
  unfold bind at 1, ret at 1. unfold bind at 1.
  rewrite (fieldsMissing_declared _ _ st Hn Hl). cbv zeta.
  destruct (isEmpty (trimmedField (member b (js "name")))) eqn:En;
    [reflexivity|].
  destruct (isEmpty (trimmedField (member b (js "downloadLink")))) eqn:El;
    [reflexivity|].
  cbn [orb].
  rewrite (bind_normal _ _ _ _ _ (callTrim_trimmedField _ st En)).
  rewrite (bind_normal _ _ _ _ _ (callTrim_trimmedField _ st El)).
  unfold bind, has, set, ret.
  destruct (ClientStore.has _ st); [reflexivity|].
  destruct (URL_parses _); reflexivity.
Qed.

Lemma updateClient_declared (id : jsstring) (ev : Event.t)
  (st : ClientStore.t) (b : json) :
  JSON_parse (bodyText (Event.body ev)) = Some b ->
  declaredShape b = true ->
  updateClient URL_parses id ev st =
  let n := trimmedField (member b (js "name")) in
  let l := trimmedField (member b (js "downloadLink")) in
  if isEmpty n || isEmpty l then
    (Normal (respond 400 (errorBody "Name and download link are required")), st)
  else if negb (ClientStore.has id st) then
    (Normal (respond 404 (errorBody "Client not found")), st)
  else if negb (URL_parses l) then
    (Normal (respond 400 (errorBody "Invalid download link URL")), st)
  else
    (Normal (respond 200 (clientBody n l)),
     ClientStore.set id {| name := n; downloadLink := l |} st).
Proof.
  intros Hp Hs. unfold updateClient. rewrite Hp.
  destruct (declaredShape_inv b Hs) as (-> & Hn & Hl).
  unfold bind at 1, ret at 1. unfold bind at 1.
  rewrite (fieldsMissing_declared _ _ st Hn Hl). cbv zeta.
  destruct (isEmpty (trimmedField (member b (js "name")))) eqn:En;
    [reflexivity|].
  destruct (isEmpty (trimmedField (member b (js "downloadLink")))) eqn:El;
    [reflexivity|].
  cbn [orb].
  unfold bind at 1, has at 1.
  destruct (ClientStore.has id st); [|reflexivity]. cbn [negb].
  rewrite (bind_normal _ _ _ _ _ (callTrim_trimmedField _ st En)).
  rewrite (bind_normal _ _ _ _ _ (callTrim_trimmedField _ st El)).
  unfold bind, set, ret.
  destruct (URL_parses _); reflexivity.
Qed.

(** *** Creation *)

(** C1, amended.  For every POST request whose first path segment is
    [clients], the handler applies its checks in this order and returns
    the first failing one: the body fails to parse as JSON, 400; for a
    body that parses to a value of the declared shape (not [null],
    [name] and [downloadLink] strings or absent), the trimmed name or
    the trimmed link is empty or absent, 400; the trimmed name is a key
    of the registry, 409; the trimmed link does not parse as a URL, 400;
    otherwise it stores the trimmed name and link under the trimmed name
    and returns 201 with them. *)
Theorem create_checks_in_order (ev : Event.t) (st : ClientStore.t) :
  onClients "POST" ev ->
  (JSON_parse (bodyText (Event.body ev)) = None ->
   handler URL_parses ev st
   = (respond 400 (errorBody "Invalid request body"), st))
  /\ (forall b : json,
      JSON_parse (bodyText (Event.body ev)) = Some b ->
      declaredShape b = true ->
      let n := trimmedField (member b (js "name")) in
      let l := trimmedField (member b (js "downloadLink")) in
      (n = [] \/ l = [] ->
       handler URL_parses ev st
       = (respond 400 (errorBody "Name and download link are required"), st))
      /\ (n <> [] -> l <> [] -> ClientStore.has n st = true ->
          handler URL_parses ev st
          = (respond 409 (errorBody "Client with this name already exists"),
             st))
      /\ (n <> [] -> l <> [] -> ClientStore.has n st = false ->
          URL_parses l = false ->
          handler URL_parses ev st
          = (respond 400 (errorBody "Invalid download link URL"), st))
      /\ (n <> [] -> l <> [] -> ClientStore.has n st = false ->
          URL_parses l = true ->
          handler URL_parses ev st
          = (respond 201 (clientBody n l),
             ClientStore.set n {| name := n; downloadLink := l |} st))).
Proof.
  intros Hr.
  rewrite (handler_route URL_parses "POST" ev st (proj1 Hr) eq_refl).
  rewrite (route_create URL_parses ev Hr).
  split.
  - intros Hp. unfold createClient. rewrite Hp. reflexivity.
  - intros b Hp Hs n l.
    rewrite (createClient_declared ev st b Hp Hs). cbv zeta.
    subst n l. repeat split.
    + intros [H | H]; apply isEmpty_true in H; rewrite H;
        rewrite ?orb_true_r; reflexivity.
    + intros Hn Hl Hh. apply isEmpty_false in Hn, Hl.
      rewrite Hn, Hl, Hh. reflexivity.
    + intros Hn Hl Hh Hu. apply isEmpty_false in Hn, Hl.
      rewrite Hn, Hl, Hh, Hu. reflexivity.
    + intros Hn Hl Hh Hu. apply isEmpty_false in Hn, Hl.
      rewrite Hn, Hl, Hh, Hu. reflexivity.
Qed.

End Create.

Section Update.

Variable URL_parses : jsstring -> bool.

(** *** Update *)

(** C2, amended.  For every PUT request to [/clients/{id}], the handler
    applies its checks in this order and returns the first failing one:
    the body fails to parse as JSON, 400; for a body that parses to a
    value of the declared shape (not [null], [name] and [downloadLink]
    strings or absent), the trimmed name or the trimmed link is empty or
    absent, 400; [id] is not a key of the registry, 404, the registry
    left as it was; the trimmed link does not parse as a URL, 400;
    otherwise it overwrites the record at [id] with the trimmed name and
    link and returns 200 with them. *)
Theorem update_checks_in_order (ev : Event.t) (id : jsstring)
  (st : ClientStore.t) :
  onClient "PUT" id ev ->
  (JSON_parse (bodyText (Event.body ev)) = None ->
   handler URL_parses ev st
   = (respond 400 (errorBody "Invalid request body"), st))
  /\ (forall b : json,
      JSON_parse (bodyText (Event.body ev)) = Some b ->
      declaredShape b = true ->
      let n := trimmedField (member b (js "name")) in
      let l := trimmedField (member b (js "downloadLink")) in
      (n = [] \/ l = [] ->
       handler URL_parses ev st
       = (respond 400 (errorBody "Name and download link are required"), st))
      /\ (n <> [] -> l <> [] -> ClientStore.has id st = false ->
          handler URL_parses ev st
          = (respond 404 (errorBody "Client not found"), st))
      /\ (n <> [] -> l <> [] -> ClientStore.has id st = true ->
          URL_parses l = false ->
          handler URL_parses ev st
          = (respond 400 (errorBody "Invalid download link URL"), st))
      /\ (n <> [] -> l <> [] -> ClientStore.has id st = true ->
          URL_parses l = true ->
          handler URL_parses ev st
          = (respond 200 (clientBody n l),
             ClientStore.set id {| name := n; downloadLink := l |} st))).
Proof.
  intros Hr.
  rewrite (handler_route URL_parses "PUT" ev st (proj1 (proj1 Hr)) eq_refl).
  rewrite (route_update URL_parses ev id Hr).
  split.
  - intros Hp. unfold updateClient. rewrite Hp. reflexivity.
  - intros b Hp Hs n l.
    rewrite (updateClient_declared URL_parses id ev st b Hp Hs). cbv zeta.
    subst n l. repeat split.
    + intros [H | H]; apply isEmpty_true in H; rewrite H;
        rewrite ?orb_true_r; reflexivity.
    + intros Hn Hl Hh. apply isEmpty_false in Hn, Hl.
      rewrite Hn, Hl, Hh. reflexivity.
    + intros Hn Hl Hh Hu. apply isEmpty_false in Hn, Hl.
      rewrite Hn, Hl, Hh, Hu. reflexivity.
    + intros Hn Hl Hh Hu. apply isEmpty_false in Hn, Hl.
      rewrite Hn, Hl, Hh, Hu. reflexivity.
Qed.

(** The outcome of the GET of one client. *)
Lemma handler_get (ev : Event.t) (id : jsstring) (st : ClientStore.t) :
  onClient "GET" id ev ->
  handler URL_parses ev st =
  (match ClientStore.get id st with
   | Some c => respond 200 (clientBody (name c) (downloadLink c))
   | None => respond 404 (errorBody "Client not found")
   end, st).
Proof.
  intros Hr.
  rewrite (handler_route URL_parses "GET" ev st (proj1 (proj1 Hr)) eq_refl).
  rewrite (route_get URL_parses ev id Hr).
  unfold getClient, bind, get.
  destruct (ClientStore.get id st); reflexivity.
Qed.

Lemma handler_delete (ev : Event.t) (id : jsstring) (st : ClientStore.t) :
  onClient "DELETE" id ev ->
  handler URL_parses ev st =
  if ClientStore.has id st then (respondEmpty 204, ClientStore.delete id st)
  else (respond 404 (errorBody "Client not found"), st).
Proof.
  intros Hr.
  rewrite (handler_route URL_parses "DELETE" ev st (proj1 (proj1 Hr)) eq_refl).
  rewrite (route_delete URL_parses ev id Hr).
  unfold deleteClient, bind, has, delete.
  destruct (ClientStore.has id st); reflexivity.
Qed.

(** A PUT that is answered 200 has written the trimmed members of its
    body at the key of its path, which was present. *)
Lemma update_200 (ev : Event.t) (id : jsstring) (st : ClientStore.t) :
  onClient "PUT" id ev ->
  Response.statusCode (fst (handler URL_parses ev st)) = 200 ->
  exists (b : json) (s t : jsstring),
    JSON_parse (bodyText (Event.body ev)) = Some b
    /\ member b (js "name") = Some (JString s)
    /\ member b (js "downloadLink") = Some (JString t)
    /\ ClientStore.has id st = true
    /\ handler URL_parses ev st
       = (respond 200 (clientBody (trim s) (trim t)),
          ClientStore.set id
            {| name := trim s; downloadLink := trim t |} st).
Proof.
  intros Hr.
  rewrite (handler_route URL_parses "PUT" ev st (proj1 (proj1 Hr)) eq_refl).
  rewrite (route_update URL_parses ev id Hr).
  apply updateClient_cases; simpl.
  - intros r H _ _ E; congruence.
  - discriminate.
  - intros b s t Hp Hn Hl _ _ Hh _ _. exists b, s, t. auto.
Qed.

(** C3.  A successful update leaves the keys of the registry as they
    were and changes the record of the key of its path only: the record
    with the new name and link is stored under that key, a GET of the
    key returns 200 with them, a key is in the registry after the update
    exactly when it was before, and the record of every other key is
    what it was. *)
Theorem update_only_at_key (ev get_ev : Event.t) (id : jsstring)
  (st : ClientStore.t) :
  onClient "PUT" id ev ->
  onClient "GET" id get_ev ->
  Response.statusCode (fst (handler URL_parses ev st)) = 200 ->
  let st' := snd (handler URL_parses ev st) in
  exists (b : json) (n l : jsstring),
    JSON_parse (bodyText (Event.body ev)) = Some b
    /\ n = trimmedField (member b (js "name"))
    /\ l = trimmedField (member b (js "downloadLink"))
    /\ fst (handler URL_parses ev st) = respond 200 (clientBody n l)
    /\ ClientStore.keys st' = ClientStore.keys st
    /\ (forall k, ClientStore.has k st' = ClientStore.has k st)
    /\ ClientStore.get id st' = Some {| name := n; downloadLink := l |}
    /\ handler URL_parses get_ev st' = (respond 200 (clientBody n l), st')
    /\ (forall k, k <> id -> ClientStore.get k st' = ClientStore.get k st).
Proof.
  intros Hr Hg H200 st'.
  destruct (update_200 ev id st Hr H200) as (b & s & t & Hp & Hn & Hl & Hh & He).
  exists b, (trim s), (trim t).
  subst st'. rewrite He, Hn, Hl. simpl fst; simpl snd.
  repeat split; auto.
  - apply StoreFacts.keys_set_present, Hh.
  - intros k. rewrite StoreFacts.has_set.
    destruct (str_eqb id k) eqn:E; [|reflexivity].
    apply str_eqb_eq in E; subst k. rewrite Hh; reflexivity.
  - apply StoreFacts.get_set_same.
  - rewrite (handler_get get_ev id _ Hg), StoreFacts.get_set_same.
    reflexivity.
  - intros k Hk. apply StoreFacts.get_set_other, Hk.
Qed.

End Update.

Section Sequences.

Variable URL_parses : jsstring -> bool.

(** *** Creation, then lookup *)

Lemma declaredShape_members (b : json) (s t : jsstring) :
  member b (js "name") = Some (JString s) ->
  member b (js "downloadLink") = Some (JString t) ->
  declaredShape b = true.
Proof.
  destruct b; simpl; try discriminate. intros -> ->; reflexivity.
Qed.

Lemma handler_create (ev : Event.t) (st : ClientStore.t) (b : json)
  (s t : jsstring) :
  onClients "POST" ev ->
  JSON_parse (bodyText (Event.body ev)) = Some b ->
  member b (js "name") = Some (JString s) ->
  member b (js "downloadLink") = Some (JString t) ->
  trim s <> [] -> trim t <> [] ->
  ClientStore.has (trim s) st = false ->
  URL_parses (trim t) = true ->
  handler URL_parses ev st
  = (respond 201 (clientBody (trim s) (trim t)),
     ClientStore.set (trim s) {| name := trim s; downloadLink := trim t |} st).
Proof.
  intros Hr Hp Hn Hl Hs Ht Hh Hv.
  rewrite (handler_route URL_parses "POST" ev st (proj1 Hr) eq_refl).
  rewrite (route_create URL_parses ev Hr).
  rewrite (createClient_declared URL_parses ev st b Hp
             (declaredShape_members b s t Hn Hl)).
  cbv zeta. rewrite Hn, Hl. simpl trimmedField.
  apply isEmpty_false in Hs, Ht. rewrite Hs, Ht, Hh, Hv. reflexivity.
Qed.

(** The GET of [/clients/{id}] reaches the client [id] when [id] is not
    empty and holds no slash. *)
Lemma onClient_clientPath (m : string) (ev : Event.t) (id : jsstring) :
  Event.httpMethod ev = js m ->
  Event.path ev = apiPrefix ++ clientPath id ->
  id <> [] -> includes 47 id = false ->
  onClient m id ev.
Proof.
  intros Hm Hp Hne Hs. unfold onClient, onClients.
  rewrite Hp, (segmentsOf_clientPath id Hs). auto.
Qed.

(** C4, amended.  Create, then get: for every name and link whose
    trimmed forms are not empty, where the trimmed name is not yet a key
    of the registry and holds no slash, and the trimmed link parses as a
    URL, a POST to [/clients] with them is answered 201, and the GET of
    [/clients/{trimmed name}] that follows is answered 200 with the
    trimmed name and the trimmed link. *)
Theorem create_then_get (ev get_ev : Event.t) (st : ClientStore.t)
  (b : json) (s t : jsstring) :
  onClients "POST" ev ->
  JSON_parse (bodyText (Event.body ev)) = Some b ->
  member b (js "name") = Some (JString s) ->
  member b (js "downloadLink") = Some (JString t) ->
  trim s <> [] -> trim t <> [] ->
  ClientStore.has (trim s) st = false ->
  URL_parses (trim t) = true ->
  includes 47 (trim s) = false ->
  Event.httpMethod get_ev = js "GET" ->
  Event.path get_ev = apiPrefix ++ clientPath (trim s) ->
  let st' := snd (handler URL_parses ev st) in
  fst (handler URL_parses ev st) = respond 201 (clientBody (trim s) (trim t))
  /\ handler URL_parses get_ev st'
     = (respond 200 (clientBody (trim s) (trim t)), st').
Proof.
  intros Hr Hp Hn Hl Hs Ht Hh Hv Hslash Hm Hpath st'. subst st'.
  rewrite (handler_create ev st b s t Hr Hp Hn Hl Hs Ht Hh Hv).
  split; [reflexivity|]. simpl snd.
  rewrite (handler_get URL_parses get_ev (trim s) _
             (onClient_clientPath "GET" get_ev (trim s) Hm Hpath Hs Hslash)).
  rewrite StoreFacts.get_set_same. reflexivity.
Qed.

(** *** Deletion *)

(** A DELETE routed to the key [id] of the store is answered 204 without
    a body and removes the entry, the other entries left as they were;
    a GET routed to [id] after it is answered 404, and so is the same
    DELETE again, which changes nothing. *)
Lemma delete_on_client (ev get_ev : Event.t) (id : jsstring)
  (st : ClientStore.t) :
  onClient "DELETE" id ev ->
  onClient "GET" id get_ev ->
  ClientStore.has id st = true ->
  let st' := snd (handler URL_parses ev st) in
  fst (handler URL_parses ev st) = respondEmpty 204
  /\ Response.body (fst (handler URL_parses ev st)) = None
  /\ ClientStore.has id st' = false
  /\ (forall k, k <> id -> ClientStore.get k st' = ClientStore.get k st)
  /\ handler URL_parses get_ev st'
     = (respond 404 (errorBody "Client not found"), st')
  /\ handler URL_parses ev st'
     = (respond 404 (errorBody "Client not found"), st').
Proof.
  intros Hr Hg Hh st'. subst st'.
  rewrite (handler_delete URL_parses ev id st Hr), Hh. simpl fst; simpl snd.
  pose proof (StoreFacts.has_delete_same id st) as Hd.
  repeat split.
  - exact Hd.
  - intros k Hk. apply StoreFacts.get_delete_other, Hk.
  - rewrite (handler_get URL_parses get_ev id _ Hg).
    rewrite StoreFacts.has_get in Hd.
    destruct (ClientStore.get id (ClientStore.delete id st));
      [discriminate | reflexivity].
  - rewrite (handler_delete URL_parses ev id _ Hr), Hd. reflexivity.
Qed.

(** *** Requests without a body *)

Lemma bodyText_absent (body : option jsstring) :
  body = None \/ body = Some [] -> bodyText body = js "{}".
Proof. intros [-> | ->]; reflexivity. Qed.

Lemma parse_empty_object : JSON_parse (js "{}") = Some (JObject []).
Proof. reflexivity. Qed.

(** C9.  A POST to [/clients] or a PUT to [/clients/{id}] whose body is
    absent or empty is not rejected as malformed JSON: the text parsed
    is the default one, an object without members, and the response is
    400 with the error for missing fields, the registry left as it
    was. *)
Theorem absent_body_missing_fields (ev : Event.t) (st : ClientStore.t) :
  Event.body ev = None \/ Event.body ev = Some [] ->
  onClients "POST" ev \/ (exists id, onClient "PUT" id ev) ->
  bodyText (Event.body ev) = js "{}"
  /\ JSON_parse (bodyText (Event.body ev)) = Some (JObject [])
  /\ handler URL_parses ev st
     = (respond 400 (errorBody "Name and download link are required"), st)
  /\ fst (handler URL_parses ev st)
     <> respond 400 (errorBody "Invalid request body").
Proof.
  intros Hb Hr.
  pose proof (bodyText_absent _ Hb) as Ht.
  assert (Hp : JSON_parse (bodyText (Event.body ev)) = Some (JObject []))
    by (rewrite Ht; apply parse_empty_object).
  assert (He : handler URL_parses ev st
               = (respond 400
                    (errorBody "Name and download link are required"), st)).
  { destruct Hr as [Hr | [id Hr]].
    - rewrite (handler_route URL_parses "POST" ev st (proj1 Hr) eq_refl).
      rewrite (route_create URL_parses ev Hr).
      rewrite (createClient_declared URL_parses ev st _ Hp eq_refl).
      reflexivity.
    - rewrite (handler_route URL_parses "PUT" ev st (proj1 (proj1 Hr)) eq_refl).
      rewrite (route_update URL_parses ev id Hr).
      rewrite (updateClient_declared URL_parses id ev st _ Hp eq_refl).
      reflexivity. }
  repeat split; auto.
  rewrite He. simpl. discriminate.
Qed.

End Sequences.

Section Failures.

Variable URL_parses : jsstring -> bool.

(** *** Failed requests *)

Lemma effect_failure (st st' : ClientStore.t) (r : Response.t) :
  effect URL_parses st r st' ->
  Response.statusCode r <> 200 -> Response.statusCode r <> 201 ->
  Response.statusCode r <> 204 ->
  st' = st.
Proof.
  intros H H200 H201 H204.
  destruct H; simpl in *; congruence.
Qed.

Lemma handler_create_url (ev : Event.t) (st : ClientStore.t) (b : json)
  (t : jsstring) :
  onClients "POST" ev ->
  JSON_parse (bodyText (Event.body ev)) = Some b ->
  member b (js "downloadLink") = Some (JString t) ->
  URL_parses (trim t) = false ->
  Response.statusCode (fst (handler URL_parses ev st)) <> 201
  /\ snd (handler URL_parses ev st) = st.
Proof.
  intros Hr Hp Hl Hv.
  rewrite (handler_route URL_parses "POST" ev st (proj1 Hr) eq_refl).
  rewrite (route_create URL_parses ev Hr).
  apply createClient_cases; simpl.
  - intros r _ H _. auto.
  - split; [discriminate | reflexivity].
  - intros b' s t' Hp' _ Hl' _ _ _ Hv'.
    rewrite Hp in Hp'. injection Hp' as <-.
    rewrite Hl in Hl'. injection Hl' as <-. congruence.
Qed.

(** C5, amended.  Failed requests leave the registry unchanged: when
    the status of the response is not 200, 201 or 204, the store after
    the request is the store before it.  In particular a POST to
    [/clients] whose trimmed link does not parse as a URL stores no
    record; for a body of the declared shape it is answered 409 when the
    trimmed name and link are not empty and the trimmed name is a key of
    the registry, and 400 otherwise. *)
Theorem failure_leaves_store :
  (forall (ev : Event.t) (st : ClientStore.t),
      Response.statusCode (fst (handler URL_parses ev st)) <> 200 ->
      Response.statusCode (fst (handler URL_parses ev st)) <> 201 ->
      Response.statusCode (fst (handler URL_parses ev st)) <> 204 ->
      snd (handler URL_parses ev st) = st)
  /\ (forall (ev : Event.t) (st : ClientStore.t) (b : json) (t : jsstring),
      onClients "POST" ev ->
      JSON_parse (bodyText (Event.body ev)) = Some b ->
      member b (js "downloadLink") = Some (JString t) ->
      URL_parses (trim t) = false ->
      snd (handler URL_parses ev st) = st
      /\ (declaredShape b = true ->
          let n := trimmedField (member b (js "name")) in
          Response.statusCode (fst (handler URL_parses ev st))
          = if negb (isEmpty n) && negb (isEmpty (trim t))
               && ClientStore.has n st
            then 409 else 400)).
Proof.
  split.
  - intros ev st. apply effect_failure, handler_effect.
  - intros ev st b t Hr Hp Hl Hv. split.
    + apply (handler_create_url ev st b t Hr Hp Hl Hv).
    + intros Hs n. subst n.
      rewrite (handler_route URL_parses "POST" ev st (proj1 Hr) eq_refl).
      rewrite (route_create URL_parses ev Hr).
      rewrite (createClient_declared URL_parses ev st b Hp Hs).
      cbv zeta. rewrite Hl. simpl trimmedField.
      destruct (isEmpty (trimmedField (member b (js "name"))));
        [reflexivity|].
      destruct (isEmpty (trim t)); [reflexivity|]. simpl.
      destruct (ClientStore.has _ st); [reflexivity|].
      rewrite Hv. reflexivity.
Qed.

(** *** Routing *)

Lemma segmentIs_false (v : option jsstring) (s : jsstring) :
  v <> Some s -> segmentIs v s = false.
Proof.
  destruct v as [x|]; simpl; [|reflexivity].
  intros H. apply str_eqb_neq. congruence.
Qed.

Lemma createClient_body (ev ev' : Event.t) :
  Event.body ev = Event.body ev' ->
  createClient URL_parses ev = createClient URL_parses ev'.
Proof. unfold createClient. intros ->. reflexivity. Qed.

Lemma updateClient_body (id : jsstring) (ev ev' : Event.t) :
  Event.body ev = Event.body ev' ->
  updateClient URL_parses id ev = updateClient URL_parses id ev'.
Proof. unfold updateClient. intros ->. reflexivity. Qed.

(** C7, amended.  A request other than OPTIONS whose first path segment
    is not [clients], or whose method is none of GET, POST, PUT and
    DELETE, or whose method is PUT or DELETE and whose second segment is
    absent or empty, is answered 404 with the error
    [Endpoint not found], the registry left as it was.  The segments
    after the second are not read: two requests with the same method,
    body and first two segments are answered alike, a GET of
    [/clients/{id}/extra] as the GET of [/clients/{id}]. *)
Theorem unmatched_not_found :
  (forall (ev : Event.t) (st : ClientStore.t),
      Event.httpMethod ev <> js "OPTIONS" ->
      segment (segmentsOf (Event.path ev)) 0 <> Some (js "clients")
      \/ (Event.httpMethod ev <> js "GET"
          /\ Event.httpMethod ev <> js "POST"
          /\ Event.httpMethod ev <> js "PUT"
          /\ Event.httpMethod ev <> js "DELETE")
      \/ ((Event.httpMethod ev = js "PUT"
           \/ Event.httpMethod ev = js "DELETE")
          /\ truthy (segment (segmentsOf (Event.path ev)) 1) = false) ->
      handler URL_parses ev st
      = (respond 404 (errorBody "Endpoint not found"), st))
  /\ (forall (ev ev' : Event.t) (st : ClientStore.t),
      Event.httpMethod ev = Event.httpMethod ev' ->
      Event.body ev = Event.body ev' ->
      segment (segmentsOf (Event.path ev)) 0
      = segment (segmentsOf (Event.path ev')) 0 ->
      segment (segmentsOf (Event.path ev)) 1
      = segment (segmentsOf (Event.path ev')) 1 ->
      handler URL_parses ev st = handler URL_parses ev' st).
Proof.
  split.
  - intros ev st Ho H. unfold handler.
    apply str_eqb_neq in Ho. rewrite Ho.
    unfold route; cbv zeta.
    destruct H as [H | [(Hg & Hp & Hu & Hd) | [Hm Ht]]].
    + rewrite (segmentIs_false _ _ H), !andb_false_r. reflexivity.
    + apply str_eqb_neq in Hg, Hp, Hu, Hd.
      rewrite Hg, Hp, Hu, Hd. reflexivity.
    + rewrite Ht, !andb_false_r.
      destruct Hm as [-> | ->]; reflexivity.
  - intros ev ev' st Hm Hb H0 H1. unfold handler, route; cbv zeta.
    rewrite Hm, H0, H1, (createClient_body ev ev' Hb),
      (updateClient_body _ ev ev' Hb).
    reflexivity.
Qed.

End Failures.

Section Registry.

Variable URL_parses : jsstring -> bool.

(** *** What holds of the store after any requests *)

(** A property of the store that every request preserves holds after
    any sequence of requests. *)
Lemma run_invariant (I : ClientStore.t -> Prop) :
  (forall ev st, I st -> I (snd (handler URL_parses ev st))) ->
  forall evs st, I st -> I (run URL_parses evs st).
Proof.
  intros Hstep evs. induction evs as [|ev rest IH]; simpl; auto.
Qed.

Lemma handler_NoDup (ev : Event.t) (st : ClientStore.t) :
  NoDup (ClientStore.keys st) ->
  NoDup (ClientStore.keys (snd (handler URL_parses ev st))).
Proof.
  intros H. destruct (handler_effect URL_parses ev st);
    auto using StoreFacts.NoDup_set, StoreFacts.NoDup_delete.
Qed.

Lemma run_NoDup (evs : list Event.t) :
  NoDup (ClientStore.keys (run URL_parses evs ClientStore.empty)).
Proof.
  apply (run_invariant (fun st => NoDup (ClientStore.keys st))).
  - apply handler_NoDup.
  - constructor.
Qed.

Lemma has_entry (id : jsstring) (st : ClientStore.t) :
  ClientStore.has id st = true -> exists d, In (id, d) st.
Proof.
  rewrite StoreFacts.has_get.
  destruct (ClientStore.get id st) as [d|] eqn:E; [|discriminate].
  intros _. exists d. apply StoreFacts.get_in, E.
Qed.

Lemma handler_valid (ev : Event.t) (st : ClientStore.t) :
  Forall (entryValid URL_parses) st ->
  Forall (entryValid URL_parses) (snd (handler URL_parses ev st)).
Proof.
  intros H. destruct (handler_effect URL_parses ev st) as
    [r _ _ _ | | id d _ | n l Hn Htn Hl Htl Hv Hh
     | id n l Hh Hn Htn Hl Htl Hv | id Hh]; auto.
  - apply Forall_forall. intros e He.
    apply StoreFacts.in_set in He as [-> | He].
    + repeat (split; [assumption|]); assumption.
    + revert e He. apply Forall_forall, H.
  - apply Forall_forall. intros e He.
    apply StoreFacts.in_set in He as [-> | He].
    + destruct (has_entry id st Hh) as [d Hd].
      rewrite Forall_forall in H. destruct (H _ Hd) as (Hk & Htk & _).
      repeat (split; [assumption|]); assumption.
    + revert e He. apply Forall_forall, H.
  - apply Forall_forall. intros e He.
    apply StoreFacts.in_delete in He.
    revert e He. apply Forall_forall, H.
Qed.

(** C10.  Every request keeps the entries of the store valid: a key
    that is not empty and has no white space at either end, a name and
    a link without white space at either end, and a link that parses as
    a URL.  So does every sequence of requests from the empty registry. *)
Theorem stored_entries_valid :
  (forall (ev : Event.t) (st : ClientStore.t),
      Forall (entryValid URL_parses) st ->
      Forall (entryValid URL_parses) (snd (handler URL_parses ev st)))
  /\ (forall evs : list Event.t,
      Forall (entryValid URL_parses)
        (run URL_parses evs ClientStore.empty)).
Proof.
  split.
  - apply handler_valid.
  - intros evs. apply (run_invariant (Forall (entryValid URL_parses))).
    + apply handler_valid.
    + constructor.
Qed.

(** *** The list of clients *)

Lemma getAll_listed (st : ClientStore.t) :
  ClientStore.getAll st = map (fun e => listed (fst e) (snd e)) st.
Proof.
  unfold ClientStore.getAll. apply map_ext. intros [k d]; reflexivity.
Qed.

Lemma handler_list (ev : Event.t) (st : ClientStore.t) :
  onClients "GET" ev ->
  truthy (segment (segmentsOf (Event.path ev)) 1) = false ->
  handler URL_parses ev st
  = (respond 200 (JArray (map (fun e => listed (fst e) (snd e)) st)), st).
Proof.
  intros Hr Ht.
  rewrite (handler_route URL_parses "GET" ev st (proj1 Hr) eq_refl).
  rewrite (route_list URL_parses ev Hr Ht).
  unfold listClients, bind, getAll, ret. simpl.
  rewrite getAll_listed. reflexivity.
Qed.

(** A request answered 201 has added the record of its response at the
    end of the store, under the name of the record. *)
Lemma created_at_end (ev : Event.t) (st : ClientStore.t) :
  Response.statusCode (fst (handler URL_parses ev st)) = 201 ->
  exists n l,
    ClientStore.has n st = false
    /\ fst (handler URL_parses ev st) = respond 201 (clientBody n l)
    /\ snd (handler URL_parses ev st)
       = st ++ [(n, {| name := n; downloadLink := l |})].
Proof.
  destruct (handler_effect URL_parses ev st) as
    [r _ H _ | | id d _ | n l Hn Htn Hl Htl Hv Hh
     | id n l Hh Hn Htn Hl Htl Hv | id Hh]; simpl; try congruence;
    try discriminate.
  intros _. exists n, l. repeat split; auto using StoreFacts.set_fresh.
Qed.

(** C8.  After any requests from the empty registry, the GET of
    [/clients] is answered 200 with the list of the entries of the
    store, each with its key as [id], in the order of the store, which
    holds one entry for a key; a creation adds its record at the end of
    the store, so that after the creation of A then of B in the empty
    registry the list is A, then B. *)
Theorem list_in_insertion_order (evs : list Event.t) (ev : Event.t) :
  onClients "GET" ev ->
  truthy (segment (segmentsOf (Event.path ev)) 1) = false ->
  let st := run URL_parses evs ClientStore.empty in
  handler URL_parses ev st
  = (respond 200 (JArray (map (fun e => listed (fst e) (snd e)) st)), st)
  /\ NoDup (ClientStore.keys st)
  /\ (forall k d, In (k, d) st <-> ClientStore.get k st = Some d)
  /\ (forall post : Event.t,
      Response.statusCode (fst (handler URL_parses post st)) = 201 ->
      exists n l,
        fst (handler URL_parses post st) = respond 201 (clientBody n l)
        /\ snd (handler URL_parses post st)
           = st ++ [(n, {| name := n; downloadLink := l |})])
  /\ (forall postA postB : Event.t,
      let stA := snd (handler URL_parses postA ClientStore.empty) in
      let stB := snd (handler URL_parses postB stA) in
      Response.statusCode (fst (handler URL_parses postA ClientStore.empty))
      = 201 ->
      Response.statusCode (fst (handler URL_parses postB stA)) = 201 ->
      exists a b : ClientData,
        fst (handler URL_parses postA ClientStore.empty)
        = respond 201 (clientBody (name a) (downloadLink a))
        /\ fst (handler URL_parses postB stA)
           = respond 201 (clientBody (name b) (downloadLink b))
        /\ name a <> name b
        /\ handler URL_parses ev stB
           = (respond 200 (JArray [listed (name a) a; listed (name b) b]),
              stB)).
Proof.
  intros Hr Ht st.
  pose proof (run_NoDup evs) as Hnd. fold st in Hnd.
  split; [apply handler_list; assumption|].
  split; [exact Hnd|].
  split; [intros k d; split;
          [apply StoreFacts.in_get, Hnd | apply StoreFacts.get_in]|].
  split.
  - intros post H.
    destruct (created_at_end post st H) as (n & l & _ & Hf & Hs).
    exists n, l. auto.
  - intros postA postB stA stB HA HB.
    destruct (created_at_end postA _ HA) as (n & l & _ & Hf & Hs).
    fold stA in Hs. simpl in Hs.
    destruct (created_at_end postB _ HB) as (n' & l' & Hh & Hf' & Hs').
    fold stB in Hs'.
    exists {| name := n; downloadLink := l |},
      {| name := n'; downloadLink := l' |}.
    simpl name; simpl downloadLink.
    repeat split; auto.
    + intros E. rewrite Hs in Hh. simpl in Hh.
      rewrite orb_false_r in Hh. apply str_eqb_neq in Hh. congruence.
    + rewrite (handler_list ev stB Hr Ht), Hs', Hs. reflexivity.
Qed.

(** *** Deletion of a key of the registry *)

(** No key of the registry is empty. *)
Lemma run_key_nonempty (evs : list Event.t) (id : jsstring) :
  ClientStore.has id (run URL_parses evs ClientStore.empty) = true ->
  id <> [].
Proof.
  intros Hh. destruct (has_entry id _ Hh) as [d Hin].
  assert (Hv : Forall (entryValid URL_parses)
                 (run URL_parses evs ClientStore.empty)).
  { apply (run_invariant (Forall (entryValid URL_parses))).
    - apply handler_valid.
    - constructor. }
  rewrite Forall_forall in Hv. exact (proj1 (Hv _ Hin)).
Qed.

(** C6, amended.  In the registry after any sequence of requests, the
    DELETE of [/clients/{id}] for a key [id] of the registry that holds
    no slash is answered 204 without a body and removes the entry, the
    other entries left as they were, so that the GET of [/clients/{id}]
    that follows is answered 404; a second DELETE of [/clients/{id}] is
    answered 404 too and changes nothing. *)
Theorem delete_then_gone (evs : list Event.t) (ev get_ev : Event.t)
  (id : jsstring) :
  let st := run URL_parses evs ClientStore.empty in
  ClientStore.has id st = true ->
  includes 47 id = false ->
  Event.httpMethod ev = js "DELETE" ->
  Event.path ev = apiPrefix ++ clientPath id ->
  Event.httpMethod get_ev = js "GET" ->
  Event.path get_ev = apiPrefix ++ clientPath id ->
  let st' := snd (handler URL_parses ev st) in
  fst (handler URL_parses ev st) = respondEmpty 204
  /\ Response.body (fst (handler URL_parses ev st)) = None
  /\ ClientStore.has id st' = false
  /\ (forall k, k <> id -> ClientStore.get k st' = ClientStore.get k st)
  /\ handler URL_parses get_ev st'
     = (respond 404 (errorBody "Client not found"), st')
  /\ handler URL_parses ev st'
     = (respond 404 (errorBody "Client not found"), st').
Proof.
  intros st Hh Hs Hm Hp Hgm Hgp.
  pose proof (run_key_nonempty evs id Hh) as Hne.
  exact (delete_on_client URL_parses ev get_ev id st
           (onClient_clientPath "DELETE" ev id Hm Hp Hne Hs)
           (onClient_clientPath "GET" get_ev id Hgm Hgp Hne Hs) Hh).
Qed.

End Registry.

(** ** The example of the specification *)

(** The creation of the example: the members are trimmed, the record is
    stored under the trimmed name, and the response is 201. *)
Lemma create_checks_in_order_witness :
  onClients "POST" postAcme
  /\ JSON_parse (bodyText (Event.body postAcme)) = Some acmeBody
  /\ declaredShape acmeBody = true
  /\ handler hasScheme postAcme ClientStore.empty
     = (respond 201 (clientBody (js "Acme") acmeLink), acmeStore).
Proof.
  assert (Hr : onClients "POST" postAcme) by (split; reflexivity).
  assert (Hp : JSON_parse (bodyText (Event.body postAcme)) = Some acmeBody)
    by reflexivity.
  split; [exact Hr|]. split; [exact Hp|]. split; [reflexivity|].
  destruct (create_checks_in_order hasScheme postAcme ClientStore.empty Hr)
    as [_ H].
  destruct (H acmeBody Hp eq_refl) as (_ & _ & _ & H201).
  rewrite H201; [reflexivity | discriminate | discriminate
                | reflexivity | reflexivity].
Defined.

(** C1 as it is stated fails on a body that parses to [null], and on a
    body whose name is a number: the response is 500, none of 400, 409
    and 201. *)
Lemma create_null_body_throws :
  let ev := request "POST" (js "clients") (Some (js "null")) in
  let ev' :=
    request "POST" (js "clients")
      (Some (jsq "{'name':5,'downloadLink':'https://x.test/a.zip'}")) in
  onClients "POST" ev
  /\ JSON_parse (bodyText (Event.body ev)) = Some JNull
  /\ handler hasScheme ev ClientStore.empty
     = (internalError, ClientStore.empty)
  /\ Response.statusCode (fst (handler hasScheme ev ClientStore.empty)) = 500
  /\ onClients "POST" ev'
  /\ JSON_parse (bodyText (Event.body ev'))
     = Some (JObject [(js "name", JNumber (js "5"));
                      (js "downloadLink", JString acmeLink)])
  /\ handler hasScheme ev' ClientStore.empty
     = (internalError, ClientStore.empty).
Proof. repeat split. Qed.

(** The update of the example: the record of [Acme] takes the new name
    and link, and stays under [Acme]. *)
Lemma update_checks_in_order_witness :
  onClient "PUT" (js "Acme") putAcme
  /\ JSON_parse (bodyText (Event.body putAcme)) = Some acmeCorpBody
  /\ declaredShape acmeCorpBody = true
  /\ handler hasScheme putAcme acmeStore
     = (respond 200 (clientBody (js "Acme Corp") (js "https://x.test/b.zip")),
        [(js "Acme", acmeCorp)]).
Proof.
  assert (Hr : onClient "PUT" (js "Acme") putAcme)
    by (repeat split; try reflexivity; discriminate).
  assert (Hp : JSON_parse (bodyText (Event.body putAcme)) = Some acmeCorpBody)
    by reflexivity.
  split; [exact Hr|]. split; [exact Hp|]. split; [reflexivity|].
  destruct (update_checks_in_order hasScheme putAcme (js "Acme") acmeStore Hr)
    as [_ H].
  destruct (H acmeCorpBody Hp eq_refl) as (_ & _ & _ & H200).
  rewrite H200; [reflexivity | discriminate | discriminate
                | reflexivity | reflexivity].
Defined.

(** C2 as it is stated fails on a body that parses to [null], and on a
    body whose name is a number: the response is 500, none of 400, 404
    and 200. *)
Lemma update_null_body_throws :
  let ev := request "PUT" (clientPath (js "Acme")) (Some (js "null")) in
  let ev' :=
    request "PUT" (clientPath (js "Acme"))
      (Some (jsq "{'name':5,'downloadLink':'https://x.test/a.zip'}")) in
  onClient "PUT" (js "Acme") ev
  /\ JSON_parse (bodyText (Event.body ev)) = Some JNull
  /\ handler hasScheme ev acmeStore = (internalError, acmeStore)
  /\ Response.statusCode (fst (handler hasScheme ev acmeStore)) = 500
  /\ onClient "PUT" (js "Acme") ev'
  /\ JSON_parse (bodyText (Event.body ev'))
     = Some (JObject [(js "name", JNumber (js "5"));
                      (js "downloadLink", JString acmeLink)])
  /\ handler hasScheme ev' acmeStore = (internalError, acmeStore).
Proof. repeat split; discriminate. Qed.

(** After the update of the example the keys are what they were, and the
    GET of [/clients/Acme] returns the new name and link. *)
Lemma update_only_at_key_witness :
  onClient "PUT" (js "Acme") putAcme
  /\ onClient "GET" (js "Acme") getAcme
  /\ Response.statusCode (fst (handler hasScheme putAcme acmeStore)) = 200
  /\ ClientStore.keys (snd (handler hasScheme putAcme acmeStore))
     = ClientStore.keys acmeStore
  /\ handler hasScheme getAcme (snd (handler hasScheme putAcme acmeStore))
     = (respond 200 (clientBody (js "Acme Corp") (js "https://x.test/b.zip")),
        [(js "Acme", acmeCorp)]).
Proof.
  assert (Hr : onClient "PUT" (js "Acme") putAcme)
    by (repeat split; try reflexivity; discriminate).
  assert (Hg : onClient "GET" (js "Acme") getAcme)
    by (repeat split; try reflexivity; discriminate).
  assert (H200 : Response.statusCode (fst (handler hasScheme putAcme acmeStore))
                 = 200) by reflexivity.
  destruct (update_only_at_key hasScheme putAcme getAcme (js "Acme") acmeStore
              Hr Hg H200)
    as (b & n & l & Hp & Hn & Hl & Hf & Hk & _ & _ & Hget & _).
  split; [exact Hr|]. split; [exact Hg|]. split; [exact H200|].
  split; [exact Hk|].
  rewrite Hget. rewrite Hf in H200.
  assert (Hb : Some b = Some acmeCorpBody) by (rewrite <- Hp; reflexivity).
  injection Hb as ->. subst n l. reflexivity.
Defined.

(** The creation of the example, then the GET of [/clients/Acme]. *)
Lemma create_then_get_witness :
  onClients "POST" postAcme
  /\ includes 47 (trim (js " Acme ")) = false
  /\ handler hasScheme getAcme (snd (handler hasScheme postAcme ClientStore.empty))
     = (respond 200 (clientBody (js "Acme") acmeLink), acmeStore).
Proof.
  assert (Hr : onClients "POST" postAcme) by (split; reflexivity).
  split; [exact Hr|]. split; [reflexivity|].
  apply (create_then_get hasScheme postAcme getAcme ClientStore.empty acmeBody
           (js " Acme ") (js " https://x.test/a.zip "));
    try reflexivity; try discriminate; exact Hr.
Defined.

(** C4 as it is stated fails on a name that holds a slash: the record is
    stored under the name, and the GET of the path made with the name
    looks up the part of the name before the slash. *)
Lemma create_then_get_slash :
  let post :=
    request "POST" (js "clients")
      (Some (jsq "{'name':'a/b','downloadLink':'https://x.test/a.zip'}")) in
  let st := snd (handler hasScheme post ClientStore.empty) in
  trim (js "a/b") = js "a/b"
  /\ ClientStore.has (js "a/b") ClientStore.empty = false
  /\ hasScheme (trim acmeLink) = true
  /\ fst (handler hasScheme post ClientStore.empty)
     = respond 201 (clientBody (js "a/b") acmeLink)
  /\ segmentsOf (apiPrefix ++ clientPath (js "a/b")) = [js "clients"; js "a"; js "b"]
  /\ handler hasScheme (request "GET" (clientPath (js "a/b")) None) st
     = (respond 404 (errorBody "Client not found"), st).
Proof. repeat split. Qed.

(** A creation with the link [not-a-url] and a new name: 400, and the
    store is what it was. *)
Lemma failure_leaves_store_witness :
  onClients "POST" (postBadLink "Bolt")
  /\ hasScheme (trim (js "not-a-url")) = false
  /\ Response.statusCode (fst (handler hasScheme (postBadLink "Bolt") acmeStore))
     = 400
  /\ snd (handler hasScheme (postBadLink "Bolt") acmeStore) = acmeStore.
Proof.
  assert (Hr : onClients "POST" (postBadLink "Bolt")) by (split; reflexivity).
  split; [exact Hr|]. split; [reflexivity|].
  destruct (failure_leaves_store hasScheme) as [Hany Hpost].
  destruct (Hpost (postBadLink "Bolt") acmeStore
              (JObject [(js "name", JString (js "Bolt"));
                        (js "downloadLink", JString (js "not-a-url"))])
              (js "not-a-url") Hr eq_refl eq_refl eq_refl) as [Hst Hcode].
  split; [rewrite (Hcode eq_refl); reflexivity|].
  apply Hany; rewrite (Hcode eq_refl); discriminate.
Defined.

(** C5 as it is stated fails when the name is the name of a client of the
    store: the response is 409, not 400. *)
Lemma create_bad_link_existing_name :
  onClients "POST" (postBadLink "Acme")
  /\ JSON_parse (bodyText (Event.body (postBadLink "Acme")))
     = Some (JObject [(js "name", JString (js "Acme"));
                      (js "downloadLink", JString (js "not-a-url"))])
  /\ hasScheme (trim (js "not-a-url")) = false
  /\ handler hasScheme (postBadLink "Acme") acmeStore
     = (respond 409 (errorBody "Client with this name already exists"),
        acmeStore)
  /\ Response.statusCode (fst (handler hasScheme (postBadLink "Acme") acmeStore))
     <> 400.
Proof. repeat split. discriminate. Qed.

(** The deletion of the example, after its creation, then the GET and
    the same DELETE again. *)
Lemma delete_then_gone_witness :
  ClientStore.has (js "Acme") (run hasScheme [postAcme] ClientStore.empty)
  = true
  /\ includes 47 (js "Acme") = false
  /\ handler hasScheme deleteAcme (run hasScheme [postAcme] ClientStore.empty)
     = (respondEmpty 204, [])
  /\ handler hasScheme getAcme
       (snd (handler hasScheme deleteAcme
               (run hasScheme [postAcme] ClientStore.empty)))
     = (respond 404 (errorBody "Client not found"), [])
  /\ handler hasScheme deleteAcme
       (snd (handler hasScheme deleteAcme
               (run hasScheme [postAcme] ClientStore.empty)))
     = (respond 404 (errorBody "Client not found"), []).
Proof.
  destruct (delete_then_gone hasScheme [postAcme] deleteAcme getAcme (js "Acme")
              eq_refl eq_refl eq_refl eq_refl eq_refl eq_refl)
    as (Hf & _ & _ & _ & Hget & Hdel).
  split; [reflexivity|]. split; [reflexivity|].
  split; [reflexivity|]. split; [exact Hget | exact Hdel].
Defined.

(** C6 as it is stated fails on a key that holds a slash: the DELETE of
    the path made with the key looks up the part of the key before the
    slash.  It is answered 404 and the key is kept; or, when that part
    is a key too, it is answered 204 and deletes the other client. *)
Lemma delete_slash_key :
  let postAB :=
    request "POST" (js "clients")
      (Some (jsq "{'name':'a/b','downloadLink':'https://x.test/a.zip'}")) in
  let postA :=
    request "POST" (js "clients")
      (Some (jsq "{'name':'a','downloadLink':'https://x.test/a.zip'}")) in
  let del := request "DELETE" (clientPath (js "a/b")) None in
  let st := run hasScheme [postAB] ClientStore.empty in
  let st2 := run hasScheme [postA; postAB] ClientStore.empty in
  ClientStore.has (js "a/b") st = true
  /\ segmentsOf (Event.path del) = [js "clients"; js "a"; js "b"]
  /\ handler hasScheme del st
     = (respond 404 (errorBody "Client not found"), st)
  /\ ClientStore.has (js "a/b") (snd (handler hasScheme del st)) = true
  /\ ClientStore.has (js "a/b") st2 = true
  /\ fst (handler hasScheme del st2) = respondEmpty 204
  /\ ClientStore.has (js "a/b") (snd (handler hasScheme del st2)) = true
  /\ ClientStore.has (js "a") st2 = true
  /\ ClientStore.has (js "a") (snd (handler hasScheme del st2)) = false.
Proof. repeat split. Qed.

(** A PATCH, and a DELETE without a client, are answered 404; a GET with
    a third segment is answered as the GET without it. *)
Lemma unmatched_not_found_witness :
  handler hasScheme (request "PATCH" (clientPath (js "Acme")) None) acmeStore
  = (respond 404 (errorBody "Endpoint not found"), acmeStore)
  /\ handler hasScheme (request "DELETE" (js "clients") None) acmeStore
     = (respond 404 (errorBody "Endpoint not found"), acmeStore)
  /\ handler hasScheme (request "GET" (js "clients/Acme/extra") None) acmeStore
     = handler hasScheme getAcme acmeStore.
Proof.
  destruct (unmatched_not_found hasScheme) as [H404 Hsame].
  split; [|split].
  - apply H404; [discriminate|].
    right; left. repeat split; discriminate.
  - apply H404; [discriminate|].
    right; right. split; [right; reflexivity | reflexivity].
  - apply Hsame; reflexivity.
Defined.

(** C7 as it is stated fails on both of its examples: the GET of
    [/clients/{id}/extra] returns the client [id], and the POST to
    [/clients/{id}] creates a client. *)
Lemma trailing_segments_routed :
  handler hasScheme (request "GET" (js "clients/Acme/extra") None) acmeStore
  = (respond 200 (clientBody (js "Acme") acmeLink), acmeStore)
  /\ handler hasScheme
       (request "POST" (js "clients/Acme") (Event.body postBolt)) acmeStore
     = (respond 201 (clientBody (js "Bolt") (js "https://x.test/bolt.zip")),
        acmeStore ++ [(js "Bolt", bolt)]).
Proof. split; reflexivity. Qed.

(** After the creation of [Acme], the creation of [Bolt] and the update of
    [Acme], the list is [Acme], updated, then [Bolt]. *)
Lemma list_in_insertion_order_witness :
  onClients "GET" getClients
  /\ handler hasScheme getClients
       (run hasScheme [postAcme; postBolt; putAcme] ClientStore.empty)
     = (respond 200 (JArray [listed (js "Acme") acmeCorp;
                             listed (js "Bolt") bolt]),
        [(js "Acme", acmeCorp); (js "Bolt", bolt)]).
Proof.
  assert (Hr : onClients "GET" getClients) by (split; reflexivity).
  split; [exact Hr|].
  destruct (list_in_insertion_order hasScheme [postAcme; postBolt; putAcme]
              getClients Hr eq_refl) as (Hl & _).
  rewrite Hl. reflexivity.
Defined.

(** A POST without a body and a PUT with an empty one. *)
Lemma absent_body_missing_fields_witness :
  handler hasScheme (request "POST" (js "clients") None) acmeStore
  = (respond 400 (errorBody "Name and download link are required"), acmeStore)
  /\ handler hasScheme (request "PUT" (clientPath (js "Acme")) (Some []))
       acmeStore
     = (respond 400 (errorBody "Name and download link are required"),
        acmeStore).
Proof.
  split.
  - apply (absent_body_missing_fields hasScheme
             (request "POST" (js "clients") None) acmeStore).
    + left; reflexivity.
    + left; split; reflexivity.
  - apply (absent_body_missing_fields hasScheme
             (request "PUT" (clientPath (js "Acme")) (Some [])) acmeStore).
    + right; reflexivity.
    + right. exists (js "Acme"). repeat split; try reflexivity; discriminate.
Defined.

(** The store of the example is valid, and so it is after the update. *)
Lemma stored_entries_valid_witness :
  Forall (entryValid hasScheme) acmeStore
  /\ Forall (entryValid hasScheme) (snd (handler hasScheme putAcme acmeStore)).
Proof.
  assert (H : Forall (entryValid hasScheme) acmeStore).
  { constructor; [|constructor].
    repeat split; try reflexivity; discriminate. }
  split; [exact H|].
  apply (proj1 (stored_entries_valid hasScheme) putAcme acmeStore H).
Defined.

(** * Builtins, store and panel *)

(** ** [trim] and the segments of a path *)

Lemma trimStart_split (s : jsstring) :
  exists w, s = w ++ trimStart s /\ allWhiteSpace w = true.
Proof.
  induction s as [|c r (w & Hw & Ha)]; simpl.
  - exists []; auto.
  - destruct (isWhiteSpace c) eqn:E.
    + exists (c :: w). split; [simpl; congruence|].
      unfold allWhiteSpace in *; simpl. rewrite E, Ha. reflexivity.
    + exists []; auto.
Qed.

Lemma allWhiteSpace_rev (s : jsstring) :
  allWhiteSpace (rev s) = allWhiteSpace s.
Proof.
  unfold allWhiteSpace. induction s as [|c r IH]; simpl; [reflexivity|].
  rewrite forallb_app, IH; simpl. rewrite andb_true_r, andb_comm; reflexivity.
Qed.

Lemma allWhiteSpace_app (a b : jsstring) :
  allWhiteSpace (a ++ b) = allWhiteSpace a && allWhiteSpace b.
Proof. apply forallb_app. Qed.

Lemma trimStart_allWhiteSpace (s : jsstring) :
  trimStart s = [] <-> allWhiteSpace s = true.
Proof.
  unfold allWhiteSpace. induction s as [|c r IH]; simpl; [tauto|].
  destruct (isWhiteSpace c); simpl; [exact IH|]. split; discriminate.
Qed.

Lemma trim_decompose (s : jsstring) :
  exists a b, s = a ++ trim s ++ b
              /\ allWhiteSpace a = true /\ allWhiteSpace b = true.
Proof.
  destruct (trimStart_split s) as (a & Ha & Hwa).
  destruct (trimStart_split (rev (trimStart s))) as (w & Hw & Hww).
  assert (Hb : trimStart s = trim s ++ rev w).
  { unfold trim, trimEnd. rewrite <- rev_app_distr, <- Hw, rev_involutive.
    reflexivity. }
  exists a, (rev w). rewrite <- Hb. repeat split; auto.
  rewrite allWhiteSpace_rev; exact Hww.
Qed.

Lemma trim_nil_iff (s : jsstring) : trim s = [] <-> allWhiteSpace s = true.
Proof.
  split.
  - intros Ht. destruct (trim_decompose s) as (a & b & Hs & Ha & Hb).
    rewrite Ht in Hs; simpl in Hs.
    rewrite Hs, allWhiteSpace_app, Ha, Hb. reflexivity.
  - intros Hs. apply trimStart_allWhiteSpace in Hs.
    unfold trim, trimEnd. rewrite Hs. reflexivity.
Qed.

(** X1: [trim] takes nothing but white space, from the two ends: the
    string is white space, its trimmed form, and white space; and the
    trimmed form is empty exactly for a string of white space only. *)
Theorem trim_strips_white_space (s : jsstring) :
  (exists a b, s = a ++ trim s ++ b
               /\ allWhiteSpace a = true /\ allWhiteSpace b = true)
  /\ (trim s = [] <-> allWhiteSpace s = true).
Proof.
  split; [apply trim_decompose | apply trim_nil_iff].
Qed.

Lemma joinSegments_cons (seg : jsstring) (segs : list jsstring) :
  segs <> [] -> joinSegments (seg :: segs) = seg ++ 47 :: joinSegments segs.
Proof. destruct segs; [congruence | reflexivity]. Qed.

Lemma split_join (s : jsstring) : joinSegments (split 47 s) = s.
Proof.
  induction s as [|c r IH]; simpl; [reflexivity|].
  destruct (c =? 47) eqn:E.
  - apply N.eqb_eq in E; subst c.
    rewrite joinSegments_cons by apply split_nonempty.
    rewrite IH; reflexivity.
  - destruct (split 47 r) as [|seg segs] eqn:Er.
    + exfalso; apply (split_nonempty 47 r Er).
    + destruct segs as [|seg' segs'].
      * simpl in *; congruence.
      * rewrite joinSegments_cons in * by discriminate.
        rewrite <- IH; reflexivity.
Qed.

(** X2: the segments of a path are what is between its slashes, after the
    prefix: none holds a slash, and with a slash between two of them they
    give back the path without the prefix. *)
Theorem segments_of_path (p : jsstring) :
  segmentsOf (apiPrefix ++ p) = split 47 p
  /\ joinSegments (segmentsOf (apiPrefix ++ p)) = p
  /\ Forall (fun seg => includes 47 seg = false) (segmentsOf (apiPrefix ++ p))
  /\ segmentsOf (apiPrefix ++ p) <> [].
Proof.
  unfold segmentsOf. rewrite replace_empty_prefix.
  repeat split.
  - apply split_join.
  - apply Forall_forall. intros seg. apply split_segments.
  - apply split_nonempty.
Qed.

(** ** The store *)

Lemma set_set (id : jsstring) (d d' : ClientData) (st : ClientStore.t) :
  ClientStore.set id d (ClientStore.set id d' st) = ClientStore.set id d st.
Proof.
  induction st as [|[k e] r IH]; simpl.
  - rewrite str_eqb_refl; reflexivity.
  - destruct (str_eqb k id) eqn:E; simpl; rewrite E; [reflexivity|].
    rewrite IH; reflexivity.
Qed.

Lemma delete_set_fresh (id : jsstring) (d : ClientData) (st : ClientStore.t) :
  ClientStore.has id st = false ->
  ClientStore.delete id (ClientStore.set id d st) = st.
Proof.
  induction st as [|[k e] r IH]; simpl.
  - rewrite str_eqb_refl; reflexivity.
  - rewrite orb_false_iff. intros [E H]. rewrite E; simpl; rewrite E.
    rewrite (IH H); reflexivity.
Qed.

Lemma keys_delete (id : jsstring) (st : ClientStore.t) :
  ClientStore.keys (ClientStore.delete id st)
  = filter (fun k => negb (str_eqb k id)) (ClientStore.keys st).
Proof.
  induction st as [|[k e] r IH]; simpl; [reflexivity|].
  destruct (str_eqb k id); simpl; [exact IH|].
  unfold ClientStore.keys in *; rewrite IH; reflexivity.
Qed.

(** X3: [set] then [get]: the record written is the one read at its key,
    a second write at the key replaces the first, and reading or testing
    another key is not affected. *)
Theorem store_set_get (id k : jsstring) (d d' : ClientData)
  (st : ClientStore.t) :
  ClientStore.get k (ClientStore.set id d st)
  = (if str_eqb id k then Some d else ClientStore.get k st)
  /\ ClientStore.has k (ClientStore.set id d st)
     = (str_eqb id k || ClientStore.has k st)
  /\ ClientStore.set id d (ClientStore.set id d' st) = ClientStore.set id d st.
Proof.
  repeat split.
  - destruct (str_eqb id k) eqn:E.
    + apply str_eqb_eq in E; subst. apply StoreFacts.get_set_same.
    + apply StoreFacts.get_set_other. apply str_eqb_neq in E. congruence.
  - apply StoreFacts.has_set.
  - apply set_set.
Qed.

(** X4: [delete]: the key deleted is no more in the store, the other
    keys keep their records, the deletion of a key that is not in the
    store changes nothing, and a new key written then deleted leaves the
    store as it was. *)
Theorem store_delete (id k : jsstring) (d : ClientData) (st : ClientStore.t) :
  ClientStore.get k (ClientStore.delete id st)
  = (if str_eqb id k then None else ClientStore.get k st)
  /\ ClientStore.has id (ClientStore.delete id st) = false
  /\ (ClientStore.has id st = false -> ClientStore.delete id st = st)
  /\ (ClientStore.has id st = false ->
      ClientStore.delete id (ClientStore.set id d st) = st).
Proof.
  repeat split.
  - destruct (str_eqb id k) eqn:E.
    + apply str_eqb_eq in E; subst.
      pose proof (StoreFacts.has_delete_same k st) as H.
      rewrite StoreFacts.has_get in H.
      destruct (ClientStore.get k (ClientStore.delete k st));
        [discriminate | reflexivity].
    + apply StoreFacts.get_delete_other. apply str_eqb_neq in E. congruence.
  - apply StoreFacts.has_delete_same.
  - apply StoreFacts.delete_absent.
  - apply delete_set_fresh.
Qed.

(** X5: the order of the keys is the order of their first insertion: a
    write to a key of the store leaves the keys as they are, a write to a
    new key adds it at the end, a deletion takes the key out and leaves
    the others in their order; and no key comes twice after either, in a
    store where none did. *)
Theorem store_keys_order (id : jsstring) (d : ClientData)
  (st : ClientStore.t) :
  ClientStore.keys (ClientStore.set id d st)
  = (if ClientStore.has id st then ClientStore.keys st
     else ClientStore.keys st ++ [id])
  /\ ClientStore.keys (ClientStore.delete id st)
     = filter (fun k => negb (str_eqb k id)) (ClientStore.keys st)
  /\ (NoDup (ClientStore.keys st) ->
      NoDup (ClientStore.keys (ClientStore.set id d st))
      /\ NoDup (ClientStore.keys (ClientStore.delete id st))).
Proof.
  repeat split.
  - destruct (ClientStore.has id st) eqn:E.
    + apply StoreFacts.keys_set_present, E.
    + rewrite (StoreFacts.set_fresh id d st E).
      unfold ClientStore.keys. rewrite map_app. reflexivity.
  - apply keys_delete.
  - apply StoreFacts.NoDup_set, H.
  - apply StoreFacts.NoDup_delete, H.
Qed.

(** X6: [getAll] loses nothing: two stores with the same list are the
    same store, and the list has one element for each entry. *)
Theorem getAll_faithful (st st' : ClientStore.t) :
  List.length (ClientStore.getAll st) = List.length st
  /\ (ClientStore.getAll st = ClientStore.getAll st' -> st = st').
Proof.
  split; [apply length_map|].
  revert st'. induction st as [|[k [n l]] r IH]; intros [|[k' [n' l']] r'];
    simpl; try discriminate; [reflexivity|].
  intros H. injection H as Hk Hn Hl Hr.
  rewrite (IH r' Hr). congruence.
Qed.

Section EveryBody.

Variable URL_parses : jsstring -> bool.

(** ** The handler on every body *)

(** The statements from the parsed body to the check of the fields. *)
Lemma fields_eq (b : json) (st : ClientStore.t) (A : Type)
  (k : option json -> option json -> bool -> M A) :
  (fields <- destructure b ;;
   let (nm, dl) := fields in
   missing <- fieldsMissing nm dl ;;
   k nm dl missing) st
  = if throwsOn b then (Throw TypeError, st)
    else k (member b (js "name")) (member b (js "downloadLink"))
           (isEmpty (trimmedField (member b (js "name")))
            || isEmpty (trimmedField (member b (js "downloadLink")))) st.
Proof.
  assert (H : forall nm dl,
             (missing <- fieldsMissing nm dl ;; k nm dl missing) st
             = if negb (stringOrAbsent nm)
                  || (negb (isEmpty (trimmedField nm))
                      && negb (stringOrAbsent dl))
               then (Throw TypeError, st)
               else k nm dl (isEmpty (trimmedField nm)
                             || isEmpty (trimmedField dl)) st).
  { intros nm dl. unfold fieldsMissing, bind.
    destruct nm as [[| | |s| |]|]; simpl; try reflexivity.
    destruct (trim s) eqn:E; simpl; [reflexivity|].
    destruct dl as [[| | |t| |]|]; simpl; try reflexivity.
    destruct (trim t); reflexivity. }
  destruct b; try (unfold bind at 1; simpl; apply H).
  reflexivity.
Qed.

(** [createClient] on every body. *)
Lemma createClient_eq (ev : Event.t) (st : ClientStore.t) :
  createClient URL_parses ev st =
  match JSON_parse (bodyText (Event.body ev)) with
  | None => (Normal (respond 400 (errorBody "Invalid request body")), st)
  | Some b =>
      let n := trimmedField (member b (js "name")) in
      let l := trimmedField (member b (js "downloadLink")) in
      if throwsOn b then (Throw TypeError, st)
      else if isEmpty n || isEmpty l then
        (Normal (respond 400
                   (errorBody "Name and download link are required")), st)
      else if ClientStore.has n st then
        (Normal (respond 409
                   (errorBody "Client with this name already exists")), st)
      else if negb (URL_parses l) then
        (Normal (respond 400 (errorBody "Invalid download link URL")), st)
      else
        (Normal (respond 201 (clientBody n l)),
         ClientStore.set n {| name := n; downloadLink := l |} st)
  end.
Proof.
  unfold createClient.
  destruct (JSON_parse _) as [b|]; [|reflexivity].
  rewrite fields_eq. cbv zeta.
  destruct (throwsOn b); [reflexivity|].
  destruct (isEmpty (trimmedField (member b (js "name")))) eqn:En;
    [reflexivity|].
  destruct (isEmpty (trimmedField (member b (js "downloadLink")))) eqn:El;
    [reflexivity|].
  cbn [orb].
  rewrite (bind_normal _ _ _ _ _ (callTrim_trimmedField _ st En)).
  rewrite (bind_normal _ _ _ _ _ (callTrim_trimmedField _ st El)).
  unfold bind, has, set, ret.
  destruct (ClientStore.has _ st); [reflexivity|].
  destruct (URL_parses _); reflexivity.
Qed.

(** [updateClient] on every body. *)
Lemma updateClient_eq (id : jsstring) (ev : Event.t) (st : ClientStore.t) :
  updateClient URL_parses id ev st =
  match JSON_parse (bodyText (Event.body ev)) with
  | None => (Normal (respond 400 (errorBody "Invalid request body")), st)
  | Some b =>
      let n := trimmedField (member b (js "name")) in
      let l := trimmedField (member b (js "downloadLink")) in
      if throwsOn b then (Throw TypeError, st)
      else if isEmpty n || isEmpty l then
        (Normal (respond 400
                   (errorBody "Name and download link are required")), st)
      else if negb (ClientStore.has id st) then
        (Normal (respond 404 (errorBody "Client not found")), st)
      else if negb (URL_parses l) then
        (Normal (respond 400 (errorBody "Invalid download link URL")), st)
      else
        (Normal (respond 200 (clientBody n l)),
         ClientStore.set id {| name := n; downloadLink := l |} st)
  end.
Proof.
  unfold updateClient.
  destruct (JSON_parse _) as [b|]; [|reflexivity].
  rewrite fields_eq. cbv zeta.
  destruct (throwsOn b); [reflexivity|].
  destruct (isEmpty (trimmedField (member b (js "name")))) eqn:En;
    [reflexivity|].
  destruct (isEmpty (trimmedField (member b (js "downloadLink")))) eqn:El;
    [reflexivity|].
  cbn [orb]. unfold bind at 1, has at 1.
  destruct (ClientStore.has id st); [|reflexivity]. cbn [negb].
  rewrite (bind_normal _ _ _ _ _ (callTrim_trimmedField _ st En)).
  rewrite (bind_normal _ _ _ _ _ (callTrim_trimmedField _ st El)).
  unfold bind, set, ret.
  destruct (URL_parses _); reflexivity.
Qed.

Lemma segmentIs_true (v : option jsstring) (s : jsstring) :
  segmentIs v s = true -> v = Some s.
Proof.
  destruct v as [x|]; simpl; [|discriminate].
  intros H; apply str_eqb_eq in H; congruence.
Qed.

(** The branches of the handler: to prove [P] of what it returns,
    prove it of what each branch returns for the requests it takes. *)
Lemma handler_branches (P : Response.t * ClientStore.t -> Prop)
  (ev : Event.t) (st : ClientStore.t) :
  (Event.httpMethod ev = js "OPTIONS" -> P (respondEmpty 204, st)) ->
  (onClients "GET" ev -> P (catchAll (listClients st))) ->
  (forall id, onClient "GET" id ev -> P (catchAll (getClient id st))) ->
  (onClients "POST" ev -> P (catchAll (createClient URL_parses ev st))) ->
  (forall id, onClient "PUT" id ev ->
              P (catchAll (updateClient URL_parses id ev st))) ->
  (forall id, onClient "DELETE" id ev ->
              P (catchAll (deleteClient id st))) ->
  (Event.httpMethod ev <> js "OPTIONS" ->
   P (respond 404 (errorBody "Endpoint not found"), st)) ->
  P (handler URL_parses ev st).
Proof.
  intros Ho Hl Hg Hc Hu Hd Hn. unfold handler.
  destruct (str_eqb (Event.httpMethod ev) (js "OPTIONS")) eqn:Eo.
  { apply Ho, str_eqb_eq, Eo. }
  apply str_eqb_neq in Eo.
  unfold route; cbv zeta.
  set (seg0 := segment (segmentsOf (Event.path ev)) 0).
  set (seg1 := segment (segmentsOf (Event.path ev)) 1).
  assert (Hon : forall m : string,
             str_eqb (Event.httpMethod ev) (js m) && segmentIs seg0 (js "clients")
             = true -> onClients m ev).
  { intros m H. apply andb_true_iff in H as [Hm Hs].
    split; [apply str_eqb_eq, Hm | apply segmentIs_true, Hs]. }
  assert (Hon1 : forall m : string,
             str_eqb (Event.httpMethod ev) (js m) && segmentIs seg0 (js "clients")
             && truthy seg1 = true -> onClient m (theString seg1) ev).
  { intros m H. apply andb_true_iff in H as [Hm Ht].
    destruct (truthy_theString _ Ht) as [H1 H2].
    split; [apply Hon, Hm | split; assumption]. }
  destruct (_ && _ && negb _) eqn:E1.
  { apply Hl, Hon. apply andb_true_iff in E1 as [E1 _]. exact E1. }
  destruct (_ && _ && truthy seg1) eqn:E2; [apply Hg, Hon1, E2|].
  destruct (_ && _) eqn:E3 in |- *; [apply Hc, Hon, E3|].
  destruct (_ && _ && truthy seg1) eqn:E4 in |- *; [apply Hu, Hon1, E4|].
  destruct (_ && _ && truthy seg1) eqn:E5 in |- *; [apply Hd, Hon1, E5|].
  apply Hn, Eo.
Qed.

Lemma errorTable_answer (st : ClientStore.t) (code : N) (message : string) :
  In (code, js message) errorTable ->
  answer st (respond code (errorBody message)).
Proof. intros H. apply AnswerError, H. Qed.

Lemma handler_answer (ev : Event.t) (st : ClientStore.t) :
  answer st (fst (handler URL_parses ev st)).
Proof.
  apply handler_branches; simpl.
  - intros _; constructor.
  - intros _; constructor.
  - intros id _. unfold getClient, bind, get.
    destruct (ClientStore.get id st); simpl.
    + apply AnswerClient; auto.
    + apply errorTable_answer; simpl; tauto.
  - intros _. rewrite createClient_eq.
    destruct (JSON_parse _) as [b|]; cbv zeta;
      repeat match goal with
        | |- context [if ?c then _ else _] => destruct c
        end; simpl;
      try (apply errorTable_answer; simpl; tauto);
      try constructor; auto.
  - intros id _. rewrite updateClient_eq.
    destruct (JSON_parse _) as [b|]; cbv zeta;
      repeat match goal with
        | |- context [if ?c then _ else _] => destruct c
        end; simpl;
      try (apply errorTable_answer; simpl; tauto);
      try constructor; auto.
  - intros id _. unfold deleteClient, bind, has, delete, ret.
    destruct (ClientStore.has id st); simpl.
    + constructor.
    + apply errorTable_answer; simpl; tauto.
  - intros _. apply errorTable_answer; simpl; tauto.
Qed.

End EveryBody.

Section Responses.

Variable URL_parses : jsstring -> bool.

(** ** Every response *)

(** X7: every response of the handler carries the CORS headers, the
    errors and the response of the outer [catch] too. *)
Theorem every_response_has_cors_headers (ev : Event.t) (st : ClientStore.t) :
  Response.headers (fst (handler URL_parses ev st)) = corsHeaders.
Proof.
  destruct (handler_answer URL_parses ev st); reflexivity.
Qed.

(** X8: the status of a response is one of 200, 201, 204, 400, 404, 409
    and 500, and the response has a body unless its status is 204. *)
Theorem status_and_body (ev : Event.t) (st : ClientStore.t) :
  In (Response.statusCode (fst (handler URL_parses ev st)))
     [200; 201; 204; 400; 404; 409; 500]
  /\ (Response.body (fst (handler URL_parses ev st)) = None
      <-> Response.statusCode (fst (handler URL_parses ev st)) = 204).
Proof.
  destruct (handler_answer URL_parses ev st) as
    [ | | code message Hin | | code n l [-> | ->]]; simpl;
    try (split; [tauto | split; [discriminate | discriminate]]).
  - split; [tauto | split; reflexivity].
  - simpl in Hin.
    repeat (destruct Hin as [[= <- <-] | Hin];
            [simpl; split; [tauto | split; discriminate]|]).
    destruct Hin.
Qed.

(** X9: the handler answers 500 exactly when the request is a POST on
    [clients] or a PUT on a client and its body parses to a value the
    handler throws on: [null], a [name] that is neither a string nor
    absent, or a [name] that is not blank with a [downloadLink] that is
    neither a string nor absent. *)
Theorem internal_error_iff (ev : Event.t) (st : ClientStore.t) :
  Response.statusCode (fst (handler URL_parses ev st)) = 500
  <-> ((onClients "POST" ev \/ exists id, onClient "PUT" id ev)
       /\ exists b, JSON_parse (bodyText (Event.body ev)) = Some b
                    /\ throwsOn b = true).
Proof.
  split.
  - apply handler_branches; simpl.
    + intros _; discriminate.
    + intros _; discriminate.
    + intros id _. unfold getClient, bind, get.
      destruct (ClientStore.get _ st); discriminate.
    + intros Hr. rewrite createClient_eq.
      destruct (JSON_parse _) as [b|]; [|discriminate]. cbv zeta.
      destruct (throwsOn b) eqn:Et.
      * intros _. split; [left; exact Hr | exists b; auto].
      * repeat match goal with
          | |- context [if ?c then _ else _] => destruct c
          end; discriminate.
    + intros id Hr. rewrite updateClient_eq.
      destruct (JSON_parse _) as [b|]; [|discriminate]. cbv zeta.
      destruct (throwsOn b) eqn:Et.
      * intros _. split; [right; exists id; exact Hr | exists b; auto].
      * repeat match goal with
          | |- context [if ?c then _ else _] => destruct c
          end; discriminate.
    + intros id _. unfold deleteClient, bind, has, delete, ret.
      destruct (ClientStore.has _ st); discriminate.
    + intros _; discriminate.
  - intros [[Hr | [id Hr]] (b & Hp & Ht)].
    + rewrite (handler_route URL_parses "POST" ev st (proj1 Hr) eq_refl).
      rewrite (route_create URL_parses ev Hr), createClient_eq, Hp.
      cbv zeta. rewrite Ht. reflexivity.
    + rewrite (handler_route URL_parses "PUT" ev st (proj1 (proj1 Hr)) eq_refl).
      rewrite (route_update URL_parses ev id Hr), updateClient_eq, Hp.
      cbv zeta. rewrite Ht. reflexivity.
Qed.

(** X10: only POST, PUT and DELETE requests change the store. *)
Theorem other_methods_leave_store (ev : Event.t) (st : ClientStore.t) :
  Event.httpMethod ev <> js "POST" ->
  Event.httpMethod ev <> js "PUT" ->
  Event.httpMethod ev <> js "DELETE" ->
  snd (handler URL_parses ev st) = st.
Proof.
  intros Hp Hu Hd. apply handler_branches; simpl; auto.
  - intros id _. unfold getClient, bind, get.
    destruct (ClientStore.get _ st); reflexivity.
  - intros [Hm _]. congruence.
  - intros id [[Hm _] _]. congruence.
  - intros id [[Hm _] _]. congruence.
Qed.

(** X11: a request changes the record of one key at most: there is a key
    such that every other key is in the store after the request as it
    was before, with the record it had. *)
Theorem one_key_per_request (ev : Event.t) (st : ClientStore.t) :
  exists k,
    forall k', k' <> k ->
      ClientStore.get k' (snd (handler URL_parses ev st))
      = ClientStore.get k' st
      /\ ClientStore.has k' (snd (handler URL_parses ev st))
         = ClientStore.has k' st.
Proof.
  assert (Hh : forall st' : ClientStore.t,
             (exists k, forall k', k' <> k ->
                                   ClientStore.get k' st' = ClientStore.get k' st) ->
             exists k, forall k', k' <> k ->
               ClientStore.get k' st' = ClientStore.get k' st
               /\ ClientStore.has k' st' = ClientStore.has k' st).
  { intros st' [k H]. exists k. intros k' Hk. split; [apply H, Hk|].
    rewrite !StoreFacts.has_get, (H k' Hk). reflexivity. }
  apply Hh.
  destruct (handler_effect URL_parses ev st) as
    [r _ _ _ | | id d _ | n l _ _ _ _ _ _ | id n l _ _ _ _ _ _ | id _].
  - exists []; reflexivity.
  - exists []; reflexivity.
  - exists []; reflexivity.
  - exists n. intros k' Hk. apply StoreFacts.get_set_other, Hk.
  - exists id. intros k' Hk. apply StoreFacts.get_set_other, Hk.
  - exists id. intros k' Hk. apply StoreFacts.get_delete_other, Hk.
Qed.

End Responses.

Section InSequence.

Variable URL_parses : jsstring -> bool.

(** ** Requests in sequence *)

Lemma handler_post (ev : Event.t) (st : ClientStore.t) :
  onClients "POST" ev ->
  handler URL_parses ev st = catchAll (createClient URL_parses ev st).
Proof.
  intros Hr.
  rewrite (handler_route URL_parses "POST" ev st (proj1 Hr) eq_refl).
  rewrite (route_create URL_parses ev Hr). reflexivity.
Qed.

Lemma handler_put (ev : Event.t) (id : jsstring) (st : ClientStore.t) :
  onClient "PUT" id ev ->
  handler URL_parses ev st = catchAll (updateClient URL_parses id ev st).
Proof.
  intros Hr.
  rewrite (handler_route URL_parses "PUT" ev st (proj1 (proj1 Hr)) eq_refl).
  rewrite (route_update URL_parses ev id Hr). reflexivity.
Qed.

(** A POST answered 201: its body, and what it has written. *)
Lemma post_201 (ev : Event.t) (st : ClientStore.t) :
  onClients "POST" ev ->
  Response.statusCode (fst (handler URL_parses ev st)) = 201 ->
  exists b,
    let n := trimmedField (member b (js "name")) in
    let l := trimmedField (member b (js "downloadLink")) in
    JSON_parse (bodyText (Event.body ev)) = Some b
    /\ throwsOn b = false
    /\ isEmpty n || isEmpty l = false
    /\ ClientStore.has n st = false
    /\ URL_parses l = true
    /\ handler URL_parses ev st
       = (respond 201 (clientBody n l),
          ClientStore.set n {| name := n; downloadLink := l |} st).
Proof.
  intros Hr. rewrite (handler_post ev st Hr), createClient_eq.
  destruct (JSON_parse _) as [b|]; [|discriminate]. cbv zeta.
  destruct (throwsOn b) eqn:Et; [discriminate|].
  destruct (isEmpty _ || isEmpty _) eqn:Ee; [discriminate|].
  destruct (ClientStore.has _ st) eqn:Eh; [discriminate|].
  destruct (URL_parses _) eqn:Ev; [|discriminate].
  intros _. exists b. cbv zeta. rewrite Ee. auto 10.
Qed.

(** X12: a PUT is idempotent: the same request again is answered as the
    first time and leaves the store as the first left it. *)
Theorem put_twice (ev : Event.t) (id : jsstring) (st : ClientStore.t) :
  onClient "PUT" id ev ->
  handler URL_parses ev (snd (handler URL_parses ev st))
  = handler URL_parses ev st.
Proof.
  intros Hr.
  rewrite (handler_put ev id st Hr), (updateClient_eq URL_parses id ev st).
  destruct (JSON_parse (bodyText (Event.body ev))) as [b|] eqn:Hp; cbv zeta;
    [destruct (throwsOn b) eqn:Et;
     [|destruct (isEmpty _ || isEmpty _) eqn:Ee;
       [|destruct (ClientStore.has id st) eqn:Eh; cbn [negb];
         [destruct (URL_parses _) eqn:Ev; cbn [negb]|]]]|];
    cbn [catchAll snd];
    rewrite (handler_put ev id _ Hr), updateClient_eq, Hp; cbv zeta;
    rewrite ?Et, ?Ee, ?Eh; cbn [negb]; rewrite ?Ev; try reflexivity.
  rewrite StoreFacts.has_set, str_eqb_refl. cbn [orb negb catchAll].
  rewrite set_set. reflexivity.
Qed.

(** X13: a POST is not: after a creation, the same request again is
    answered 409 and leaves the store as the creation left it. *)
Theorem post_twice (ev : Event.t) (st : ClientStore.t) :
  onClients "POST" ev ->
  Response.statusCode (fst (handler URL_parses ev st)) = 201 ->
  handler URL_parses ev (snd (handler URL_parses ev st))
  = (respond 409 (errorBody "Client with this name already exists"),
     snd (handler URL_parses ev st)).
Proof.
  intros Hr H201.
  destruct (post_201 ev st Hr H201) as (b & Hp & Ht & He & Hh & Hv & Heq).
  rewrite Heq. simpl snd.
  rewrite (handler_post ev _ Hr), createClient_eq, Hp. cbv zeta.
  rewrite Ht, He, StoreFacts.has_set, str_eqb_refl. reflexivity.
Qed.




(** X15: a client deleted and created again comes last in the list: the
    keys after the two requests are the keys before them without the
    key, then the key. *)
Theorem delete_then_create (del ev : Event.t) (st : ClientStore.t)
  (id l : jsstring) :
  onClient "DELETE" id del ->
  ClientStore.has id st = true ->
  onClients "POST" ev ->
  fst (handler URL_parses ev (snd (handler URL_parses del st)))
  = respond 201 (clientBody id l) ->
  ClientStore.keys
    (snd (handler URL_parses ev (snd (handler URL_parses del st))))
  = filter (fun k => negb (str_eqb k id)) (ClientStore.keys st) ++ [id].
Proof.
  intros Hd Hh Hr Hf.
  rewrite (handler_delete URL_parses del id st Hd), Hh in Hf |- *.
  simpl snd in *.
  assert (H201 : Response.statusCode
                   (fst (handler URL_parses ev (ClientStore.delete id st)))
                 = 201) by (rewrite Hf; reflexivity).
  destruct (post_201 ev _ Hr H201) as (b & Hp & Ht & He & Hh' & Hv & Heq).
  rewrite Heq in Hf |- *. simpl in Hf. injection Hf as Hn Hl.
  simpl snd. rewrite Hn, Hl in *.
  rewrite (StoreFacts.set_fresh id _ _ Hh').
  unfold ClientStore.keys. rewrite map_app. simpl.
  fold (ClientStore.keys (ClientStore.delete id st)).
  rewrite keys_delete. reflexivity.
Qed.

(** X16: the id of a path ends at its first slash: a request on
    [/clients/{id}] for an [id] that holds a slash acts on the part of
    [id] before the slash; its DELETE deletes that client. *)
Theorem slash_ends_id (m : string) (ev : Event.t) (a rest : jsstring)
  (st : ClientStore.t) :
  Event.httpMethod ev = js m ->
  Event.path ev = apiPrefix ++ clientPath (a ++ 47 :: rest) ->
  a <> [] -> includes 47 a = false ->
  onClient m a ev
  /\ (m = "DELETE"%string -> ClientStore.has a st = true ->
      handler URL_parses ev st = (respondEmpty 204, ClientStore.delete a st)).
Proof.
  intros Hm Hp Ha Hs.
  assert (Hr : onClient m a ev).
  { unfold onClient, onClients. rewrite Hp. unfold segmentsOf.
    rewrite replace_empty_prefix.
    change (clientPath (a ++ 47 :: rest))
      with (js "clients" ++ 47 :: (a ++ 47 :: rest)).
    rewrite split_app by reflexivity.
    rewrite (split_app 47 a rest Hs). auto. }
  split; [exact Hr|].
  intros -> Hh. rewrite (handler_delete URL_parses ev a st Hr), Hh.
  reflexivity.
Qed.

End InSequence.

(** ** [JSON.stringify], then [JSON.parse] *)

Ltac euclid := zify; Z.to_euclidean_division_equations; lia.

Lemma hexDigit_hexLower (d : N) : d < 16 -> hexDigit (hexLower d) = Some d.
Proof.
  intros H. destruct d as [|p]; [reflexivity|].
  do 4 (destruct p as [p|p|]; try reflexivity); lia.
Qed.

Lemma parse_unicodeEscape (c : N) (t : jsstring) :
  c < 65536 ->
  parse_chars (unicodeEscape c ++ t) = consChar c (parse_chars t).
Proof.
  intros H. unfold unicodeEscape. cbn [app parse_chars].
  change (92 =? 34) with false. change (92 =? 92) with true.
  change (117 =? 117) with true. cbv iota.
  rewrite !hexDigit_hexLower by euclid.
  replace (((c / 4096 * 16 + (c / 256) mod 16) * 16 + (c / 16) mod 16) * 16
           + c mod 16) with c by euclid.
  reflexivity.
Qed.

Lemma parse_raw (c : N) (t : jsstring) :
  c <> 34 -> c <> 92 -> 32 <= c ->
  parse_chars (c :: t) = consChar c (parse_chars t).
Proof.
  intros H1 H2 H3. cbn [parse_chars].
  apply N.eqb_neq in H1, H2. rewrite H1, H2.
  assert ((c <? 32) = false) as -> by (apply N.ltb_ge; exact H3).
  reflexivity.
Qed.

Lemma parse_quoteCodeUnit (c : N) (t : jsstring) :
  parse_chars (quoteCodeUnit c ++ t) = consChar c (parse_chars t).
Proof.
  unfold quoteCodeUnit.
  repeat match goal with
    | |- context [if ?x =? ?y then _ else _] =>
        destruct (N.eqb_spec x y); [subst; reflexivity|]
    end.
  destruct (N.ltb_spec c 32).
  - apply parse_unicodeEscape. lia.
  - apply parse_raw; assumption.
Qed.

Lemma surrogate_bounds (c : N) :
  isHighSurrogate c || isLowSurrogate c = true ->
  c <> 34 /\ c <> 92 /\ 32 <= c /\ c < 65536.
Proof.
  unfold isHighSurrogate, isLowSurrogate.
  rewrite orb_true_iff, !andb_true_iff, !N.leb_le. lia.
Qed.

(** The characters of a quoted string are read back as the string. *)
Lemma parse_quoteChars (s rest : jsstring) :
  parse_chars (quoteChars s ++ 34 :: rest) = Some (s, rest).
Proof.
  remember (List.length s) as n eqn:Hn.
  assert (Hle : (List.length s <= n)%nat) by lia. clear Hn.
  revert s Hle. induction n as [|n IH]; intros s Hle.
  - destruct s; [reflexivity | simpl in Hle; lia].
  - destruct s as [|c r]; [reflexivity|]. simpl in Hle.
    cbn [quoteChars].
    destruct (isHighSurrogate c) eqn:Eh.
    + destruct (surrogate_bounds c) as (H1 & H2 & H3 & H4);
        [rewrite Eh; reflexivity|].
      destruct r as [|d r'].
      * rewrite parse_unicodeEscape by assumption. reflexivity.
      * simpl in Hle. destruct (isLowSurrogate d) eqn:El.
        -- destruct (surrogate_bounds d) as (H1' & H2' & H3' & H4');
             [rewrite El; apply orb_true_r|].
           cbn [app]. rewrite parse_raw by assumption.
           rewrite parse_raw by assumption.
           rewrite IH by lia. reflexivity.
        -- rewrite <- app_assoc, parse_unicodeEscape by assumption.
           rewrite IH by (simpl; lia). reflexivity.
    + destruct (isLowSurrogate c) eqn:El.
      * destruct (surrogate_bounds c) as (H1 & H2 & H3 & H4);
          [rewrite El; apply orb_true_r|].
        rewrite <- app_assoc, parse_unicodeEscape by assumption.
        rewrite IH by lia. reflexivity.
      * rewrite <- app_assoc, parse_quoteCodeUnit.
        rewrite IH by lia. reflexivity.
Qed.

Lemma parse_QuoteJSONString (f : nat) (s rest : jsstring) :
  parse_value (S f) (QuoteJSONString s ++ rest) = Parsed (JString s) rest.
Proof.
  unfold QuoteJSONString. cbn [app parse_value skip_ws isJSONWhiteSpace].
  change (parse_chars ((quoteChars s ++ [34]) ++ rest))
    with (parse_chars ((quoteChars s ++ [34]) ++ rest)).
  rewrite <- app_assoc. cbn [app].
  simpl. rewrite parse_quoteChars. reflexivity.
Qed.

(** *** More fuel changes no result *)

Lemma parse_more_fuel (f : nat) :
  (forall s f', (f <= f')%nat -> settled (parse_value f s) ->
                parse_value f' s = parse_value f s)
  /\ (forall s f', (f <= f')%nat -> settled (parse_elements f s) ->
                   parse_elements f' s = parse_elements f s)
  /\ (forall s f', (f <= f')%nat -> settled (parse_members f s) ->
                   parse_members f' s = parse_members f s).
Proof.
  induction f as [|f (IHv & IHe & IHm)];
    [repeat split; intros s f' _ []|].
  repeat split; intros s [|f'] Hle; try lia;
    cbn [parse_value parse_elements parse_members].
  - destruct (skip_ws s) as [|c t]; [reflexivity|].
    destruct (c =? 123).
    { destruct (eat 125 (skip_ws t)); [reflexivity|].
      intros H. rewrite (IHm t f' ltac:(lia)); [reflexivity|].
      destruct (parse_members f t); simpl in *; auto. }
    destruct (c =? 91).
    { destruct (eat 93 (skip_ws t)); [reflexivity|].
      intros H. rewrite (IHe t f' ltac:(lia)); [reflexivity|].
      destruct (parse_elements f t); simpl in *; auto. }
    reflexivity.
  - intros H.
    assert (Hv : settled (parse_value f s))
      by (destruct (parse_value f s); simpl in *; auto).
    rewrite (IHv s f' ltac:(lia) Hv).
    destruct (parse_value f s) as [v t| |]; try reflexivity.
    destruct (skip_ws t) as [|c t']; [reflexivity|].
    destruct (c =? 44); [|reflexivity].
    rewrite (IHe t' f' ltac:(lia)); [reflexivity|].
    destruct (parse_elements f t'); simpl in *; auto.
  - intros H.
    destruct (eat 34 (skip_ws s)) as [t|]; [|reflexivity].
    destruct (parse_chars t) as [[k t1]|]; [|reflexivity].
    destruct (eat 58 (skip_ws t1)) as [t2|]; [|reflexivity].
    assert (Hv : settled (parse_value f t2))
      by (destruct (parse_value f t2); simpl in *; auto).
    rewrite (IHv t2 f' ltac:(lia) Hv).
    destruct (parse_value f t2) as [v t3| |]; try reflexivity.
    destruct (skip_ws t3) as [|c t4]; [reflexivity|].
    destruct (c =? 44); [|reflexivity].
    rewrite (IHm t4 f' ltac:(lia)); [reflexivity|].
    destruct (parse_members f t4); simpl in *; auto.
Qed.

(** A text that parses with some fuel parses with the fuel of
    [JSON_parse]. *)
Lemma JSON_parse_fuel (f : nat) (text : jsstring) (v : json) :
  parse_value f text = Parsed v [] -> JSON_parse text = Some v.
Proof.
  intros H. unfold JSON_parse.
  pose proof (parse_value_fuel text) as Hs.
  set (F := (2 * List.length text + 2)%nat) in *.
  assert (E : parse_value F text = Parsed v []).
  { destruct (Nat.le_ge_cases f F) as [Hle | Hge].
    - rewrite (proj1 (parse_more_fuel f) text F Hle); [exact H|].
      rewrite H; exact I.
    - rewrite <- H. symmetry.
      apply (proj1 (parse_more_fuel F) text f Hge).
      destruct (parse_value F text); simpl; auto. }
  rewrite E. reflexivity.
Qed.

(** *** Values *)

Lemma json_nested_ind (P : json -> Prop) :
  P JNull ->
  (forall b, P (JBool b)) ->
  (forall l, P (JNumber l)) ->
  (forall s, P (JString s)) ->
  (forall vs, Forall P vs -> P (JArray vs)) ->
  (forall ms, Forall (fun kv => P (snd kv)) ms -> P (JObject ms)) ->
  forall j, P j.
Proof.
  intros Hnull Hbool Hnum Hstr Harr Hobj.
  fix IH 1. intros [|b|l|s|vs|ms].
  - exact Hnull.
  - apply Hbool.
  - apply Hnum.
  - apply Hstr.
  - apply Harr. induction vs as [|v vs IHvs]; constructor;
      [apply IH | exact IHvs].
  - apply Hobj. induction ms as [|[k v] ms IHms]; constructor;
      [apply IH | exact IHms].
Qed.

Lemma skip_ws_head (c : N) (t : jsstring) :
  isJSONWhiteSpace c = false -> skip_ws (c :: t) = c :: t.
Proof. intros H. simpl. rewrite H. reflexivity. Qed.

Lemma joinTexts_cons (sep : N) (x y : option jsstring)
  (ts : list (option jsstring)) :
  joinTexts sep (x :: y :: ts)
  = match x, joinTexts sep (y :: ts) with
    | Some a, Some b => Some (a ++ sep :: b)
    | _, _ => None
    end.
Proof. reflexivity. Qed.

Lemma readsBack_elements (vs : list json) :
  Forall readsBack vs -> vs <> [] ->
  forall t, joinTexts 44 (map JSON_stringify vs) = Some t ->
    (exists c t', t = c :: t' /\ isJSONWhiteSpace c = false /\ c <> 93)
    /\ forall rest, exists f0, forall f, (f0 <= f)%nat ->
         parse_elements f (t ++ 93 :: rest) = Parsed vs rest.
Proof.
  induction 1 as [|v vs Hv Hvs IH]; [congruence|]. intros _ t.
  destruct vs as [|v' vs'].
  - simpl. intros Ht. destruct (Hv t Ht) as [Hhead Hparse].
    split; [exact Hhead|]. intros rest.
    destruct (Hparse (93 :: rest)) as [f0 Hf0].
    exists (S f0). intros [|f] Hle; [lia|].
    cbn [parse_elements]. rewrite Hf0 by lia. reflexivity.
  - cbn [map]. rewrite joinTexts_cons.
    destruct (JSON_stringify v) as [a|] eqn:Ea; [|discriminate].
    destruct (joinTexts 44 (JSON_stringify v' :: map JSON_stringify vs'))
      as [b|] eqn:Eb; [|discriminate].
    intros [= <-].
    destruct (Hv a Ea) as [(c & a' & -> & Hc & Hc') Hparse].
    destruct (IH ltac:(discriminate) b Eb) as [_ Hrest].
    split; [exists c, (a' ++ 44 :: b); auto|].
    intros rest.
    destruct (Hparse (44 :: b ++ 93 :: rest)) as [f0 Hf0].
    destruct (Hrest rest) as [f1 Hf1].
    exists (S (Nat.max f0 f1)). intros [|f] Hle; [lia|].
    cbn [parse_elements].
    replace (((c :: a') ++ 44 :: b) ++ 93 :: rest)
      with ((c :: a') ++ 44 :: b ++ 93 :: rest)
      by (rewrite <- app_assoc; reflexivity).
    rewrite Hf0 by lia. rewrite skip_ws_head by reflexivity.
    change (44 =? 44) with true. cbv iota.
    rewrite Hf1 by lia. reflexivity.
Qed.

Lemma readsBack_members (ms : list (jsstring * json)) :
  Forall (fun kv => readsBack (snd kv)) ms -> ms <> [] ->
  forall t, joinTexts 44 (map memberText ms) = Some t ->
    (exists t', t = 34 :: t')
    /\ forall rest, exists f0, forall f, (f0 <= f)%nat ->
         parse_members f (t ++ 125 :: rest) = Parsed ms rest.
Proof.
  assert (Hone : forall (k : jsstring) (v : json) (a tail : jsstring) f0,
             (forall f, (f0 <= f)%nat ->
                        parse_value f (a ++ tail) = Parsed v tail) ->
             forall f, (f0 <= f)%nat ->
               parse_members (S f) ((QuoteJSONString k ++ 58 :: a) ++ tail)
               = match skip_ws tail with
                 | c :: r4 =>
                     if c =? 44 then
                       match parse_members f r4 with
                       | Parsed ms' r5 => Parsed ((k, v) :: ms') r5
                       | SyntaxError => SyntaxError
                       | OutOfFuel => OutOfFuel
                       end
                     else if c =? 125 then Parsed [(k, v)] r4
                     else SyntaxError
                 | [] => SyntaxError
                 end).
  { intros k v a tail f0 Hf0 f Hle. cbn [parse_members].
    unfold QuoteJSONString. rewrite <- !app_assoc. cbn [app].
    rewrite skip_ws_head by reflexivity. cbn [eat].
    change (34 =? 34) with true. cbv iota.
    rewrite <- app_assoc. cbn [app]. rewrite parse_quoteChars.
    rewrite skip_ws_head by reflexivity. cbn [eat].
    change (58 =? 58) with true. cbv iota.
    rewrite (Hf0 f Hle). reflexivity. }
  induction 1 as [|[k v] ms Hv Hms IH]; [congruence|]. intros _ t.
  destruct ms as [|kv' ms'].
  - cbn [map joinTexts]. unfold memberText. cbn [fst snd] in *.
    destruct (JSON_stringify v) as [a|] eqn:Ea; [|discriminate].
    intros [= <-]. destruct (Hv a Ea) as [_ Hparse].
    split; [eexists; reflexivity|]. intros rest.
    destruct (Hparse (125 :: rest)) as [f0 Hf0].
    exists (S f0). intros [|f] Hle; [lia|].
    change (parse_members (S f) ((QuoteJSONString k ++ 58 :: a)
                                 ++ 125 :: rest) = Parsed [(k, v)] rest).
    rewrite (Hone k v a (125 :: rest) f0 Hf0 f ltac:(lia)).
    reflexivity.
  - cbn [map]. rewrite joinTexts_cons. unfold memberText at 1.
    cbn [fst snd] in *.
    destruct (JSON_stringify v) as [a|] eqn:Ea; [|discriminate].
    destruct (joinTexts 44 (memberText kv' :: map memberText ms'))
      as [b|] eqn:Eb; [|discriminate].
    intros [= <-]. destruct (Hv a Ea) as [_ Hparse].
    destruct (IH ltac:(discriminate) b Eb) as [_ Hrest].
    split; [eexists; reflexivity|]. intros rest.
    destruct (Hparse (44 :: b ++ 125 :: rest)) as [f0 Hf0].
    destruct (Hrest rest) as [f1 Hf1].
    exists (S (Nat.max f0 f1)). intros [|f] Hle; [lia|].
    assert (Ht : ((QuoteJSONString k ++ 58 :: a) ++ 44 :: b) ++ 125 :: rest
                 = (QuoteJSONString k ++ 58 :: a) ++ 44 :: b ++ 125 :: rest)
      by (rewrite <- !app_assoc; reflexivity).
    change (parse_members (S f)
              (((QuoteJSONString k ++ 58 :: a) ++ 44 :: b) ++ 125 :: rest)
            = Parsed ((k, v) :: kv' :: ms') rest).
    rewrite Ht.
    rewrite (Hone k v a _ f0 Hf0 f ltac:(lia)).
    rewrite skip_ws_head by reflexivity.
    change (44 =? 44) with true. cbv iota.
    rewrite Hf1 by lia. reflexivity.
Qed.

Lemma JSON_stringify_object (ms : list (jsstring * json)) :
  JSON_stringify (JObject ms)
  = match joinTexts 44 (map memberText ms) with
    | Some t => Some (123 :: t ++ [125])
    | None => None
    end.
Proof. reflexivity. Qed.

(** Every value is read back. *)
Lemma readsBack_all (j : json) : readsBack j.
Proof.
  induction j as [|b|l|s|vs IH|ms IH] using json_nested_ind; intros text.
  - intros [= <-]. split; [exists 110, (js "ull"); repeat split; discriminate|].
    intros rest. exists 1%nat. intros [|f] Hle; [lia | reflexivity].
  - destruct b; intros [= <-].
    + split; [exists 116, (js "rue"); repeat split; discriminate|].
      intros rest. exists 1%nat. intros [|f] Hle; [lia | reflexivity].
    + split; [exists 102, (js "alse"); repeat split; discriminate|].
      intros rest. exists 1%nat. intros [|f] Hle; [lia | reflexivity].
  - discriminate.
  - intros [= <-].
    split; [exists 34, (quoteChars s ++ [34]); repeat split; discriminate|].
    intros rest. exists 1%nat. intros [|f] Hle; [lia|].
    apply parse_QuoteJSONString.
  - cbn [JSON_stringify].
    destruct (joinTexts 44 (map JSON_stringify vs)) as [t|] eqn:Et;
      [|discriminate].
    intros [= <-].
    split; [exists 91, (t ++ [93]); repeat split; discriminate|].
    intros rest. destruct vs as [|v vs'].
    + simpl in Et. injection Et as <-.
      exists 1%nat. intros [|f] Hle; [lia | reflexivity].
    + destruct (readsBack_elements (v :: vs') IH ltac:(discriminate) t Et)
        as [(c & t' & -> & Hc & Hc') Hparse].
      destruct (Hparse rest) as [f0 Hf0].
      exists (S f0). intros [|f] Hle; [lia|].
      cbn [parse_value app]. rewrite skip_ws_head by reflexivity.
      change (91 =? 123) with false. change (91 =? 91) with true. cbv iota.
      rewrite <- app_assoc. cbn [app].
      rewrite skip_ws_head by exact Hc. cbn [eat].
      apply N.eqb_neq in Hc'. rewrite Hc'.
      change (c :: t' ++ 93 :: rest) with ((c :: t') ++ 93 :: rest).
      rewrite Hf0 by lia. reflexivity.
  - rewrite JSON_stringify_object.
    destruct (joinTexts 44 (map memberText ms)) as [t|] eqn:Et;
      [|discriminate].
    intros [= <-].
    split; [exists 123, (t ++ [125]); repeat split; discriminate|].
    intros rest. destruct ms as [|kv ms'].
    + simpl in Et. injection Et as <-.
      exists 1%nat. intros [|f] Hle; [lia | reflexivity].
    + destruct (readsBack_members (kv :: ms') IH ltac:(discriminate) t Et)
        as [[t' ->] Hparse].
      destruct (Hparse rest) as [f0 Hf0].
      exists (S f0). intros [|f] Hle; [lia|].
      cbn [parse_value app]. rewrite skip_ws_head by reflexivity.
      change (123 =? 123) with true. cbv iota.
      rewrite <- app_assoc. cbn [app].
      rewrite skip_ws_head by reflexivity. cbn [eat].
      change (34 =? 125) with false. cbv iota.
      change (34 :: t' ++ 125 :: rest) with ((34 :: t') ++ 125 :: rest).
      rewrite Hf0 by lia. reflexivity.
Qed.

Lemma numberFree_stringify (j : json) :
  numberFree j = true -> exists text, JSON_stringify j = Some text.
Proof.
  induction j as [|b|l|s|vs IH|ms IH] using json_nested_ind.
  - simpl; eauto.
  - destruct b; simpl; eauto.
  - discriminate.
  - simpl; eauto.
  - cbn [JSON_stringify numberFree]. intros Hn.
    assert (H : exists t, joinTexts 44 (map JSON_stringify vs) = Some t).
    { induction IH as [|v vs' Hv _ IHvs]; [simpl; eauto|].
      simpl in Hn. apply andb_true_iff in Hn as [Hn1 Hn2].
      destruct (Hv Hn1) as [a Ea]. destruct (IHvs Hn2) as [b Eb].
      destruct vs' as [|v' vs'']; [simpl; eauto|].
      cbn [map] in *. rewrite joinTexts_cons, Ea, Eb. eauto. }
    destruct H as [t ->]. eauto.
  - rewrite JSON_stringify_object. cbn [numberFree]. intros Hn.
    assert (H : exists t, joinTexts 44 (map memberText ms) = Some t).
    { induction IH as [|[k v] ms' Hv _ IHms]; [simpl; eauto|].
      simpl in Hn. apply andb_true_iff in Hn as [Hn1 Hn2].
      destruct (Hv Hn1) as [a Ea]. destruct (IHms Hn2) as [b Eb].
      cbn [snd] in Ea.
      assert (Em : memberText (k, v) = Some (QuoteJSONString k ++ 58 :: a))
        by (unfold memberText; cbn [fst snd]; rewrite Ea; reflexivity).
      destruct ms' as [|kv' ms'']; [cbn [map joinTexts]; rewrite Em; eauto|].
      cbn [map] in *. rewrite joinTexts_cons, Em, Eb. eauto. }
    destruct H as [t ->]. eauto.
Qed.

Lemma stringify_parse (j : json) :
  numberFree j = true ->
  exists text, JSON_stringify j = Some text /\ JSON_parse text = Some j.
Proof.
  intros Hn. destruct (numberFree_stringify j Hn) as [text Ht].
  exists text. split; [exact Ht|].
  destruct (readsBack_all j text Ht) as [_ Hparse].
  destruct (Hparse []) as [f0 Hf0].
  apply (JSON_parse_fuel f0). rewrite <- (app_nil_r text) at 1.
  apply Hf0. lia.
Qed.

Section PanelAndHandler.

Variable URL_parses : jsstring -> bool.

(** ** The panel and the handler *)

(** X17: [JSON.parse] reads back what [JSON.stringify] writes: a value
    without a number has a text, and the text parses to the value. *)
Theorem stringify_then_parse (j : json) :
  numberFree j = true ->
  exists text, JSON_stringify j = Some text /\ JSON_parse text = Some j.
Proof. apply stringify_parse. Qed.

Lemma numberFree_getAll (st : ClientStore.t) :
  forallb numberFree (ClientStore.getAll st) = true.
Proof.
  unfold ClientStore.getAll. induction st as [|[k d] r IH]; simpl; auto.
Qed.

Lemma answer_numberFree (st : ClientStore.t) (r : Response.t) (j : json) :
  answer st r -> Response.body r = Some (Stringify j) ->
  numberFree j = true.
Proof.
  intros [ | | code message _ | | code n l _]; simpl; try discriminate;
    intros [= <-]; try reflexivity.
  apply numberFree_getAll.
Qed.

(** X18: the body of every response that has one, but the response of
    the outer [catch], is a text that [JSON.parse] reads back as the
    value the handler serialized: what [response.json()] gives the
    panel is the list, the client or the error of the handler. *)
Theorem response_body_reads_back (ev : Event.t) (st : ClientStore.t)
  (j : json) :
  Response.body (fst (handler URL_parses ev st)) = Some (Stringify j) ->
  exists text,
    bodyOf (fst (handler URL_parses ev st)) = Some text
    /\ JSON_parse text = Some j.
Proof.
  intros Hb.
  pose proof (answer_numberFree st _ j (handler_answer URL_parses ev st) Hb)
    as Hn.
  destruct (stringify_parse j Hn) as (text & Ht & Hp).
  exists text. unfold bodyOf. rewrite Hb. auto.
Qed.

Lemma isEmpty_memberBlank (v : option json) :
  isEmpty (trimmedField v) = memberBlank v.
Proof.
  destruct v as [[| | |s| |]|]; try reflexivity. simpl.
  destruct (allWhiteSpace s) eqn:E.
  - apply trim_nil_iff in E. rewrite E. reflexivity.
  - destruct (trim s) eqn:Et; [|reflexivity].
    apply trim_nil_iff in Et. congruence.
Qed.

(** X19: the error for missing fields is the answer to a body of the
    declared shape exactly when its [name] or its [downloadLink] is
    absent, [null] or white space only. *)
Theorem required_iff_blank (ev : Event.t) (st : ClientStore.t) (b : json) :
  onClients "POST" ev \/ (exists id, onClient "PUT" id ev) ->
  JSON_parse (bodyText (Event.body ev)) = Some b ->
  declaredShape b = true ->
  (fst (handler URL_parses ev st)
   = respond 400 (errorBody "Name and download link are required")
   <-> memberBlank (member b (js "name"))
       || memberBlank (member b (js "downloadLink")) = true).
Proof.
  intros Hr Hp Hs.
  rewrite <- !isEmpty_memberBlank.
  destruct Hr as [Hr | [id Hr]].
  - rewrite (handler_route URL_parses "POST" ev st (proj1 Hr) eq_refl).
    rewrite (route_create URL_parses ev Hr).
    rewrite (createClient_declared URL_parses ev st b Hp Hs). cbv zeta.
    destruct (isEmpty _ || isEmpty _); [split; reflexivity|].
    destruct (ClientStore.has _ st); [split; discriminate|].
    destruct (URL_parses _); split; discriminate.
  - rewrite (handler_route URL_parses "PUT" ev st (proj1 (proj1 Hr)) eq_refl).
    rewrite (route_update URL_parses ev id Hr).
    rewrite (updateClient_declared URL_parses id ev st b Hp Hs). cbv zeta.
    destruct (isEmpty _ || isEmpty _); [split; reflexivity|].
    destruct (ClientStore.has _ st); [|split; discriminate].
    destruct (URL_parses _); split; discriminate.
Qed.

(** What the panel sends is read by the handler as it was written. *)
Lemma sent_body (n l : jsstring) (ev : Event.t) :
  Event.body ev = JSON_stringify (clientBody n l) ->
  JSON_parse (bodyText (Event.body ev)) = Some (clientBody n l).
Proof.
  intros Hb.
  destruct (stringify_parse (clientBody n l) eq_refl) as (text & Ht & Hp).
  rewrite Hb, Ht.
  assert (Hne : exists c t, text = c :: t).
  { destruct (readsBack_all _ text Ht) as [(c & t & -> & _) _]. eauto. }
  destruct Hne as (c & t & ->). exact Hp.
Qed.

Lemma blank_false (s : jsstring) : blank s = false -> isEmpty (trim s) = false.
Proof.
  unfold blank. destruct (trim s); simpl; [discriminate | reflexivity].
Qed.

(** X20: what [handleAdd] sends passes the checks of the body: a POST on
    [clients] with the body of its [fetch] is answered 409 when the
    trimmed name is a key of the store, 400 for the link when the
    trimmed link does not parse as a URL, and otherwise 201 with the
    trimmed name and link, stored under the trimmed name; never with
    the error for a body that does not parse or for missing fields, and
    never 500. *)
Theorem handleAdd_accepted (newName newLink m url : jsstring)
  (body : option jsstring) (ev : Event.t) (st : ClientStore.t) :
  handleAdd newName newLink = Fetch m url body ->
  onClients "POST" ev ->
  Event.body ev = body ->
  let n := trim newName in
  let l := trim newLink in
  m = js "POST" /\ url = js "/api/clients"
  /\ handler URL_parses ev st
     = if ClientStore.has n st then
         (respond 409 (errorBody "Client with this name already exists"), st)
       else if URL_parses l then
         (respond 201 (clientBody n l),
          ClientStore.set n {| name := n; downloadLink := l |} st)
       else (respond 400 (errorBody "Invalid download link URL"), st).
Proof.
  intros Hf Hr Hb n l. unfold handleAdd in Hf.
  destruct (blank newName || blank newLink) eqn:E; [discriminate|].
  apply orb_false_iff in E as [En El].
  apply blank_false in En, El.
  injection Hf as <- <- <-. split; [reflexivity|]. split; [reflexivity|].
  pose proof (sent_body _ _ ev Hb) as Hp.
  rewrite (handler_route URL_parses "POST" ev st (proj1 Hr) eq_refl).
  rewrite (route_create URL_parses ev Hr).
  rewrite (createClient_declared URL_parses ev st _ Hp eq_refl). cbv zeta.
  change (member (clientBody (trim newName) (trim newLink)) (js "name"))
    with (Some (JString (trim newName))).
  change (member (clientBody (trim newName) (trim newLink))
            (js "downloadLink"))
    with (Some (JString (trim newLink))).
  cbn [trimmedField]. rewrite !trim_idempotent, En, El. cbn [orb].
  fold n l. destruct (ClientStore.has n st); [reflexivity|].
  destruct (URL_parses l); reflexivity.
Qed.

(** X21: the same for [handleEdit]: a PUT on the client [id] with the
    body of its [fetch] is answered 404 when [id] is no key of the
    store, 400 for the link when the trimmed link does not parse as a
    URL, and otherwise 200 with the trimmed name and link, written at
    [id]. *)
Theorem handleEdit_accepted (id editName editLink m url : jsstring)
  (body : option jsstring) (ev : Event.t) (st : ClientStore.t) :
  handleEdit id editName editLink = Fetch m url body ->
  onClient "PUT" id ev ->
  Event.body ev = body ->
  let n := trim editName in
  let l := trim editLink in
  m = js "PUT" /\ url = js "/api/clients/" ++ id
  /\ handler URL_parses ev st
     = if negb (ClientStore.has id st) then
         (respond 404 (errorBody "Client not found"), st)
       else if URL_parses l then
         (respond 200 (clientBody n l),
          ClientStore.set id {| name := n; downloadLink := l |} st)
       else (respond 400 (errorBody "Invalid download link URL"), st).
Proof.
  intros Hf Hr Hb n l. unfold handleEdit in Hf.
  destruct (blank editName || blank editLink) eqn:E; [discriminate|].
  apply orb_false_iff in E as [En El].
  apply blank_false in En, El.
  injection Hf as <- <- <-. split; [reflexivity|]. split; [reflexivity|].
  pose proof (sent_body _ _ ev Hb) as Hp.
  rewrite (handler_route URL_parses "PUT" ev st (proj1 (proj1 Hr)) eq_refl).
  rewrite (route_update URL_parses ev id Hr).
  rewrite (updateClient_declared URL_parses id ev st _ Hp eq_refl). cbv zeta.
  change (member (clientBody (trim editName) (trim editLink)) (js "name"))
    with (Some (JString (trim editName))).
  change (member (clientBody (trim editName) (trim editLink))
            (js "downloadLink"))
    with (Some (JString (trim editLink))).
  cbn [trimmedField]. rewrite !trim_idempotent, En, El. cbn [orb].
  fold n l. destruct (ClientStore.has id st); [|reflexivity]. cbn [negb].
  destruct (URL_parses l); reflexivity.
Qed.

End PanelAndHandler.

(** ** The link of a client *)

Lemma unreserved_not_surrogate (c : N) :
  isUnreserved c = true ->
  isHighSurrogate c = false /\ isLowSurrogate c = false /\ c <> 37.
Proof.
  unfold isUnreserved, isAlpha, isDigit, isHighSurrogate, isLowSurrogate.
  rewrite !orb_true_iff, !andb_true_iff, !andb_false_iff, !N.leb_le,
    !N.leb_gt, !N.eqb_eq. lia.
Qed.

Lemma hexUpper_encoded (d : N) : d < 16 -> isEncoded (hexUpper d) = true.
Proof.
  intros H. destruct d as [|p]; [reflexivity|].
  do 4 (destruct p as [p|p|]; try reflexivity); lia.
Qed.

Lemma percent_encoded (o : N) : o < 256 -> Forall (fun c => isEncoded c = true) (percent o).
Proof.
  intros H. unfold percent.
  repeat constructor; apply hexUpper_encoded; euclid.
Qed.

Lemma utf8_octets (cp : N) :
  cp < 1114112 -> Forall (fun o => o < 256) (utf8 cp).
Proof.
  intros H. unfold utf8.
  destruct (N.ltb_spec cp 128); [repeat constructor; lia|].
  destruct (N.ltb_spec cp 2048); [repeat constructor; euclid|].
  destruct (N.ltb_spec cp 65536); repeat constructor; euclid.
Qed.

Lemma percentEncode_encoded (cp : N) :
  cp < 1114112 -> Forall (fun c => isEncoded c = true) (percentEncode cp).
Proof.
  intros H. unfold percentEncode.
  pose proof (utf8_octets cp H) as Ho.
  induction Ho as [|o os Ho _ IH]; cbn [flat_map]; [constructor|].
  apply Forall_app. split; [apply percent_encoded, Ho | exact IH].
Qed.

Lemma codePoint_bounds (hi lo : N) :
  isHighSurrogate hi = true -> isLowSurrogate lo = true ->
  65536 <= codePoint hi lo /\ codePoint hi lo < 1114112.
Proof.
  unfold isHighSurrogate, isLowSurrogate, codePoint.
  rewrite !andb_true_iff, !N.leb_le. lia.
Qed.

(** Induction on a string, one or two code units at a time. *)
Lemma string_ind2 (P : jsstring -> Prop) :
  P [] ->
  (forall c r, P r -> (forall d r', r = d :: r' -> P r') -> P (c :: r)) ->
  forall s, P s.
Proof.
  intros Hnil Hcons s.
  assert (H : P s /\ forall d r', s = d :: r' -> P r').
  { induction s as [|c r [IH1 IH2]].
    - split; [exact Hnil | discriminate].
    - split; [apply Hcons; assumption|].
      intros d r' [= -> ->]. exact IH1. }
  apply H.
Qed.

Lemma encode_characters (s e : jsstring) :
  Forall (fun c => c < 65536) s ->
  encodeURIComponent s = Some e ->
  Forall (fun c => isEncoded c = true) e.
Proof.
  revert e. induction s as [|c r IH1 IH2] using string_ind2; intros e Hs.
  - intros [= <-]. constructor.
  - inversion Hs as [|? ? Hc Hr]; subst. cbn [encodeURIComponent].
    destruct (isUnreserved c) eqn:Eu.
    + destruct (encodeURIComponent r) as [e1|]; [|discriminate].
      intros [= <-]. constructor; [|apply IH1; auto].
      unfold isEncoded. rewrite Eu. reflexivity.
    + destruct (isHighSurrogate c) eqn:Eh.
      * destruct r as [|d r']; [discriminate|].
        destruct (isLowSurrogate d) eqn:El; [|discriminate].
        destruct (encodeURIComponent r') as [e1|] eqn:E1; [|discriminate].
        intros [= <-]. apply Forall_app. split.
        -- apply percentEncode_encoded.
           apply (codePoint_bounds c d Eh El).
        -- inversion Hr; subst. apply (IH2 d r' eq_refl); auto.
      * destruct (isLowSurrogate c); [discriminate|].
        destruct (encodeURIComponent r) as [e1|]; [|discriminate].
        intros [= <-]. apply Forall_app. split.
        -- apply percentEncode_encoded. lia.
        -- apply IH1; auto.
Qed.

Lemma encode_unreserved (s : jsstring) :
  forallb isUnreserved s = true -> encodeURIComponent s = Some s.
Proof.
  induction s as [|c r IH]; simpl; [reflexivity|].
  rewrite andb_true_iff. intros [-> Hr]. rewrite (IH Hr). reflexivity.
Qed.

Lemma encode_None_iff (s : jsstring) :
  encodeURIComponent s = None <-> isWellFormed s = false.
Proof.
  induction s as [|c r IH1 IH2] using string_ind2.
  - simpl. split; discriminate.
  - cbn [encodeURIComponent isWellFormed].
    destruct (isUnreserved c) eqn:Eu.
    + destruct (unreserved_not_surrogate c Eu) as (-> & -> & _).
      rewrite <- IH1. destruct (encodeURIComponent r); split; congruence.
    + destruct (isHighSurrogate c).
      * destruct r as [|d r']; [tauto|].
        destruct (isLowSurrogate d); [|tauto]. simpl.
        rewrite <- (IH2 d r' eq_refl).
        destruct (encodeURIComponent r'); split; congruence.
      * destruct (isLowSurrogate c); [tauto|].
        rewrite <- IH1. destruct (encodeURIComponent r); split; congruence.
Qed.

Lemma hexUpper_inj (d d' : N) :
  d < 16 -> d' < 16 -> hexUpper d = hexUpper d' -> d = d'.
Proof.
  unfold hexUpper. intros H H'.
  destruct (N.ltb_spec d 10), (N.ltb_spec d' 10); lia.
Qed.

Lemma percent_inj (o o' : N) (t t' : jsstring) :
  o < 256 -> o' < 256 ->
  37 :: hexUpper (o / 16) :: hexUpper (o mod 16) :: t
  = 37 :: hexUpper (o' / 16) :: hexUpper (o' mod 16) :: t' ->
  o = o' /\ t = t'.
Proof.
  intros H H' [= H1 H2 Ht].
  apply hexUpper_inj in H1; [|euclid..].
  apply hexUpper_inj in H2; [|euclid..].
  split; [euclid | exact Ht].
Qed.

(** The octets of a code point, by the range of the first one, and
    the code point from them. *)
Lemma utf8_decode (cp : N) :
  cp < 1114112 ->
  match utf8 cp with
  | [a] => a < 128 /\ cp = a
  | [a; b] =>
      192 <= a < 224 /\ b < 256 /\ cp = (a - 192) * 64 + (b - 128)
  | [a; b; c] =>
      224 <= a < 240 /\ b < 256 /\ c < 256
      /\ cp = (a - 224) * 4096 + (b - 128) * 64 + (c - 128)
  | [a; b; c; d] =>
      240 <= a < 256 /\ b < 256 /\ c < 256 /\ d < 256
      /\ cp = (a - 240) * 262144 + (b - 128) * 4096
              + (c - 128) * 64 + (d - 128)
  | _ => False
  end.
Proof.
  intros H. unfold utf8.
  destruct (N.ltb_spec cp 128); [lia|].
  destruct (N.ltb_spec cp 2048); [euclid|].
  destruct (N.ltb_spec cp 65536); euclid.
Qed.

Lemma percentEncode_inj (cp cp' : N) (e e' : jsstring) :
  cp < 1114112 -> cp' < 1114112 ->
  percentEncode cp ++ e = percentEncode cp' ++ e' ->
  cp = cp' /\ e = e'.
Proof.
  intros Hc Hc'.
  pose proof (utf8_decode cp Hc) as Hd.
  pose proof (utf8_decode cp' Hc') as Hd'.
  unfold percentEncode. revert Hd Hd'.
  destruct (utf8 cp) as [|a [|b [|c [|d [|? ?]]]]]; try contradiction;
    destruct (utf8 cp') as [|a' [|b' [|c' [|d' [|? ?]]]]];
    try contradiction;
    cbn [flat_map percent app]; intros Hd Hd' Heq;
    apply percent_inj in Heq; try lia;
    destruct Heq as [Hlead Heq]; try (exfalso; lia);
    repeat (apply percent_inj in Heq; try lia;
            let Hn := fresh "Hn" in destruct Heq as [Hn Heq]);
    (split; [lia | exact Heq]).
Qed.

Lemma percentEncode_head (cp : N) : exists t, percentEncode cp = 37 :: t.
Proof.
  unfold percentEncode, utf8.
  repeat match goal with
         | |- context [if ?a <? ?b then _ else _] =>
             destruct (a <? b)
         end; cbn [flat_map percent app]; eexists; reflexivity.
Qed.

Lemma encode_cons (c : N) (r e : jsstring) :
  encodeURIComponent (c :: r) = Some e ->
  (isUnreserved c = true
   /\ exists e1, encodeURIComponent r = Some e1 /\ e = c :: e1)
  \/ (isUnreserved c = false /\ isHighSurrogate c = false
      /\ exists e1, encodeURIComponent r = Some e1
                    /\ e = percentEncode c ++ e1)
  \/ (isUnreserved c = false /\ isHighSurrogate c = true
      /\ exists d r' e1,
          r = d :: r' /\ isLowSurrogate d = true
          /\ encodeURIComponent r' = Some e1
          /\ e = percentEncode (codePoint c d) ++ e1).
Proof.
  cbn [encodeURIComponent].
  destruct (isUnreserved c).
  - destruct (encodeURIComponent r) as [e1|] eqn:E1; [|discriminate].
    intros [= <-]. left. split; [reflexivity|]. exists e1. auto.
  - destruct (isHighSurrogate c).
    + destruct r as [|d r']; [discriminate|].
      destruct (isLowSurrogate d) eqn:El; [|discriminate].
      destruct (encodeURIComponent r') as [e1|] eqn:E1; [|discriminate].
      intros [= <-]. right. right. do 2 (split; [reflexivity|]).
      exists d, r', e1. auto.
    + destruct (isLowSurrogate c); [discriminate|].
      destruct (encodeURIComponent r) as [e1|] eqn:E1; [|discriminate].
      intros [= <-]. right. left. do 2 (split; [reflexivity|]).
      exists e1. auto.
Qed.

Lemma codePoint_inj (hi lo hi' lo' : N) :
  isHighSurrogate hi = true -> isLowSurrogate lo = true ->
  isHighSurrogate hi' = true -> isLowSurrogate lo' = true ->
  codePoint hi lo = codePoint hi' lo' -> hi = hi' /\ lo = lo'.
Proof.
  unfold isHighSurrogate, isLowSurrogate, codePoint.
  rewrite !andb_true_iff, !N.leb_le. lia.
Qed.

Lemma encode_cons_nonempty (c : N) (r : jsstring) :
  encodeURIComponent (c :: r) <> Some [].
Proof.
  intros H. apply encode_cons in H.
  destruct H as [(_ & e1 & _ & H)
                | [(_ & _ & e1 & _ & H)
                  | (_ & _ & d & r1 & e1 & _ & _ & _ & H)]].
  - discriminate.
  - destruct (percentEncode_head c) as [t Ht]. rewrite Ht in H.
    discriminate.
  - destruct (percentEncode_head (codePoint c d)) as [t Ht].
    rewrite Ht in H. discriminate.
Qed.

Lemma encode_inj (s s' e : jsstring) :
  Forall (fun c => c < 65536) s -> Forall (fun c => c < 65536) s' ->
  encodeURIComponent s = Some e -> encodeURIComponent s' = Some e ->
  s = s'.
Proof.
  revert s' e.
  induction s as [|c r IH1 IH2] using string_ind2; intros s' e Hs Hs'.
  - intros [= <-]. destruct s' as [|c' r']; [reflexivity|].
    intros H. destruct (encode_cons_nonempty _ _ H).
  - destruct s' as [|c' r'].
    { intros H [= <-]. destruct (encode_cons_nonempty _ _ H). }
    inversion Hs as [|? ? Hc Hr]; subst.
    inversion Hs' as [|? ? Hc' Hr']; subst.
    intros H H'. apply encode_cons in H. apply encode_cons in H'.
    destruct H as [(Hu & e1 & He1 & ->)
                  | [(Hu & Hh & e1 & He1 & ->)
                    | (Hu & Hh & d & r1 & e1 & -> & Hl & He1 & ->)]];
      destruct H' as [(Hu' & e2 & He2 & H')
                     | [(Hu' & Hh' & e2 & He2 & H')
                       | (Hu' & Hh' & d' & r2 & e2 & -> & Hl' & He2 & H')]].
    + injection H' as -> ->. f_equal. eapply IH1; eauto.
    + destruct (percentEncode_head c') as [t Ht]. rewrite Ht in H'.
      injection H' as -> _. discriminate.
    + destruct (percentEncode_head (codePoint c' d')) as [t Ht].
      rewrite Ht in H'. injection H' as -> _. discriminate.
    + destruct (percentEncode_head c) as [t Ht]. rewrite Ht in H'.
      injection H' as <- _. discriminate.
    + apply percentEncode_inj in H' as [-> ->]; [|lia..].
      f_equal. eapply IH1; eauto.
    + pose proof (codePoint_bounds c' d' Hh' Hl') as Hb.
      apply percentEncode_inj in H' as [-> _]; lia.
    + destruct (percentEncode_head (codePoint c d)) as [t Ht].
      rewrite Ht in H'. injection H' as <- _. discriminate.
    + pose proof (codePoint_bounds c d Hh Hl) as Hb.
      apply percentEncode_inj in H' as [E _]; lia.
    + pose proof (codePoint_bounds c d Hh Hl) as Hb.
      pose proof (codePoint_bounds c' d' Hh' Hl') as Hb'.
      apply percentEncode_inj in H' as [E ->]; [|lia..].
      apply codePoint_inj in E as [-> ->]; try assumption.
      f_equal. f_equal. inversion Hr; inversion Hr'; subst.
      eapply (IH2 d' r1 eq_refl); eauto.
Qed.

(** X22: the link of a client is the origin, then [/?client=], then a
    value made only of unreserved characters and percent signs; so no
    character of the name can end the value or start another parameter. *)
Theorem client_link_characters (origin name link : jsstring) :
  Forall (fun c => c < 65536) name ->
  getClientLink origin name = Some link ->
  exists e, link = origin ++ js "/?client=" ++ e
            /\ Forall (fun c => isEncoded c = true) e.
Proof.
  intros Hn. unfold getClientLink.
  destruct (encodeURIComponent name) as [e|] eqn:E; [|discriminate].
  intros [= <-]. exists e. split; [reflexivity|].
  exact (encode_characters name e Hn E).
Qed.

(** X23: a name of unreserved characters only is in its link as it is. *)
Theorem client_link_plain_name (origin name : jsstring) :
  forallb isUnreserved name = true ->
  getClientLink origin name = Some (origin ++ js "/?client=" ++ name).
Proof.
  intros H. unfold getClientLink. rewrite (encode_unreserved name H).
  reflexivity.
Qed.

(** X24: [getClientLink] throws (a [URIError]) exactly on a name with a
    surrogate that has no pair. *)
Theorem client_link_throws_iff (origin name : jsstring) :
  getClientLink origin name = None <-> isWellFormed name = false.
Proof.
  rewrite <- encode_None_iff. unfold getClientLink.
  destruct (encodeURIComponent name); split; congruence.
Qed.

(** X25: two names with the same link, for one origin, are the same name. *)
Theorem client_link_injective (origin name name' link : jsstring) :
  Forall (fun c => c < 65536) name -> Forall (fun c => c < 65536) name' ->
  getClientLink origin name = Some link ->
  getClientLink origin name' = Some link ->
  name = name'.
Proof.
  intros Hn Hn'. unfold getClientLink.
  destruct (encodeURIComponent name) as [e|] eqn:E; [|discriminate].
  destruct (encodeURIComponent name') as [e'|] eqn:E'; [|discriminate].
  intros [= <-] [= H].
  apply app_inv_head in H.
  apply (app_inv_head (js "/?client=")) in H. subst e'.
  exact (encode_inj name name' e Hn Hn' E E').
Qed.

(** ** The properties above, on the example *)

(** A HEAD request on the list leaves the store as it is. *)
Lemma other_methods_leave_store_witness :
  let ev := request "HEAD" (js "clients") None in
  Event.httpMethod ev <> js "POST"
  /\ Event.httpMethod ev <> js "PUT"
  /\ Event.httpMethod ev <> js "DELETE"
  /\ snd (handler hasScheme ev acmeStore) = acmeStore.
Proof.
  intros ev.
  assert (H1 : Event.httpMethod ev <> js "POST") by discriminate.
  assert (H2 : Event.httpMethod ev <> js "PUT") by discriminate.
  assert (H3 : Event.httpMethod ev <> js "DELETE") by discriminate.
  split; [exact H1|]. split; [exact H2|]. split; [exact H3|].
  exact (other_methods_leave_store hasScheme ev acmeStore H1 H2 H3).
Defined.

(** The update of the example, twice. *)
Lemma put_twice_witness :
  onClient "PUT" (js "Acme") putAcme
  /\ handler hasScheme putAcme (snd (handler hasScheme putAcme acmeStore))
     = handler hasScheme putAcme acmeStore.
Proof.
  assert (Hr : onClient "PUT" (js "Acme") putAcme)
    by (repeat split; try reflexivity; discriminate).
  split; [exact Hr|].
  exact (put_twice hasScheme putAcme (js "Acme") acmeStore Hr).
Defined.

(** The creation of the example, twice. *)
Lemma post_twice_witness :
  onClients "POST" postAcme
  /\ Response.statusCode (fst (handler hasScheme postAcme ClientStore.empty))
     = 201
  /\ handler hasScheme postAcme (snd (handler hasScheme postAcme ClientStore.empty))
     = (respond 409 (errorBody "Client with this name already exists"),
        acmeStore).
Proof.
  assert (Hr : onClients "POST" postAcme) by (split; reflexivity).
  split; [exact Hr|]. split; [reflexivity|].
  exact (post_twice hasScheme postAcme ClientStore.empty Hr eq_refl).
Defined.


(** The first of two clients, deleted and created again, is the second. *)
Lemma delete_then_create_witness :
  let st := [(js "Acme", acme); (js "Bolt", bolt)] in
  onClient "DELETE" (js "Acme") deleteAcme
  /\ ClientStore.has (js "Acme") st = true
  /\ onClients "POST" postAcme
  /\ fst (handler hasScheme postAcme (snd (handler hasScheme deleteAcme st)))
     = respond 201 (clientBody (js "Acme") acmeLink)
  /\ ClientStore.keys
       (snd (handler hasScheme postAcme (snd (handler hasScheme deleteAcme st))))
     = [js "Bolt"; js "Acme"].
Proof.
  intros st.
  assert (Hd : onClient "DELETE" (js "Acme") deleteAcme)
    by (repeat split; try reflexivity; discriminate).
  assert (Hr : onClients "POST" postAcme) by (split; reflexivity).
  split; [exact Hd|]. split; [reflexivity|]. split; [exact Hr|].
  split; [reflexivity|].
  exact (delete_then_create hasScheme deleteAcme postAcme st (js "Acme")
           acmeLink Hd eq_refl Hr eq_refl).
Defined.

(** The DELETE of [/clients/Acme/x] deletes the client [Acme]. *)
Lemma slash_ends_id_witness :
  let ev := request "DELETE" (clientPath (js "Acme/x")) None in
  Event.httpMethod ev = js "DELETE"
  /\ Event.path ev = apiPrefix ++ clientPath (js "Acme" ++ 47 :: js "x")
  /\ js "Acme" <> []
  /\ includes 47 (js "Acme") = false
  /\ onClient "DELETE" (js "Acme") ev
  /\ handler hasScheme ev acmeStore = (respondEmpty 204, []).
Proof.
  intros ev.
  assert (Hn : js "Acme" <> []) by discriminate.
  destruct (slash_ends_id hasScheme "DELETE" ev (js "Acme") (js "x") acmeStore
              eq_refl eq_refl Hn eq_refl) as [Hr Hdel].
  split; [reflexivity|]. split; [reflexivity|]. split; [exact Hn|].
  split; [reflexivity|]. split; [exact Hr|].
  exact (Hdel eq_refl eq_refl).
Defined.

(** A value with a line feed, a quotation mark and a character beyond
    ASCII in its strings. *)
Lemma stringify_then_parse_witness :
  let j :=
    JObject [(js "list", JArray [JNull; JBool true;
                                 JString (jsq "say 'hi'" ++ [10; 233])]);
             (js "none", JObject [])] in
  numberFree j = true
  /\ exists text, JSON_stringify j = Some text /\ JSON_parse text = Some j.
Proof.
  intros j. split; [reflexivity|].
  exact (stringify_then_parse j eq_refl).
Defined.

(** The list of the example is read back from the body of its response. *)
Lemma response_body_reads_back_witness :
  let j :=
    JArray [JObject [(js "id", JString (js "Acme"));
                     (js "name", JString (js "Acme"));
                     (js "downloadLink", JString acmeLink)]] in
  Response.body (fst (handler hasScheme getClients acmeStore))
  = Some (Stringify j)
  /\ exists text,
       bodyOf (fst (handler hasScheme getClients acmeStore)) = Some text
       /\ JSON_parse text = Some j.
Proof.
  intros j. split; [reflexivity|].
  exact (response_body_reads_back hasScheme getClients acmeStore j eq_refl).
Defined.

(** A creation with a name of two spaces. *)
Lemma required_iff_blank_witness :
  let ev :=
    request "POST" (js "clients")
      (Some (jsq "{'name':'  ','downloadLink':'https://x.test/a.zip'}")) in
  let b :=
    JObject [(js "name", JString (js "  "));
             (js "downloadLink", JString acmeLink)] in
  (onClients "POST" ev \/ (exists id, onClient "PUT" id ev))
  /\ JSON_parse (bodyText (Event.body ev)) = Some b
  /\ declaredShape b = true
  /\ fst (handler hasScheme ev acmeStore)
     = respond 400 (errorBody "Name and download link are required").
Proof.
  intros ev b.
  assert (Hr : onClients "POST" ev \/ (exists id, onClient "PUT" id ev))
    by (left; split; reflexivity).
  split; [exact Hr|]. split; [reflexivity|]. split; [reflexivity|].
  apply (required_iff_blank hasScheme ev acmeStore b Hr eq_refl eq_refl).
  reflexivity.
Defined.

(** The form of the example, with white space around its fields: what
    [handleAdd] sends creates the client. *)
Lemma handleAdd_accepted_witness :
  let body :=
    Some (jsq "{'name':'Acme','downloadLink':'https://x.test/a.zip'}") in
  let ev := request "POST" (js "clients") body in
  handleAdd (js " Acme ") (js " https://x.test/a.zip ")
  = Fetch (js "POST") (js "/api/clients") body
  /\ onClients "POST" ev
  /\ Event.body ev = body
  /\ handler hasScheme ev ClientStore.empty
     = (respond 201 (clientBody (js "Acme") acmeLink), acmeStore).
Proof.
  intros body ev.
  assert (Hr : onClients "POST" ev) by (split; reflexivity).
  split; [reflexivity|]. split; [exact Hr|]. split; [reflexivity|].
  exact (proj2 (proj2
    (handleAdd_accepted hasScheme (js " Acme ") (js " https://x.test/a.zip ")
       (js "POST") (js "/api/clients") body ev ClientStore.empty
       eq_refl Hr eq_refl))).
Defined.

(** The edition of the example: what [handleEdit] sends updates the
    client. *)
Lemma handleEdit_accepted_witness :
  let body :=
    Some (jsq "{'name':'Acme Corp','downloadLink':'https://x.test/b.zip'}") in
  let ev := request "PUT" (clientPath (js "Acme")) body in
  handleEdit (js "Acme") (js "Acme Corp ") (js " https://x.test/b.zip")
  = Fetch (js "PUT") (js "/api/clients/Acme") body
  /\ onClient "PUT" (js "Acme") ev
  /\ Event.body ev = body
  /\ handler hasScheme ev acmeStore
     = (respond 200 (clientBody (js "Acme Corp") (js "https://x.test/b.zip")),
        [(js "Acme", acmeCorp)]).
Proof.
  intros body ev.
  assert (Hr : onClient "PUT" (js "Acme") ev)
    by (repeat split; try reflexivity; discriminate).
  split; [reflexivity|]. split; [exact Hr|]. split; [reflexivity|].
  exact (proj2 (proj2
    (handleEdit_accepted hasScheme (js "Acme") (js "Acme Corp ")
       (js " https://x.test/b.zip") (js "PUT") (js "/api/clients/Acme")
       body ev acmeStore eq_refl Hr eq_refl))).
Defined.

(** A name with a space, an ampersand, a letter beyond ASCII and a
    surrogate pair. *)
Lemma client_link_characters_witness :
  let name := js "A & Caf" ++ [233; 55357; 56832] in
  Forall (fun c => c < 65536) name
  /\ getClientLink (js "https://paid.test") name
     = Some (js "https://paid.test/?client=A%20%26%20Caf%C3%A9%F0%9F%98%80")
  /\ exists e,
       js "https://paid.test/?client=A%20%26%20Caf%C3%A9%F0%9F%98%80"
       = js "https://paid.test" ++ js "/?client=" ++ e
       /\ Forall (fun c => isEncoded c = true) e.
Proof.
  intros name.
  assert (Hn : Forall (fun c => c < 65536) name)
    by (repeat (apply Forall_cons; [reflexivity|]); apply Forall_nil).
  split; [exact Hn|]. split; [reflexivity|].
  exact (client_link_characters (js "https://paid.test") name _ Hn eq_refl).
Defined.

(** The link of the client of the example. *)
Lemma client_link_plain_name_witness :
  forallb isUnreserved (js "Acme") = true
  /\ getClientLink (js "https://paid.test") (js "Acme")
     = Some (js "https://paid.test/?client=Acme").
Proof.
  split; [reflexivity|].
  exact (client_link_plain_name (js "https://paid.test") (js "Acme") eq_refl).
Defined.

(** The link of [Acme Corp] is the link of no other name. *)
Lemma client_link_injective_witness :
  let name := js "Acme Corp" in
  let link := js "https://paid.test/?client=Acme%20Corp" in
  Forall (fun c => c < 65536) name
  /\ getClientLink (js "https://paid.test") name = Some link
  /\ name = js "Acme Corp".
Proof.
  intros name link.
  assert (Hn : Forall (fun c => c < 65536) name)
    by (repeat (apply Forall_cons; [reflexivity|]); apply Forall_nil).
  split; [exact Hn|]. split; [reflexivity|].
  exact (client_link_injective (js "https://paid.test") name (js "Acme Corp")
           link Hn Hn eq_refl eq_refl).
Defined.
